(** * Volunteer activity analysis: cleaning, profile normalisation, metrics

    A shallow embedding of [volunteer_activity.py], and of the weekly and
    yearly summaries and the volatility labels of [demand_analysis.py].
    Tables of shift records are lists of records (one per row, in row
    order); the profile table, whose set of columns varies, is a list of
    named columns.  Null cells ([NaN], [NaT], [None]) are [None].

    Numbers.  Hours, trips and pounds are exact rationals: every finite
    double is one, and sums, quotients and means are taken exactly, where
    the code rounds each operation to a double.  A theorem about a sum, a
    quotient or a mean therefore holds of the code up to that rounding;
    the theorems say which rows a number is computed from, and assert no
    equality or order between two numbers that rounding can break.  The
    one product that is compared with an integer, [0.20 * n], is
    modelled on doubles.

    Text is modelled on the ASCII range: a character is a byte, and bytes
    above 127 are left untouched by [lower], [upper] and [title] and are
    not cased.  Theorems that depend on it assume ASCII text. *)

From Stdlib Require Import ZArith QArith Qcanon Qround String Ascii List Lia Permutation.
From stdpp Require Import base option list numbers sorting strings gmap.

Open Scope string_scope.
Open Scope Z_scope.

(* ===================================================================== *)
(** ** Python string methods *)
(* ===================================================================== *)

Module PyStr.

Definition code (c : ascii) : N := N_of_ascii c.

Definition isspace (c : ascii) : bool :=
  let n := code c in
  ((9 <=? n) && (n <=? 13) || (28 <=? n) && (n <=? 32))%N.

Definition isupper (c : ascii) : bool :=
  let n := code c in ((65 <=? n) && (n <=? 90))%N.

Definition islower (c : ascii) : bool :=
  let n := code c in ((97 <=? n) && (n <=? 122))%N.

Definition iscased (c : ascii) : bool := isupper c || islower c.

Definition lower_char (c : ascii) : ascii :=
  if isupper c then ascii_of_N (code c + 32) else c.

Definition upper_char (c : ascii) : ascii :=
  if islower c then ascii_of_N (code c - 32) else c.

Fixpoint lower (s : string) : string :=
  match s with
  | EmptyString => EmptyString
  | String c s' => String (lower_char c) (lower s')
  end.

Fixpoint upper (s : string) : string :=
  match s with
  | EmptyString => EmptyString
  | String c s' => String (upper_char c) (upper s')
  end.

Fixpoint lstrip (s : string) : string :=
  match s with
  | EmptyString => EmptyString
  | String c s' => if isspace c then lstrip s' else s
  end.

Fixpoint rev_onto (s acc : string) : string :=
  match s with
  | EmptyString => acc
  | String c s' => rev_onto s' (String c acc)
  end.

Definition rev (s : string) : string := rev_onto s EmptyString.

Definition rstrip (s : string) : string := rev (lstrip (rev s)).

Definition strip (s : string) : string := rstrip (lstrip s).

(** [s.startswith(p)] *)
Fixpoint startswith (p s : string) : bool :=
  match p, s with
  | EmptyString, _ => true
  | String a p', String b s' => Ascii.eqb a b && startswith p' s'
  | String _ _, EmptyString => false
  end.

(** [s.endswith(p)] *)
Definition endswith (p s : string) : bool := startswith (rev p) (rev s).

(** [sub in s] *)
Fixpoint contains (sub s : string) : bool :=
  startswith sub s ||
  match s with
  | EmptyString => false
  | String _ s' => contains sub s'
  end.

(** [s.split(sep)[0]] for a one-character separator. *)
Fixpoint split_head (sep : ascii) (s : string) : string :=
  match s with
  | EmptyString => EmptyString
  | String c s' => if Ascii.eqb c sep then EmptyString
                   else String c (split_head sep s')
  end.

(** [s.replace(old, "")] for a non-empty [old]: occurrences are found
    left to right and do not overlap; [skip] counts the characters of
    the current occurrence still to be dropped. *)
Fixpoint remove_from (old : string) (skip : nat) (s : string) : string :=
  match s with
  | EmptyString => EmptyString
  | String c s' =>
      match skip with
      | S k => remove_from old k s'
      | O => if startswith old s
             then remove_from old (Nat.pred (String.length old)) s'
             else String c (remove_from old O s')
      end
  end.

Definition remove_all (old s : string) : string := remove_from old O s.

(** [s.title()]: a cased character is upper-cased when the character
    before it is not cased (or it is the first one), lower-cased
    otherwise. *)
Fixpoint title_from (prev_cased : bool) (s : string) : string :=
  match s with
  | EmptyString => EmptyString
  | String c s' =>
      if iscased c
      then String (if prev_cased then lower_char c else upper_char c)
                  (title_from true s')
      else String c (title_from false s')
  end.

Definition title (s : string) : string := title_from false s.

End PyStr.

(* ===================================================================== *)
(** ** Cleaning helpers *)
(* ===================================================================== *)

Definition CITY_CANONICAL_MAP : gmap string string :=
  <["mississauga" := "Mississauga"]>
  (<["missisauga" := "Mississauga"]>
  (<["mississauaga" := "Mississauga"]>
  (<["mississouga" := "Mississauga"]>
  (<["oakville" := "Oakville"]>
  (<["toronto" := "Toronto"]>
  (<["brampton" := "Brampton"]>
  (<["burlington" := "Burlington"]>
  (<["hamilton" := "Hamilton"]>
  (<["vaughan" := "Vaughan"]>
  (<["richmond hill" := "Richmond Hill"]> ∅)))))))))).

Definition city_suffixes : list string :=
  [" on"; " ab"; " bc"; " can"; " canada"; " ontario"].

(** The suffix loop of [clean_city], as the source has it: when [s] ends
    with the suffix, every occurrence of the suffix is replaced. *)
Definition strip_suffix_step (s suffix : string) : string :=
  if PyStr.endswith suffix s
  then PyStr.strip (PyStr.remove_all suffix s)
  else s.

(** Lines 68-75 of [clean_city]: the value the three final rules see. *)
Definition city_key (city : string) : string :=
  let s := PyStr.lower (PyStr.strip city) in
  let s := if PyStr.contains "," s
           then PyStr.strip (PyStr.split_head "," s) else s in
  fold_left strip_suffix_step city_suffixes s.

Definition clean_city (city : option string) : option string :=
  match city with
  | None => None
  | Some c =>
      let s := city_key c in
      if PyStr.startswith "mis" s then Some "Mississauga"
      else match CITY_CANONICAL_MAP !! s with
           | Some v => Some v
           | None => Some (PyStr.title s)
           end
  end.

Definition clean_volunteer_status (status : option string) : string :=
  match status with
  | None => "Unknown"
  | Some st =>
      let s := PyStr.lower (PyStr.strip st) in
      if PyStr.contains "applicant" s then "Applicant"
      else if PyStr.contains "process" s then "In Process"
      else if PyStr.contains "accepted" s then "Accepted"
      else if PyStr.contains "inactive" s then "Inactive"
      else if PyStr.contains "archived" s then "Archived"
      else "Other"
  end.

Fixpoint remove_spaces (s : string) : string :=
  match s with
  | EmptyString => EmptyString
  | String c s' => if Ascii.eqb c " " then remove_spaces s'
                   else String c (remove_spaces s')
  end.

(** [len] counts characters; on ASCII text, where [upper] keeps the
    length, these are the bytes counted here. *)
Definition extract_fsa (postal : option string) : option string :=
  match postal with
  | None => None
  | Some p =>
      let s := PyStr.upper (remove_spaces p) in
      if (3 <=? String.length s)%nat then Some (String.substring 0 3 s) else None
  end.

Definition language_separators : list string := [","; ";"; " and "; "/"].

Definition classify_language (text : string) : string :=
  if String.eqb (PyStr.strip text) "" then "Other/Unknown"
  else
    let t := PyStr.lower text in
    let has_english := PyStr.contains "english" t in
    let is_multi := existsb (fun sep => PyStr.contains sep t) language_separators in
    if has_english && is_multi then "Multilingual"
    else if has_english then "English only"
    else "Other/Unknown".


(* ===================================================================== *)
(** ** Calendar: timestamps are seconds since 1970-01-01 00:00:00 *)
(* ===================================================================== *)

Module Calendar.

Definition SECONDS_PER_DAY : Z := 86400.

(** Day number (days since 1970-01-01) of a proleptic Gregorian date. *)
Definition days_from_civil (y m d : Z) : Z :=
  let y' := if m <=? 2 then y - 1 else y in
  let era := y' / 400 in
  let yoe := y' - era * 400 in
  let mp := if 2 <? m then m - 3 else m + 9 in
  let doy := (153 * mp + 2) / 5 + d - 1 in
  let doe := yoe * 365 + yoe / 4 - yoe / 100 + doy in
  era * 146097 + doe - 719468.

(** The date (year, month, day) of a day number. *)
Definition civil_from_days (z : Z) : Z * Z * Z :=
  let z' := z + 719468 in
  let era := z' / 146097 in
  let doe := z' - era * 146097 in
  let yoe := (doe - doe / 1460 + doe / 36524 - doe / 146096) / 365 in
  let y := yoe + era * 400 in
  let doy := doe - (365 * yoe + yoe / 4 - yoe / 100) in
  let mp := (5 * doy + 2) / 153 in
  let d := doy - (153 * mp + 2) / 5 + 1 in
  let m := if mp <? 10 then mp + 3 else mp - 9 in
  (if m <=? 2 then y + 1 else y, m, d).

Definition day_number (ts : Z) : Z := ts / SECONDS_PER_DAY.

(** [.dt.year], [.dt.month], [.dt.quarter] *)
Definition year (ts : Z) : Z := fst (fst (civil_from_days (day_number ts))).
Definition month (ts : Z) : Z := snd (fst (civil_from_days (day_number ts))).
Definition quarter (ts : Z) : Z := (month ts - 1) / 3 + 1.

(** Monday = 0; 1970-01-01 was a Thursday. *)
Definition weekday (ts : Z) : Z := (day_number ts + 3) mod 7.

Definition weeks_in_year (y : Z) : Z :=
  let p := fun y => (y + y / 4 - y / 100 + y / 400) mod 7 in
  if (p y =? 4) || (p (y - 1) =? 3) then 53 else 52.

(** [.dt.isocalendar().week] *)
Definition iso_week (ts : Z) : Z :=
  let y := year ts in
  let ordinal := day_number ts - days_from_civil y 1 1 + 1 in
  let w := (ordinal - (weekday ts + 1) + 10) / 7 in
  if w <? 1 then weeks_in_year (y - 1)
  else if weeks_in_year y <? w then 1 else w.

(** [pd.Timestamp(year=y, month=m, day=d)]: midnight of that date. *)
Definition Timestamp (y m d : Z) : Z := days_from_civil y m d * SECONDS_PER_DAY.

(** [.days] of a timedelta of [delta] seconds: whole days, rounded
    towards minus infinity. *)
Definition timedelta_days (delta : Z) : Z := delta / SECONDS_PER_DAY.

End Calendar.

Definition SEASONS : gmap Z string :=
  <[1 := "Winter"]> (<[2 := "Spring"]> (<[3 := "Summer"]> (<[4 := "Autumn"]> ∅))).

Definition MONTH_ORDER : list string :=
  ["January"; "February"; "March"; "April"; "May"; "June"; "July";
   "August"; "September"; "October"; "November"; "December"].

Definition DAY_ORDER : list string :=
  ["Monday"; "Tuesday"; "Wednesday"; "Thursday"; "Friday"; "Saturday"; "Sunday"].

(** [.dt.month_name()] and [.dt.day_name()] *)
Definition month_name (ts : Z) : string :=
  nth (Z.to_nat (Calendar.month ts - 1)) MONTH_ORDER "".
Definition day_name (ts : Z) : string :=
  nth (Z.to_nat (Calendar.weekday ts)) DAY_ORDER "".

(* ===================================================================== *)
(** ** Numbers: exact hours, float results, the double product 0.20 * n *)
(* ===================================================================== *)

(** The result of a float division: a finite value, an infinity or NaN. *)
Inductive fnum : Type :=
  | Fin (q : Qc)
  | PosInf
  | NegInf
  | NaN.

Definition Qc_leb (x y : Qc) : bool := Qle_bool x y.
Definition Qc_eqb (x y : Qc) : bool := Qeq_bool x y.

(** True division as numpy does it: [x/0] is an infinity of the sign of
    [x], and [0/0] is NaN.  A finite quotient is exact. *)
Definition fdiv (a b : Qc) : fnum :=
  if Qc_eqb b 0 then
    if Qc_eqb a 0 then NaN
    else if Qc_leb 0 a then PosInf else NegInf
  else Fin (a / b)%Qc.

(** [.fillna(0)] on one cell: only NaN is replaced. *)
Definition fillna0 (x : fnum) : fnum :=
  match x with NaN => Fin 0%Qc | _ => x end.

Module Float.

(** A positive binary64 value is [m * 2^e] with [m < 2^53]. *)
Definition PRECISION : Z := 53.

(** [m / 2^s] rounded to the nearest integer, ties to even. *)
Definition round_half_even (m s : Z) : Z :=
  let q := m / 2 ^ s in
  let r := m mod 2 ^ s in
  if 2 * r <? 2 ^ s then q
  else if 2 ^ s <? 2 * r then q + 1
  else if Z.even q then q else q + 1.

(** Round the non-negative [m * 2^e] to binary64 (no overflow or
    subnormal range is involved for the values used here). *)
Definition round (m e : Z) : Z * Z :=
  let s := Z.log2 m - (PRECISION - 1) in
  if s <=? 0 then (m, e) else (round_half_even m s, e + s).

Definition of_int (n : Z) : Z * Z := round n 0.

Definition mul (x y : Z * Z) : Z * Z :=
  round (fst x * fst y) (snd x + snd y).

(** The double written [0.20]: 3602879701896397 * 2^-54. *)
Definition d_0_20 : Z * Z := (3602879701896397, -54).

(** [math.ceil] of a double. *)
Definition ceil (x : Z * Z) : Z :=
  let (m, e) := x in
  if 0 <=? e then m * 2 ^ e else - ((- m) / 2 ^ (- e)).

End Float.

(** [math.ceil(0.20 * n_vol)] *)
Definition ceil_020 (n_vol : Z) : Z :=
  Float.ceil (Float.mul Float.d_0_20 (Float.of_int n_vol)).

(* ===================================================================== *)
(** ** Shift records *)
(* ===================================================================== *)

(** A row of the shift log as [read_csv] returns it. *)
Record raw_shift : Type := {
  DatabaseUserId : option Z;
  raw_DateVolunteered : option string;
  HoursWorked : option Qc;
  FinalCategory : option string;
  EventSubcategory : option string;
}.

(** A row of the cleaned table (the columns of [keep]). *)
Record ShiftRecord : Type := {
  VolunteerID : option Z;
  DateVolunteered : Z;
  Year : Z;
  Month : string;
  DayName : string;
  Week : Z;
  Season : option string;
  Category : option string;
  SubCategory : option string;
  Hours : option Qc;
}.

Definition TRAINING : string := "Training".
Definition TYPO_CATEGORY : string := "Market/Ware house Operation".
Definition FIXED_CATEGORY : string := "Market/Warehouse".
Definition EXCLUDED_SUBCATEGORY : string := "Holiday & Seasonal Meal Programs".
Definition MAX_HOURS : Qc := Qc_of_Z 16.

(** [Series.replace({old: new})] on one cell. *)
Definition replace_value (old new : string) (c : option string) : option string :=
  match c with
  | Some s => if String.eqb s old then Some new else c
  | None => None
  end.

(** [col != value] on one cell: a null cell is different from any value. *)
Definition cell_ne (c : option string) (value : string) : bool :=
  match c with
  | Some s => negb (String.eqb s value)
  | None => true
  end.

(** [col <= bound] on one cell: false on a null cell. *)
Definition cell_le (c : option Qc) (bound : Qc) : bool :=
  match c with
  | Some h => Qc_leb h bound
  | None => false
  end.

(** Lines 140-153: the derived columns and the renaming, for a row whose
    date parsed to [ts]. *)
Definition derive (r : raw_shift) (ts : Z) : ShiftRecord :=
  {| VolunteerID := DatabaseUserId r;
     DateVolunteered := ts;
     Year := Calendar.year ts;
     Month := month_name ts;
     DayName := day_name ts;
     Week := Calendar.iso_week ts;
     Season := SEASONS !! Calendar.quarter ts;
     Category := FinalCategory r;
     SubCategory := EventSubcategory r;
     Hours := HoursWorked r |}.

Definition set_Category (c : option string) (r : ShiftRecord) : ShiftRecord :=
  {| VolunteerID := VolunteerID r; DateVolunteered := DateVolunteered r;
     Year := Year r; Month := Month r; DayName := DayName r; Week := Week r;
     Season := Season r; Category := c; SubCategory := SubCategory r;
     Hours := Hours r |}.

Section Cleaning.

(** [pd.to_datetime(_, format="%d/%m/%Y %I:%M:%S %p", errors="coerce")]
    on one string: the timestamp, or nothing when it does not parse. *)
Variable to_datetime : string -> option Z.

(** Lines 133-138: parse, and drop the rows whose date is null. *)
Definition parse_date (r : raw_shift) : option Z :=
  raw_DateVolunteered r ≫= to_datetime.

Definition load_and_clean_hours (df : list raw_shift) : list ShiftRecord :=
  let df := omap (fun r => derive r <$> parse_date r) df in
  let df := map (fun r => set_Category
                  (replace_value TYPO_CATEGORY FIXED_CATEGORY (Category r)) r) df in
  let df := List.filter (fun r => negb (Year r =? 2016)) df in
  let df := List.filter (fun r => cell_le (Hours r) MAX_HOURS) df in
  let df := List.filter (fun r => cell_ne (SubCategory r) EXCLUDED_SUBCATEGORY) df in
  df.

End Cleaning.

(* ===================================================================== *)
(** ** Table helpers *)
(* ===================================================================== *)

(** [sorted(col.unique())], and the keys of a [groupby]: the distinct
    values in ascending order. *)
Definition unique_sorted (l : list Z) : list Z := merge_sort Z.le (remove_dups l).

Definition str_le (a b : string) : Prop := String.leb a b = true.
Global Instance str_le_dec : RelDecision str_le.
Proof. intros a b. unfold str_le. apply _. Defined.

Definition unique_sorted_str (l : list string) : list string :=
  merge_sort str_le (remove_dups l).

(** [col.nunique()]: the number of distinct non-null values. *)
Definition nunique (col : list (option Z)) : nat :=
  length (remove_dups (omap id col)).

(** [col.sum()]: null cells are skipped. *)
Definition hsum (col : list (option Qc)) : Qc :=
  foldr (fun h acc => (default 0 h + acc)%Qc) 0%Qc col.

Definition qsum (l : list Qc) : Qc := foldr Qcplus 0%Qc l.

(** [s.mean()] of a series without nulls; NaN when it is empty.  The
    mean is exact. *)
Definition fmean (l : list Qc) : fnum :=
  fdiv (qsum l) (Qc_of_Z (Z.of_nat (length l))).

Definition fscale (x : fnum) (k : Qc) : fnum :=
  match x with Fin q => Fin (q * k)%Qc | _ => x end.

(** [df[df["Year"] == yr]] *)
Definition rows_of_year (yr : Z) (df : list ShiftRecord) : list ShiftRecord :=
  List.filter (fun r => Year r =? yr) df.

(** The rows of one group of [groupby("Volunteer ID")]. *)
Definition rows_of_volunteer (v : Z) (df : list ShiftRecord) : list ShiftRecord :=
  List.filter (fun r => bool_decide (VolunteerID r = Some v)) df.

(** The keys of [groupby("Volunteer ID")]: rows with a null id belong to
    no group. *)
Definition volunteers (df : list ShiftRecord) : list Z :=
  unique_sorted (omap VolunteerID df).

(** [df[df["Category"] != "Training"]] *)
Definition not_training (df : list ShiftRecord) : list ShiftRecord :=
  List.filter (fun r => cell_ne (Category r) TRAINING) df.

(* ===================================================================== *)
(** ** Metrics: top 20% concentration *)
(* ===================================================================== *)

Record top20_row : Type := {
  t_Year : Z;
  t_TotalVolunteers : Z;
  t_Top20Volunteers : Z;
  t_TotalHours : Qc;
  t_Top20Hours : Qc;
  t_Top20Share : fnum;
  t_MeanTop20 : fnum;
  t_MeanOther80 : fnum;
}.

(** [df_y.groupby("Volunteer ID")["Hours"].sum()] *)
Definition hours_by_volunteer (df_y : list ShiftRecord) : list (Z * Qc) :=
  map (fun v => (v, hsum (map Hours (rows_of_volunteer v df_y)))) (volunteers df_y).

Definition hours_desc (a b : Z * Qc) : Prop := Qc_leb (snd b) (snd a) = true.
Global Instance hours_desc_dec : RelDecision hours_desc.
Proof. intros a b. unfold hours_desc. apply _. Defined.

(** [.sort_values(ascending=False)]; the order among equal totals is the
    one of this sort (pandas leaves it open). *)
Definition sort_values_desc (totals : list (Z * Qc)) : list (Z * Qc) :=
  merge_sort hours_desc totals.

Definition totals_of_year (df : list ShiftRecord) (yr : Z) : list (Z * Qc) :=
  sort_values_desc (hours_by_volunteer (rows_of_year yr df)).

Definition top20_segment (totals : list (Z * Qc)) : list (Z * Qc) :=
  take (Z.to_nat (ceil_020 (Z.of_nat (length totals)))) totals.

Definition other80_segment (totals : list (Z * Qc)) : list (Z * Qc) :=
  drop (Z.to_nat (ceil_020 (Z.of_nat (length totals)))) totals.

Definition top20_of_year (df : list ShiftRecord) (yr : Z) : option top20_row :=
  let totals := totals_of_year df yr in
  match totals with
  | [] => None
  | _ :: _ =>
      let n_vol := Z.of_nat (length totals) in
      let top_n := ceil_020 n_vol in
      let top20 := map snd (top20_segment totals) in
      let other80 := map snd (other80_segment totals) in
      Some {| t_Year := yr;
              t_TotalVolunteers := n_vol;
              t_Top20Volunteers := top_n;
              t_TotalHours := qsum (map snd totals);
              t_Top20Hours := qsum top20;
              t_Top20Share := fscale (fdiv (qsum top20) (qsum (map snd totals)))
                                     (Qc_of_Z 100);
              t_MeanTop20 := fmean top20;
              t_MeanOther80 := match other80 with
                               | [] => Fin 0%Qc
                               | _ :: _ => fmean other80
                               end |}
  end.

Definition compute_top20_engagement (df : list ShiftRecord) : list top20_row :=
  omap (top20_of_year df) (unique_sorted (map Year df)).

(* ===================================================================== *)
(** ** Metrics: rolling inactivity *)
(* ===================================================================== *)

Record retention_row : Type := {
  r_Year : Z;
  r_TotalVolunteers : Z;
  r_ActiveVolunteers : Z;
  r_InactiveVolunteers : Z;
  r_ActivePct : Qc;
  r_InactivePct : Qc;
}.

Definition threshold_days : Z := 180.

(** [.max()] of one group; a group is never empty. *)
Definition date_max (dates : list Z) : option Z :=
  match dates with
  | [] => None
  | d :: ds => Some (foldl Z.max d ds)
  end.

(** [df_y.groupby("Volunteer ID")["DateVolunteered"].max()] *)
Definition last_shift (df_y : list ShiftRecord) : list (Z * Z) :=
  omap (fun v => pair v <$> date_max (map DateVolunteered (rows_of_volunteer v df_y)))
       (volunteers df_y).

Definition year_end (yr : Z) : Z := Calendar.Timestamp yr 12 31.

(** [(year_end - last_shift).dt.days] *)
Definition inactivity_days (yr : Z) (last : list (Z * Z)) : list (Z * Z) :=
  map (fun vd => (fst vd, Calendar.timedelta_days (year_end yr - snd vd))) last.

(** [inactivity_days > threshold_days] *)
Definition inactive_flags (yr : Z) (df_y : list ShiftRecord) : list (Z * bool) :=
  map (fun vd => (fst vd, threshold_days <? snd vd))
      (inactivity_days yr (last_shift df_y)).

Definition count_true (flags : list (Z * bool)) : Z :=
  Z.of_nat (length (List.filter snd flags)).
Definition count_false (flags : list (Z * bool)) : Z :=
  Z.of_nat (length (List.filter (fun f => negb (snd f)) flags)).

(** [float(k) / total * 100 if total else 0], exactly. *)
Definition percent (k total : Z) : Qc :=
  if total =? 0 then 0%Qc
  else (Qc_of_Z k / Qc_of_Z total * Qc_of_Z 100)%Qc.

Definition retention_of_year (df_nt : list ShiftRecord) (yr : Z) : option retention_row :=
  let df_y := rows_of_year yr df_nt in
  match df_y with
  | [] => None
  | _ :: _ =>
      let inactive := inactive_flags yr df_y in
      let total := Z.of_nat (length (last_shift df_y)) in
      Some {| r_Year := yr;
              r_TotalVolunteers := total;
              r_ActiveVolunteers := count_false inactive;
              r_InactiveVolunteers := count_true inactive;
              r_ActivePct := percent (count_false inactive) total;
              r_InactivePct := percent (count_true inactive) total |}
  end.

Definition compute_retention_rolling_6mo (df : list ShiftRecord) : list retention_row :=
  let df_nt := not_training df in
  omap (retention_of_year df_nt) (unique_sorted (map Year df_nt)).

(* ===================================================================== *)
(** ** Metrics: trends *)
(* ===================================================================== *)

Record growth_row : Type := {
  g_Year : Z;
  g_ActiveVolunteers : Z;
  g_NewVolunteers : Z;
  g_ReturningVolunteers : Z;
  g_PctNew : fnum;
  g_PctReturning : fnum;
}.

(** [df_nt.groupby("Year")["Volunteer ID"].nunique()] *)
Definition active_by_year (df_nt : list ShiftRecord) : list (Z * Z) :=
  map (fun y => (y, Z.of_nat (nunique (map VolunteerID (rows_of_year y df_nt)))))
      (unique_sorted (map Year df_nt)).

(** [.min()] of one group. *)
Definition year_min (years : list Z) : option Z :=
  match years with
  | [] => None
  | y :: ys => Some (foldl Z.min y ys)
  end.

(** [df_nt.groupby("Volunteer ID")["Year"].min()] *)
Definition first_year (df_nt : list ShiftRecord) : list (Z * Z) :=
  omap (fun v => pair v <$> year_min (map Year (rows_of_volunteer v df_nt)))
       (volunteers df_nt).

(** [.value_counts().sort_index()]: a series from value to its number of
    occurrences; values that do not occur have no entry. *)
Definition value_counts (l : list Z) : gmap Z Z :=
  foldr (fun y m => <[y := default 0 (m !! y) + 1]> m) ∅ l.

(** [s.reindex(index, fill_value=fill)] *)
Definition reindex (s : gmap Z Z) (index : list Z) (fill : Z) : list (Z * Z) :=
  map (fun y => (y, default fill (s !! y))) index.

(** The quotient of two integer series cells, as a float; exact when
    finite. *)
Definition zdiv (a b : Z) : fnum := fdiv (Qc_of_Z a) (Qc_of_Z b).

Definition growth_explainer (df : list ShiftRecord) : list growth_row :=
  let df_nt := not_training df in
  let active := active_by_year df_nt in
  let new_by_year := value_counts (map snd (first_year df_nt)) in
  let aligned_new := reindex new_by_year (map fst active) 0 in
  let returning := zip_with (fun a n => snd a - snd n) active aligned_new in
  zip_with (fun an ret =>
              let a := snd (fst an) in
              let n := snd (snd an) in
              {| g_Year := fst (fst an);
                 g_ActiveVolunteers := a;
                 g_NewVolunteers := n;
                 g_ReturningVolunteers := ret;
                 g_PctNew := fscale (zdiv n a) (Qc_of_Z 100);
                 g_PctReturning := fscale (zdiv ret a) (Qc_of_Z 100) |})
           (zip active aligned_new) returning.

(** A table with a year index and named columns, as [unstack] builds it. *)
Record pivot (A : Type) : Type := {
  p_index : list Z;
  p_columns : list string;
  p_values : list (list A);
}.
Arguments p_index {A} _.
Arguments p_columns {A} _.
Arguments p_values {A} _.

(** The rows of the group [(y, c)] of [groupby(["Year", key])]. *)
Definition rows_of_cell (key : ShiftRecord -> option string) (y : Z) (c : string)
    (df : list ShiftRecord) : list ShiftRecord :=
  List.filter (fun r => (Year r =? y) && bool_decide (key r = Some c)) df.

(** [df.groupby(["Year", key])[col].agg().unstack(fill_value=fill)]: rows
    with a null key belong to no group; a (year, column) pair without a
    group gets [fill]. *)
Definition unstack {A : Type} (agg : list ShiftRecord -> A) (fill : A)
    (key : ShiftRecord -> option string) (df : list ShiftRecord) : pivot A :=
  let grouped := List.filter (fun r => bool_decide (is_Some (key r))) df in
  let index := unique_sorted (map Year grouped) in
  let columns := unique_sorted_str (omap key grouped) in
  {| p_index := index;
     p_columns := columns;
     p_values :=
       map (fun y =>
              map (fun c => match rows_of_cell key y c df with
                            | [] => fill
                            | g => agg g
                            end) columns) index |}.

(** [a / b] on two tables with the same labels. *)
Definition pivot_div (a b : pivot Qc) : pivot fnum :=
  {| p_index := p_index a;
     p_columns := p_columns a;
     p_values := zip_with (zip_with fdiv) (p_values a) (p_values b) |}.

Fixpoint lookup_column {A : Type} (c : string) (cols : list string) (vals : list A) : option A :=
  match cols, vals with
  | c' :: cols', v :: vals' => if String.eqb c c' then Some v else lookup_column c cols' vals'
  | _, _ => None
  end.

(** [t.reindex(columns=cols)]: a column that [t] lacks is all NaN. *)
Definition reindex_columns (t : pivot fnum) (cols : list string) : pivot fnum :=
  {| p_index := p_index t;
     p_columns := cols;
     p_values := map (fun row => map (fun c => default NaN (lookup_column c (p_columns t) row)) cols)
                     (p_values t) |}.

Definition pivot_fillna0 (t : pivot fnum) : pivot fnum :=
  {| p_index := p_index t;
     p_columns := p_columns t;
     p_values := map (map fillna0) (p_values t) |}.

Definition sum_hours (g : list ShiftRecord) : Qc := hsum (map Hours g).
Definition count_volunteers (g : list ShiftRecord) : Qc :=
  Qc_of_Z (Z.of_nat (nunique (map VolunteerID g))).

Definition season_avg (df : list ShiftRecord) : pivot fnum :=
  let season_year_hours := unstack sum_hours 0%Qc Season df in
  let season_year_vol := unstack count_volunteers 0%Qc Season df in
  pivot_fillna0 (pivot_div season_year_hours season_year_vol).

Definition month_avg (df : list ShiftRecord) : pivot fnum :=
  let month_year_hours := unstack sum_hours 0%Qc (fun r => Some (Month r)) df in
  let month_year_vol := unstack count_volunteers 0%Qc (fun r => Some (Month r)) df in
  pivot_fillna0 (reindex_columns (pivot_div month_year_hours month_year_vol) MONTH_ORDER).

Definition compute_trends (df : list ShiftRecord)
    : list growth_row * pivot fnum * pivot fnum :=
  (growth_explainer df, season_avg df, month_avg df).

(** The cell of row [y], column [c]. *)
Definition pivot_cell {A : Type} (t : pivot A) (y : Z) (c : string) : option A :=
  match list_find (fun y' => y' = y) (p_index t) with
  | Some (i, _) => (p_values t !! i) ≫= lookup_column c (p_columns t)
  | None => None
  end.

(* ===================================================================== *)
(** ** Profiles and the merge *)
(* ===================================================================== *)

(** The profile table as [read_csv] returns it.  The id column
    ([DatabaseUserId]) is required; the other columns are whatever the
    file has, by name, each with one text cell per row.  [read_csv]
    makes the names of a file distinct; a later [rename] can give two
    columns the same name. *)
Record profiles : Type := {
  pf_ids : list (option Z);
  pf_columns : list (string * list (option string));
}.

Inductive result (A : Type) : Type :=
  | Ok (a : A)
  | KeyError (key : string).
Arguments Ok {A} _.
Arguments KeyError {A} _.

Global Instance result_bind : MBind result := fun A B f x =>
  match x with
  | Ok a => f a
  | KeyError k => KeyError k
  end.

Definition columns_t : Type := list (string * list (option string)).

Definition has_column (df : columns_t) (c : string) : bool :=
  existsb (fun nc => String.eqb (fst nc) c) df.

(** [df[c]] *)
Fixpoint getitem (df : columns_t) (c : string) : result (list (option string)) :=
  match df with
  | [] => KeyError c
  | (n, col) :: df' => if String.eqb n c then Ok col else getitem df' c
  end.

(** [df[c] = col]: replaces the column, or appends a new one. *)
Fixpoint setitem (df : columns_t) (c : string) (col : list (option string)) : columns_t :=
  match df with
  | [] => [(c, col)]
  | (n, old) :: df' => if String.eqb n c then (n, col) :: df'
                       else (n, old) :: setitem df' c col
  end.

(** The columns of [df] named [c], in their order.  After a [rename] a
    name can label more than one column. *)
Definition columns_named (df : columns_t) (c : string) : columns_t :=
  List.filter (fun nc => String.eqb (fst nc) c) df.

(** [df[[c1; ...; cn]]]: for each name in turn, every column of that
    name; a name that labels no column raises [KeyError]. *)
Fixpoint getitem_list (df : columns_t) (cs : list string) : result columns_t :=
  match cs with
  | [] => Ok []
  | c :: cs' =>
      match columns_named df c with
      | [] => KeyError c
      | cols => rest ← getitem_list df cs'; Ok (cols ++ rest)%list
      end
  end.

Definition PROFILE_RENAMES : gmap string string :=
  <["CF - 2025 Update - Age Range (archived Nov 2025)" := "Age Range"]>
  (<["CF - Skills & Experience - Languages spoken:" := "Language"]>
  (<["YearsSinceVolunteerDateJoined" := "YearsJoined"]> ∅)).

(** [df.rename(columns=mapping)] *)
Definition rename (mapping : gmap string string) (df : columns_t) : columns_t :=
  map (fun nc => (default (fst nc) (mapping !! fst nc), snd nc)) df.

(** [vol_cols] without the id column, which [profiles] keeps apart. *)
Definition vol_cols : list string :=
  ["City"; "PostalCode"; "Province"; "Country"; "YearsJoined";
   "VolunteerStatus"; "Age Range"; "Language"].

(** Lines 171-193 of [merge_volunteer_data]. *)
Definition normalize_profiles (df_vol : profiles) : result profiles :=
  let cols := rename PROFILE_RENAMES (pf_columns df_vol) in
  cols ← getitem_list cols (List.filter (has_column cols) vol_cols);
  city ← getitem cols "City";
  let cols := setitem cols "City" (map clean_city city) in
  status ← getitem cols "VolunteerStatus";
  let cols := setitem cols "VolunteerStatus"
                (map (fun c => Some (clean_volunteer_status c)) status) in
  postal ← getitem cols "PostalCode";
  let cols := setitem cols "FSA" (map extract_fsa postal) in
  Ok {| pf_ids := pf_ids df_vol; pf_columns := cols |}.

(** A row of the merged table: the shift row and one cell per profile
    column. *)
Definition merged_row : Type := ShiftRecord * list (string * option string).

Definition profile_row (df_vol : profiles) (i : nat) : list (string * option string) :=
  map (fun nc => (fst nc, mjoin (snd nc !! i))) (pf_columns df_vol).

Definition null_profile (df_vol : profiles) : list (string * option string) :=
  map (fun nc => (fst nc, None)) (pf_columns df_vol).

(** The positions of the profile rows whose id equals [k]. *)
Definition matching_rows (df_vol : profiles) (k : option Z) : list nat :=
  List.filter (fun i => bool_decide (pf_ids df_vol !! i = Some k))
              (seq 0 (length (pf_ids df_vol))).

(** [df_hours.merge(df_vol, on="Volunteer ID", how="left")] *)
Definition left_merge (df_hours : list ShiftRecord) (df_vol : profiles) : list merged_row :=
  flat_map (fun s =>
              match matching_rows df_vol (VolunteerID s) with
              | [] => [(s, null_profile df_vol)]
              | ms => map (fun i => (s, profile_row df_vol i)) ms
              end) df_hours.

Definition merge_volunteer_data (df_hours : list ShiftRecord) (df_vol : profiles)
    : result (list merged_row) :=
  df_vol ← normalize_profiles df_vol;
  Ok (left_merge df_hours df_vol).

(** The cell of column [c] in a merged row. *)
Definition merged_cell (r : merged_row) (c : string) : option (option string) :=
  snd <$> List.find (fun nc => String.eqb (fst nc) c) (snd r).

(* ===================================================================== *)
(** ** The cleaning steps, one at a time *)
(* ===================================================================== *)

(** The five cleaning steps as separate table transformations, so that
    they can be applied in any order.  A row of the table they work on is
    the raw row with its parsed date (null when it did not parse); the
    year of a null date is null, and a null year is different from 2016. *)
Definition dated_shift : Type := raw_shift * option Z.

Inductive cleaning_step : Type :=
  | DropNullDates
  | DropYear2016
  | DropHoursOver16
  | DropExcludedSubcategory
  | RenameCategory.

Definition year_ne (d : option Z) (y : Z) : bool :=
  match d with
  | Some ts => negb (Calendar.year ts =? y)
  | None => true
  end.

Definition rename_raw_category (r : raw_shift) : raw_shift :=
  {| DatabaseUserId := DatabaseUserId r;
     raw_DateVolunteered := raw_DateVolunteered r;
     HoursWorked := HoursWorked r;
     FinalCategory := replace_value TYPO_CATEGORY FIXED_CATEGORY (FinalCategory r);
     EventSubcategory := EventSubcategory r |}.

Definition apply_step (st : cleaning_step) (t : list dated_shift) : list dated_shift :=
  match st with
  | DropNullDates => List.filter (fun r => bool_decide (is_Some (snd r))) t
  | DropYear2016 => List.filter (fun r => year_ne (snd r) 2016) t
  | DropHoursOver16 => List.filter (fun r => cell_le (HoursWorked (fst r)) MAX_HOURS) t
  | DropExcludedSubcategory =>
      List.filter (fun r => cell_ne (EventSubcategory (fst r)) EXCLUDED_SUBCATEGORY) t
  | RenameCategory => map (fun r => (rename_raw_category (fst r), snd r)) t
  end.

Definition run_steps (steps : list cleaning_step) (t : list dated_shift) : list dated_shift :=
  foldl (fun t st => apply_step st t) t steps.

(** The order of [load_and_clean_hours]. *)
Definition implemented_order : list cleaning_step :=
  [DropNullDates; RenameCategory; DropYear2016; DropHoursOver16; DropExcludedSubcategory].

Definition with_dates (to_datetime : string -> option Z) (df : list raw_shift)
    : list dated_shift :=
  map (fun r => (r, parse_date to_datetime r)) df.

(** The cleaned rows of a table from which the null dates are gone. *)
Definition finalize (t : list dated_shift) : list ShiftRecord :=
  omap (fun r => derive (fst r) <$> snd r) t.

(** What survives of one raw row, and in which form. *)
Definition clean_row (to_datetime : string -> option Z) (r : raw_shift)
    : option ShiftRecord :=
  match parse_date to_datetime r with
  | Some ts =>
      if negb (Calendar.year ts =? 2016)
         && cell_le (HoursWorked r) MAX_HOURS
         && cell_ne (EventSubcategory r) EXCLUDED_SUBCATEGORY
      then Some (derive (rename_raw_category r) ts)
      else None
  | None => None
  end.

(** What [to_datetime] returns on the one date string of the examples
    below, 10 January 2023 at 9 in the morning. *)
Definition to_datetime_sample (s : string) : option Z :=
  if String.eqb s "10/01/2023 09:00:00 AM" then Some 1673341200 else None.

(** Whether a year has a row with a volunteer id. *)
Definition has_volunteer (df : list ShiftRecord) (yr : Z) : bool :=
  existsb (fun r => (Year r =? yr) && bool_decide (is_Some (VolunteerID r))) df.

(** [d] is the latest shift date of volunteer [v] among the rows [df_y]. *)
Definition latest_shift_date (df_y : list ShiftRecord) (v d : Z) : Prop :=
  (∃ r, r ∈ df_y ∧ VolunteerID r = Some v ∧ DateVolunteered r = d) ∧
  (∀ r, r ∈ df_y → VolunteerID r = Some v → DateVolunteered r <= d).

(** The first year of volunteer [v]: the entry of [v] in the series
    [first_year]. *)
Definition first_year_of (df_nt : list ShiftRecord) (v : Z) : option Z :=
  year_min (map Year (rows_of_volunteer v df_nt)).

(** [y] is the first year in which volunteer [v] has a row of [df_nt]. *)
Definition is_first_year (df_nt : list ShiftRecord) (v y : Z) : Prop :=
  (∃ r, r ∈ df_nt ∧ VolunteerID r = Some v ∧ Year r = y) ∧
  (∀ r, r ∈ df_nt → VolunteerID r = Some v → y <= Year r).

(** The series [new_by_year] of [compute_trends]. *)
Definition new_by_year (df_nt : list ShiftRecord) : gmap Z Z :=
  value_counts (map snd (first_year df_nt)).

(** The records that the metrics on non-Training work are about, in the
    words of the specification: the rows of [df] whose category is not
    "Training" (a null category is not "Training"). *)
Definition qualifying_record (df : list ShiftRecord) (r : ShiftRecord) : Prop :=
  r ∈ df ∧ Category r ≠ Some "Training".

(** [d] is the latest shift date of volunteer [v] among the qualifying
    records of year [yr]. *)
Definition latest_qualifying_shift (df : list ShiftRecord) (yr v d : Z) : Prop :=
  (∃ r, qualifying_record df r ∧ Year r = yr ∧ VolunteerID r = Some v ∧
        DateVolunteered r = d) ∧
  (∀ r, qualifying_record df r → Year r = yr → VolunteerID r = Some v →
        DateVolunteered r <= d).

(** [y] is the first year in which volunteer [v] has a qualifying
    record. *)
Definition first_active_year (df : list ShiftRecord) (v y : Z) : Prop :=
  (∃ r, qualifying_record df r ∧ VolunteerID r = Some v ∧ Year r = y) ∧
  (∀ r, qualifying_record df r → VolunteerID r = Some v → y <= Year r).

(* ===================================================================== *)
(** ** The specification's reading of the suffix rule, and sample tables *)
(* ===================================================================== *)

(** [s] without its last [n] characters. *)
Definition drop_last (n : nat) (s : string) : string :=
  String.substring 0 (String.length s - n) s.

(** The suffix rule as the specification words it: a trailing suffix is
    stripped, that is, only the occurrence at the end is removed. *)
Definition strip_trailing_suffix_spec (s suffix : string) : string :=
  if PyStr.endswith suffix s
  then PyStr.strip (drop_last (String.length suffix) s)
  else s.

Definition city_key_spec (city : string) : string :=
  let s := PyStr.lower (PyStr.strip city) in
  let s := if PyStr.contains "," s
           then PyStr.strip (PyStr.split_head "," s) else s in
  fold_left strip_trailing_suffix_spec city_suffixes s.

Definition clean_city_spec (city : option string) : option string :=
  match city with
  | None => None
  | Some c =>
      let s := city_key_spec c in
      if PyStr.startswith "mis" s then Some "Mississauga"
      else match CITY_CANONICAL_MAP !! s with
           | Some v => Some v
           | None => Some (PyStr.title s)
           end
  end.

(** A raw row dated 10 January 2023, 9 in the morning. *)
Definition sample_raw (v : option Z) (h : Z) : raw_shift :=
  {| DatabaseUserId := v;
     raw_DateVolunteered := Some "10/01/2023 09:00:00 AM";
     HoursWorked := Some (Qc_of_Z h);
     FinalCategory := Some "Food Sort";
     EventSubcategory := None |}.

(** A cleaned row of volunteer [v]: [h] hours of "Food Sort" at [ts]. *)
Definition sample_shift (v : option Z) (ts : Z) (h : Z) : ShiftRecord :=
  derive {| DatabaseUserId := v;
            raw_DateVolunteered := None;
            HoursWorked := Some (Qc_of_Z h);
            FinalCategory := Some "Food Sort";
            EventSubcategory := None |} ts.

(** Volunteer 1 with 4 hours on 2023-01-10 and 6 hours on 2023-06-01,
    volunteer 2 with 3 hours on 2023-01-15. *)
Definition sample_table : list ShiftRecord :=
  [sample_shift (Some 1) (Calendar.Timestamp 2023 1 10) 4;
   sample_shift (Some 1) (Calendar.Timestamp 2023 6 1) 6;
   sample_shift (Some 2) (Calendar.Timestamp 2023 1 15) 3].

(** A shift log with one row that survives the cleaning and five that
    do not: no date, a date that does not parse, 17 hours, the excluded
    subcategory, and (surviving, renamed) the misspelt category. *)
Definition sample_log : list raw_shift :=
  [sample_raw (Some 1) 4;
   {| DatabaseUserId := Some 2; raw_DateVolunteered := None;
      HoursWorked := Some (Qc_of_Z 2); FinalCategory := Some "Food Sort";
      EventSubcategory := None |};
   {| DatabaseUserId := Some 3; raw_DateVolunteered := Some "yesterday";
      HoursWorked := Some (Qc_of_Z 2); FinalCategory := Some "Food Sort";
      EventSubcategory := None |};
   sample_raw (Some 4) 17;
   {| DatabaseUserId := Some 5;
      raw_DateVolunteered := Some "10/01/2023 09:00:00 AM";
      HoursWorked := Some (Qc_of_Z 2); FinalCategory := Some "Food Sort";
      EventSubcategory := Some EXCLUDED_SUBCATEGORY |};
   {| DatabaseUserId := Some 6;
      raw_DateVolunteered := Some "10/01/2023 09:00:00 AM";
      HoursWorked := Some (Qc_of_Z 2); FinalCategory := Some TYPO_CATEGORY;
      EventSubcategory := None |}].

(** A shift log of one row, whose volunteer id cell is empty. *)
Definition null_id_log : list raw_shift := [sample_raw None 3].

(** A profile table with every recognised column, for volunteer 1. *)
Definition sample_profiles : profiles :=
  {| pf_ids := [Some 1];
     pf_columns :=
       [("City", [Some "  Missisauga, ON"]);
        ("PostalCode", [Some "l5b 1h7"]);
        ("Province", [Some "ON"]);
        ("Country", [Some "Canada"]);
        ("YearsSinceVolunteerDateJoined", [Some "2"]);
        ("VolunteerStatus", [Some "Accepted"]);
        ("CF - 2025 Update - Age Range (archived Nov 2025)", [Some "25-34"]);
        ("CF - Skills & Experience - Languages spoken:", [Some "English, French"])] |}.

(** The same table without its [City] column. *)
Definition profiles_without_city : profiles :=
  {| pf_ids := pf_ids sample_profiles;
     pf_columns := List.filter (fun nc => negb (String.eqb (fst nc) "City"))
                               (pf_columns sample_profiles) |}.


(** A cleaned row of category [c]. *)
Definition sample_shift_of (c : string) (v : option Z) (ts : Z) (h : Z) : ShiftRecord :=
  set_Category (Some c) (sample_shift v ts h).

(** Volunteer 1 trained in 2022 and in December 2023 and sorted food on
    2023-01-10; volunteer 2 sorted food on 2023-11-15; volunteer 3 only
    trained. *)
Definition sample_training_table : list ShiftRecord :=
  [sample_shift_of "Training" (Some 1) (Calendar.Timestamp 2022 5 1) 2;
   sample_shift_of "Food Sort" (Some 1) (Calendar.Timestamp 2023 1 10) 4;
   sample_shift_of "Training" (Some 1) (Calendar.Timestamp 2023 12 1) 2;
   sample_shift_of "Food Sort" (Some 2) (Calendar.Timestamp 2023 11 15) 3;
   sample_shift_of "Training" (Some 3) (Calendar.Timestamp 2023 3 1) 2].

(* ===================================================================== *)
(** ** Auxiliary notions for the properties *)
(* ===================================================================== *)

(** The sum of [val] over the rows of the group [v] of a [groupby] on
    [key]. *)
Definition group_sum {A K : Type} `{EqDecision K} (key : A -> option K) (val : A -> Qc)
    (v : K) (l : list A) : Qc :=
  qsum (map val (List.filter (fun r => bool_decide (key r = Some v)) l)).

(** Every character of [s] satisfies [P]. *)
Fixpoint string_forall (P : ascii -> Prop) (s : string) : Prop :=
  match s with
  | EmptyString => True
  | String c s' => P c ∧ string_forall P s'
  end.

(** A text of ASCII characters only: the texts on which the model of the
    string methods is exact. *)
Definition ascii_text (s : string) : Prop :=
  string_forall (fun c => (PyStr.code c < 128)%N) s.

(** [sub] occurs in [s]: the meaning of Python's [sub in s]. *)
Definition occurs_in (sub s : string) : Prop :=
  ∃ pre post, s = String.append pre (String.append sub post).

(** A stable sort by insertion: two rows that the order does not
    separate keep the order they have in the input. *)
Fixpoint insert_stable {A : Type} (R : relation A) `{!RelDecision R} (x : A) (l : list A)
    : list A :=
  match l with
  | [] => [x]
  | y :: l' => if decide (R x y) then x :: l else y :: insert_stable R x l'
  end.

Definition stable_sort {A : Type} (R : relation A) `{!RelDecision R} (l : list A) : list A :=
  foldr (insert_stable R) [] l.

(** A character that [str.replace(" ", "")] keeps and [str.upper] leaves
    as it is. *)
Definition fsa_char (c : ascii) : Prop :=
  Ascii.eqb c " " = false ∧ PyStr.upper_char c = c.

(* ===================================================================== *)
(** ** Metrics: hours by category *)
(* ===================================================================== *)

Record category_row : Type := {
  c_Category : string;
  c_TotalHours : Qc;
}.

Record category_year_row : Type := {
  cy_Year : Z;
  cy_Category : string;
  cy_TotalHours : Qc;
}.

(** The rows of one group of [groupby("Category")]. *)
Definition rows_of_category (c : string) (df : list ShiftRecord) : list ShiftRecord :=
  List.filter (fun r => bool_decide (Category r = Some c)) df.

(** The keys of [groupby("Category")]: rows with a null category belong
    to no group. *)
Definition categories (df : list ShiftRecord) : list string :=
  unique_sorted_str (omap Category df).

(** [df.groupby("Category")["Hours"].sum().reset_index()
       .rename(columns={"Hours": "TotalHours"})] *)
Definition hours_by_category (df : list ShiftRecord) : list category_row :=
  map (fun c => {| c_Category := c;
                   c_TotalHours := hsum (map Hours (rows_of_category c df)) |})
      (categories df).

Definition total_desc (a b : category_row) : Prop :=
  Qc_leb (c_TotalHours b) (c_TotalHours a) = true.
Global Instance total_desc_dec : RelDecision total_desc.
Proof. intros a b. unfold total_desc. apply _. Defined.

(** [.sort_values("TotalHours", ascending=False)].  Equal totals keep
    the order of the categories here; pandas sorts one column with
    quicksort, which promises no order among equal totals. *)
Definition category_totals (df : list ShiftRecord) : list category_row :=
  stable_sort total_desc (hours_by_category df).

(** The key of a row in [groupby(["Year", "Category"])]. *)
Definition year_category (r : ShiftRecord) : option (Z * string) :=
  match Category r with
  | Some c => Some (Year r, c)
  | None => None
  end.

Definition year_category_le (a b : Z * string) : Prop :=
  fst a < fst b ∨ (fst a = fst b ∧ str_le (snd a) (snd b)).
Global Instance year_category_le_dec : RelDecision year_category_le.
Proof. intros a b. unfold year_category_le. apply _. Defined.

(** The keys of [groupby(["Year", "Category"])]: the pairs that occur. *)
Definition year_categories (df : list ShiftRecord) : list (Z * string) :=
  merge_sort year_category_le (remove_dups (omap year_category df)).

(** [df.groupby(["Year", "Category"])["Hours"].sum().reset_index()
       .rename(columns={"Hours": "TotalHours"})] *)
Definition hours_by_year_category (df : list ShiftRecord) : list category_year_row :=
  map (fun k => {| cy_Year := fst k;
                   cy_Category := snd k;
                   cy_TotalHours := hsum (map Hours (rows_of_cell Category (fst k) (snd k) df)) |})
      (year_categories df).

(** The order of [.sort_values(["Year", "TotalHours"],
    ascending=[True, False])]. *)
Definition year_total_order (a b : category_year_row) : Prop :=
  cy_Year a < cy_Year b ∨
  (cy_Year a = cy_Year b ∧ Qc_leb (cy_TotalHours b) (cy_TotalHours a) = true).
Global Instance year_total_order_dec : RelDecision year_total_order.
Proof. intros a b. unfold year_total_order. apply _. Defined.

(** Sorting by two columns is stable in pandas: rows with the same year
    and the same total keep the order of the categories. *)
Definition category_yearly (df : list ShiftRecord) : list category_year_row :=
  stable_sort year_total_order (hours_by_year_category df).

Definition compute_category_hours (df : list ShiftRecord)
    : list category_row * list category_year_row :=
  (category_totals df, category_yearly df).

(* ===================================================================== *)
(** ** Metrics: yearly engagement *)
(* ===================================================================== *)

(** The key of a row in [groupby(["Year", "Volunteer ID"])]. *)
Definition year_volunteer (r : ShiftRecord) : option (Z * Z) :=
  match VolunteerID r with
  | Some v => Some (Year r, v)
  | None => None
  end.

Definition year_volunteer_le (a b : Z * Z) : Prop :=
  fst a < fst b ∨ (fst a = fst b ∧ snd a <= snd b).
Global Instance year_volunteer_le_dec : RelDecision year_volunteer_le.
Proof. intros a b. unfold year_volunteer_le. apply _. Defined.

(** The keys of [groupby(["Year", "Volunteer ID"])]: the pairs that
    occur, in ascending order. *)
Definition year_volunteers (df : list ShiftRecord) : list (Z * Z) :=
  merge_sort year_volunteer_le (remove_dups (omap year_volunteer df)).

(** [df.groupby(["Year", "Volunteer ID"])["Hours"].sum().reset_index()]:
    rows of year, volunteer id and hours. *)
Definition hours_by_year_volunteer (df : list ShiftRecord) : list (Z * Z * Qc) :=
  map (fun k =>
         (fst k, snd k,
          hsum (map Hours
                    (List.filter (fun r => (Year r =? fst k)
                                           && bool_decide (VolunteerID r = Some (snd k)))
                                 df))))
      (year_volunteers df).

(** A standard deviation: NaN, or the square root of a variance. *)
Inductive std_value : Type :=
  | StdNaN
  | StdSqrt (variance : Qc).

Definition hours_asc (a b : Qc) : Prop := Qc_leb a b = true.
Global Instance hours_asc_dec : RelDecision hours_asc.
Proof. intros a b. unfold hours_asc. apply _. Defined.

Definition sort_values_asc (l : list Qc) : list Qc := merge_sort hours_asc l.

Definition qmin (a b : Qc) : Qc := if Qc_leb a b then a else b.
Definition qmax (a b : Qc) : Qc := if Qc_leb a b then b else a.

(** [s.min()] and [s.max()]; NaN on an empty series. *)
Definition series_min (l : list Qc) : fnum :=
  match l with
  | [] => NaN
  | x :: l' => Fin (foldr qmin x l')
  end.

Definition series_max (l : list Qc) : fnum :=
  match l with
  | [] => NaN
  | x :: l' => Fin (foldr qmax x l')
  end.

(** [s.std()]: the sample standard deviation (one degree of freedom
    less), NaN for fewer than two values. *)
Definition series_std (l : list Qc) : std_value :=
  match fmean l with
  | Fin m =>
      if (length l <=? 1)%nat then StdNaN
      else StdSqrt (qsum (map (fun x => (x - m) * (x - m)) l)
                    / Qc_of_Z (Z.of_nat (length l) - 1))%Qc
  | _ => StdNaN
  end.

(** The value at the fractional position [pos] of the sorted values [a]:
    linear interpolation between the two neighbours, the upper one
    clipped to the last position. *)
Definition interpolate (a : list Qc) (pos : Qc) : Qc :=
  let lo := Qfloor pos in
  let x_lo := nth (Z.to_nat lo) a 0%Qc in
  let x_hi := nth (Z.to_nat (lo + 1)) a x_lo in
  (x_lo + (x_hi - x_lo) * (pos - Qc_of_Z lo))%Qc.

(** [s.quantile(q)] with the default linear interpolation. *)
Definition quantile (q : Qc) (l : list Qc) : fnum :=
  match l with
  | [] => NaN
  | _ :: _ => Fin (interpolate (sort_values_asc l) (Qc_of_Z (Z.of_nat (length l) - 1) * q)%Qc)
  end.

(** The columns of [describe()] on a series of numbers. *)
Record describe_row : Type := {
  d_count : Z;
  d_mean : fnum;
  d_std : std_value;
  d_min : fnum;
  d_25 : fnum;
  d_50 : fnum;
  d_75 : fnum;
  d_max : fnum;
}.

Definition describe (l : list Qc) : describe_row :=
  {| d_count := Z.of_nat (length l);
     d_mean := fmean l;
     d_std := series_std l;
     d_min := series_min l;
     d_25 := quantile (Q2Qc (1 # 4)) l;
     d_50 := quantile (Q2Qc (1 # 2)) l;
     d_75 := quantile (Q2Qc (3 # 4)) l;
     d_max := series_max l |}.

(** A row of the result: the year and the statistics of the totals of
    its volunteers ([count] is the column [VolunteerCount]). *)
Definition compute_yearly_engagement (df : list ShiftRecord) : list (Z * describe_row) :=
  let totals := hours_by_year_volunteer df in
  map (fun y => (y, describe (map snd (List.filter (fun t => fst (fst t) =? y) totals))))
      (unique_sorted (map (fun t => fst (fst t)) totals)).

(* ===================================================================== *)
(** ** Demand analysis ([demand_analysis.py]) *)
(* ===================================================================== *)

(** The daily table after [load_and_clean_data] has parsed the dates and
    dropped the rows without one.  The columns derived from the date are
    functions of the row; [SEASONS] and [MONTH_ORDER] are the same
    constants as in [volunteer_activity.py].  The holiday columns and
    the z-score are not modelled. *)
Module Demand.

(** A row: its date, and the cells of "Shopping Trips by Day" and
    "Quantity (lbs) by Day" (null when empty). *)
Record day_row : Type := {
  Date : Z;
  ShoppingTrips : option Qc;
  Quantity : option Qc;
}.

(** [a / b] on two cells: NaN when one of them is null. *)
Definition cell_div (a b : option Qc) : fnum :=
  match a, b with
  | Some x, Some y => fdiv x y
  | _, _ => NaN
  end.

Definition lbs_per_visit (r : day_row) : fnum := cell_div (Quantity r) (ShoppingTrips r).
Definition Day_of_week (r : day_row) : string := day_name (Date r).
Definition Month (r : day_row) : string := month_name (Date r).
Definition Year (r : day_row) : Z := Calendar.year (Date r).
Definition quarter (r : day_row) : Z := Calendar.quarter (Date r).
Definition Season (r : day_row) : option string := SEASONS !! quarter r.

Definition d_0_20 : Qc := Q2Qc (3602879701896397 # 18014398509481984).





(** [df.groupby("Day_of_week")[col].sum()]: one entry per day name that
    occurs, in the order of the names. *)
Definition rows_of_day (d : string) (df : list day_row) : list day_row :=
  List.filter (fun r => String.eqb (Day_of_week r) d) df.

Definition sum_by_day (col : day_row -> option Qc) (df : list day_row) : list (string * Qc) :=
  map (fun d => (d, hsum (map col (rows_of_day d df))))
      (unique_sorted_str (map Day_of_week df)).

Record weekly_row : Type := {
  w_Day_of_week : string;
  w_demand_share : fnum;
  w_distribution_share : fnum;
}.

Definition weekly_summary (df : list day_row) : list weekly_row :=
  let demand := sum_by_day ShoppingTrips df in
  let dist := sum_by_day Quantity df in
  let demand_total := qsum (map snd demand) in
  let dist_total := qsum (map snd dist) in
  zip_with (fun a b => {| w_Day_of_week := fst a;
                          w_demand_share := fdiv (snd a) demand_total;
                          w_distribution_share := fdiv (snd b) dist_total |})
           demand dist.

(** [x - 1] on a float. *)
Definition fsub1 (x : fnum) : fnum :=
  match x with
  | Fin q => Fin (q - 1)%Qc
  | _ => x
  end.

(** [s.pct_change()] on a series without nulls: [s / s.shift(1) - 1]. *)
Definition pct_change (s : list Qc) : list fnum :=
  match s with
  | [] => []
  | _ :: rest => NaN :: zip_with (fun prev cur => fsub1 (fdiv cur prev)) s rest
  end.

Definition rows_of_year (y : Z) (df : list day_row) : list day_row :=
  List.filter (fun r => Year r =? y) df.

Record yearly_row : Type := {
  y_Year : Z;
  y_ShoppingTrips : Qc;
  y_Quantity : Qc;
  y_lbs_per_visit : fnum;
  y_yoy_demand_growth : fnum;
  y_yoy_distribution_growth : fnum;
}.

Definition yearly_summary (df : list day_row) : list yearly_row :=
  let years := unique_sorted (map Year df) in
  let trips := map (fun y => hsum (map ShoppingTrips (rows_of_year y df))) years in
  let lbs := map (fun y => hsum (map Quantity (rows_of_year y df))) years in
  let rows := zip years (zip trips lbs) in
  zip_with (fun row growth =>
              {| y_Year := fst row;
                 y_ShoppingTrips := fst (snd row);
                 y_Quantity := snd (snd row);
                 y_lbs_per_visit := fdiv (snd (snd row)) (fst (snd row));
                 y_yoy_demand_growth := fst growth;
                 y_yoy_distribution_growth := snd growth |})
           rows (zip (pct_change trips) (pct_change lbs)).

End Demand.

(** Three days of January 2023: Monday 9 (30 trips, 600 lbs), Tuesday 10
    (20 trips, 500 lbs) and Monday 16 (50 trips, 900 lbs). *)
Definition sample_days : list Demand.day_row :=
  [{| Demand.Date := Calendar.Timestamp 2023 1 9;
      Demand.ShoppingTrips := Some (Qc_of_Z 30);
      Demand.Quantity := Some (Qc_of_Z 600) |};
   {| Demand.Date := Calendar.Timestamp 2023 1 10;
      Demand.ShoppingTrips := Some (Qc_of_Z 20);
      Demand.Quantity := Some (Qc_of_Z 500) |};
   {| Demand.Date := Calendar.Timestamp 2023 1 16;
      Demand.ShoppingTrips := Some (Qc_of_Z 50);
      Demand.Quantity := Some (Qc_of_Z 900) |}].

(* ===================================================================== *)
(** ** Properties *)
(* ===================================================================== *)

Example clean_city_ex1 : clean_city (Some "  Missisauga, ON") = Some "Mississauga".
Proof. vm_compute. reflexivity. Qed.
Example clean_city_ex2 : clean_city (Some "MIS-Town") = Some "Mississauga".
Proof. vm_compute. reflexivity. Qed.
Example clean_city_ex3 : clean_city (Some "richmond hill ON") = Some "Richmond Hill".
Proof. vm_compute. reflexivity. Qed.
Example clean_city_ex4 : clean_city (Some "Niagara on the Lake ON") = Some "Niagara The Lake".
Proof. vm_compute. reflexivity. Qed.
Example clean_city_ex5 : clean_city (Some "st. john's") = Some "St. John'S".
Proof. vm_compute. reflexivity. Qed.
Example classify_ex1 : classify_language "English, French" = "Multilingual".
Proof. vm_compute. reflexivity. Qed.

(** *** Lists *)

Section ListFacts.
Context {A : Type}.

Lemma filter_elem_of (f : A -> bool) (l : list A) (x : A) :
  x ∈ List.filter f l ↔ x ∈ l ∧ f x = true.
Proof. rewrite !list_elem_of_In. apply filter_In. Qed.

Lemma filter_filter_comm (f g : A -> bool) (l : list A) :
  List.filter f (List.filter g l) = List.filter g (List.filter f l).
Proof.
  induction l as [|x l IH]; simpl; [done|].
  destruct (g x) eqn:Hg, (f x) eqn:Hf; simpl; rewrite ?Hg, ?Hf, IH; done.
Qed.

Lemma filter_map_comm {B : Type} (f : B -> bool) (h : A -> B) (g : A -> bool) (l : list A) :
  (∀ x, f (h x) = g x) →
  List.filter f (map h l) = map h (List.filter g l).
Proof.
  intros Hfg. induction l as [|x l IH]; simpl; [done|].
  rewrite Hfg. destruct (g x); simpl; rewrite IH; done.
Qed.

Lemma filter_nil_iff (f : A -> bool) (l : list A) :
  List.filter f l = [] ↔ ∀ x, x ∈ l → f x = false.
Proof.
  induction l as [|x l IH]; simpl.
  - split; [intros _ y Hy; inversion Hy | done].
  - destruct (f x) eqn:Hf.
    + split; [done|]. intros H. specialize (H x (list_elem_of_here _ _)). congruence.
    + rewrite IH. split.
      * intros H y Hy. apply elem_of_cons in Hy as [->|Hy]; auto.
      * intros H y Hy. apply H. by right.
Qed.

End ListFacts.

(** *** Cleaning *)

Section CleaningFacts.
Variable to_datetime : string -> option Z.

Lemma cell_le_spec c bound :
  cell_le c bound = true ↔ ∃ h, c = Some h ∧ (h <= bound)%Qc.
Proof.
  destruct c as [h|]; simpl.
  - unfold Qc_leb. rewrite Qle_bool_iff. split; [eauto|]. by intros (? & [= <-] & ?).
  - split; [done|]. by intros (? & ? & ?).
Qed.

Lemma cell_ne_spec c v : cell_ne c v = true ↔ c ≠ Some v.
Proof.
  destruct c as [s|]; simpl; [|done].
  rewrite negb_true_iff. destruct (String.eqb_spec s v); split; congruence.
Qed.

(** C6.  Every row of the cleaned table comes from a raw row whose date
    string parsed; its year is the year of that date and is not 2016;
    its hours are present and at most 16; its subcategory is not the
    excluded one. *)
Theorem cleaning_invariant (df : list raw_shift) (r : ShiftRecord) :
  r ∈ load_and_clean_hours to_datetime df →
  (∃ raw s, raw ∈ df ∧ raw_DateVolunteered raw = Some s ∧
            to_datetime s = Some (DateVolunteered r)) ∧
  Year r = Calendar.year (DateVolunteered r) ∧
  Year r ≠ 2016 ∧
  (∃ h, Hours r = Some h ∧ (h <= MAX_HOURS)%Qc) ∧
  SubCategory r ≠ Some EXCLUDED_SUBCATEGORY.
Proof.
  unfold load_and_clean_hours.
  rewrite !filter_elem_of, list_elem_of_fmap.
  intros [[[(r0 & -> & Hr0) Hy] Hh] Hs].
  apply list_elem_of_omap in Hr0 as (raw & Hraw & Hd).
  unfold parse_date in Hd.
  destruct (raw_DateVolunteered raw) as [s|] eqn:Hs0; simpl in Hd; [|done].
  destruct (to_datetime s) as [ts|] eqn:Hts; simpl in Hd; [|done].
  injection Hd as <-. simpl in *.
  split; [by exists raw, s|].
  split; [done|].
  split; [apply negb_true_iff, Z.eqb_neq in Hy; done|].
  split; [by apply cell_le_spec|by apply cell_ne_spec].
Qed.

(** Any two cleaning steps commute. *)
Lemma apply_step_comm (a b : cleaning_step) (t : list dated_shift) :
  apply_step a (apply_step b t) = apply_step b (apply_step a t).
Proof.
  destruct a, b; simpl;
    first [ reflexivity
          | apply filter_filter_comm
          | by apply filter_map_comm
          | by symmetry; apply filter_map_comm ].
Qed.

Lemma run_steps_Permutation (s1 s2 : list cleaning_step) :
  s1 ≡ₚ s2 → ∀ t, run_steps s1 t = run_steps s2 t.
Proof.
  induction 1 as [|x l l' _ IH|x y l|l l' l'' _ IH1 _ IH2]; intros t; simpl.
  - done.
  - apply IH.
  - by rewrite apply_step_comm.
  - by rewrite IH1.
Qed.

Lemma load_and_clean_hours_cons (r : raw_shift) (df : list raw_shift) :
  load_and_clean_hours to_datetime (r :: df)
  = (from_option (fun x => [x]) [] (clean_row to_datetime r)
     ++ load_and_clean_hours to_datetime df)%list.
Proof.
  unfold load_and_clean_hours, clean_row. simpl.
  destruct (parse_date to_datetime r) as [ts|]; simpl; [|done].
  destruct (Calendar.year ts =? 2016); simpl; [done|].
  destruct (cell_le (HoursWorked r) MAX_HOURS); simpl; [|done].
  destruct (cell_ne (EventSubcategory r) EXCLUDED_SUBCATEGORY); simpl; done.
Qed.

Lemma run_implemented_cons (r : raw_shift) (df : list raw_shift) :
  finalize (run_steps implemented_order (with_dates to_datetime (r :: df)))
  = (from_option (fun x => [x]) [] (clean_row to_datetime r)
     ++ finalize (run_steps implemented_order (with_dates to_datetime df)))%list.
Proof.
  unfold finalize, with_dates, implemented_order, clean_row. simpl.
  destruct (parse_date to_datetime r) as [ts|]; simpl; [|done].
  destruct (Calendar.year ts =? 2016); simpl; [done|].
  destruct (cell_le (HoursWorked r) MAX_HOURS); simpl; [|done].
  destruct (cell_ne (EventSubcategory r) EXCLUDED_SUBCATEGORY); simpl; done.
Qed.

(** The implemented order, step by step, is [load_and_clean_hours]. *)
Lemma implemented_order_correct (df : list raw_shift) :
  finalize (run_steps implemented_order (with_dates to_datetime df))
  = load_and_clean_hours to_datetime df.
Proof.
  induction df as [|r df IH]; [done|].
  by rewrite run_implemented_cons, load_and_clean_hours_cons, IH.
Qed.

(** C7.  The five cleaning steps applied in any order give the rows of
    [load_and_clean_hours], in the same row order. *)
Theorem cleaning_steps_commute (df : list raw_shift) (steps : list cleaning_step) :
  steps ≡ₚ implemented_order →
  finalize (run_steps steps (with_dates to_datetime df))
  = load_and_clean_hours to_datetime df.
Proof.
  intros Hp. rewrite (run_steps_Permutation _ _ Hp).
  apply implemented_order_correct.
Qed.

End CleaningFacts.

(** *** Keys of a group-by *)

Lemma unique_sorted_Permutation (l : list Z) : unique_sorted l ≡ₚ remove_dups l.
Proof. apply merge_sort_Permutation. Qed.

Lemma elem_of_unique_sorted (l : list Z) (x : Z) : x ∈ unique_sorted l ↔ x ∈ l.
Proof. by rewrite unique_sorted_Permutation, elem_of_remove_dups. Qed.

Lemma NoDup_unique_sorted (l : list Z) : NoDup (unique_sorted l).
Proof. rewrite unique_sorted_Permutation. apply NoDup_remove_dups. Qed.

Lemma length_unique_sorted (l : list Z) :
  length (unique_sorted l) = length (remove_dups l).
Proof. by rewrite unique_sorted_Permutation. Qed.

Lemma elem_of_volunteers (df : list ShiftRecord) (v : Z) :
  v ∈ volunteers df ↔ ∃ r, r ∈ df ∧ VolunteerID r = Some v.
Proof. unfold volunteers. by rewrite elem_of_unique_sorted, list_elem_of_omap. Qed.

Lemma NoDup_volunteers (df : list ShiftRecord) : NoDup (volunteers df).
Proof. apply NoDup_unique_sorted. Qed.

Lemma length_volunteers (df : list ShiftRecord) :
  length (volunteers df) = nunique (map VolunteerID df).
Proof.
  unfold volunteers, nunique. rewrite length_unique_sorted. do 2 f_equal.
  induction df as [|r df IH]; [done|].
  cbn [map omap list_omap]. rewrite <- IH.
  by destruct (VolunteerID r).
Qed.

Lemma elem_of_rows_of_year (yr : Z) (df : list ShiftRecord) (r : ShiftRecord) :
  r ∈ rows_of_year yr df ↔ r ∈ df ∧ Year r = yr.
Proof. unfold rows_of_year. by rewrite filter_elem_of, Z.eqb_eq. Qed.

Lemma elem_of_rows_of_volunteer (v : Z) (df : list ShiftRecord) (r : ShiftRecord) :
  r ∈ rows_of_volunteer v df ↔ r ∈ df ∧ VolunteerID r = Some v.
Proof. unfold rows_of_volunteer. by rewrite filter_elem_of, bool_decide_eq_true. Qed.

Lemma elem_of_not_training (df : list ShiftRecord) (r : ShiftRecord) :
  r ∈ not_training df ↔ r ∈ df ∧ Category r ≠ Some TRAINING.
Proof. unfold not_training. by rewrite filter_elem_of, cell_ne_spec. Qed.

(** The years of the rows that [omap] keeps, when the row of a year
    carries that year. *)
Lemma omap_keys {B : Type} (f : Z -> option B) (key : B -> Z) (l : list Z) :
  (∀ y b, f y = Some b → key b = y) →
  map key (omap f l) = List.filter (fun y => bool_decide (is_Some (f y))) l.
Proof.
  intros Hkey. induction l as [|y l IH]; [done|].
  cbn [omap list_omap List.filter]. destruct (f y) as [b|] eqn:Hb.
  - rewrite bool_decide_eq_true_2 by eauto.
    cbn [map]. rewrite (Hkey _ _ Hb). by f_equal.
  - rewrite bool_decide_eq_false_2 by (by intros [? ?]). done.
Qed.

Lemma NoDup_filter_bool {A : Type} (f : A -> bool) (l : list A) :
  NoDup l → NoDup (List.filter f l).
Proof.
  induction 1 as [|x l Hx Hl IH]; simpl; [constructor|].
  destruct (f x); [|done].
  constructor; [|done]. rewrite filter_elem_of. tauto.
Qed.

(** *** The double product 0.20 * n *)

Lemma round_half_even_bounds m s :
  0 < 2 ^ s →
  let q := m / 2 ^ s in
  let r := m mod 2 ^ s in
  q <= Float.round_half_even m s <= q + 1 ∧
  (2 * r < 2 ^ s → Float.round_half_even m s = q).
Proof.
  intros HB q r. unfold Float.round_half_even. fold q r.
  destruct (2 * r <? 2 ^ s) eqn:H1.
  - split; [lia|done].
  - apply Z.ltb_ge in H1. split; [|lia].
    destruct (2 ^ s <? 2 * r); [lia|]. destruct (Z.even q); lia.
Qed.

Lemma ceil_core (n p B C q' : Z) :
  0 < n → 5 * p = n * (2 ^ 54 + 1) →
  0 < B → B * C = 2 ^ 54 → 5 * B <= 2 ^ 54 →
  p < 2 ^ 53 * B →
  p / B <= q' <= p / B + 1 →
  (2 * (p mod B) < B → q' = p / B) →
  5 * (- ((- q') / C) - 1) < n <= 5 * - ((- q') / C).
Proof.
  intros Hn Hp HB HBC H5B Hub Hq' Htie.
  assert (0 < C) as HC by nia.
  pose proof (Z.div_mod p B ltac:(lia)) as Hdm.
  pose proof (Z.mod_pos_bound p B HB) as Hr.
  set (q := p / B) in *. set (r := p mod B) in *.
  pose proof (Z.div_mod (- q') C ltac:(lia)) as Hdm'.
  pose proof (Z.mod_pos_bound (- q') C HC) as Hm.
  set (d := (- q') / C) in *. set (m := (- q') mod C) in *.
  assert (2 ^ 54 = 18014398509481984) as E54 by reflexivity.
  assert (2 ^ 53 = 9007199254740992) as E53 by reflexivity.
  rewrite E54 in *. rewrite E53 in *.
  (* c = - d ; q' = C * c - m *)
  split.
  - (* 5 (c - 1) < n *)
    destruct (Z.lt_ge_cases (5 * (- d - 1)) n) as [|Hge]; [done|exfalso].
    destruct (Z.eq_dec n (5 * (- d - 1))) as [Heq|Hne].
    + assert (p = (- d - 1) * 18014398509481984 + (- d - 1)) as Hp' by lia.
      assert (2 * (- d - 1) < B) by nia.
      assert (q = (- d - 1) * C ∧ r = (- d - 1)) as [Hq Hrr].
      { assert (B * q + r = B * ((- d - 1) * C) + (- d - 1)) as E by nia.
        assert (0 <= - d - 1 < B) by lia.
        split; nia. }
      specialize (Htie ltac:(lia)). nia.
    + assert (n <= 5 * (- d - 1) - 1) by lia.
      assert (p < (- d - 1) * 18014398509481984) by nia.
      assert (q < (- d - 1) * C) by nia.
      nia.
  - destruct (Z.le_gt_cases n (5 * - d)) as [|Hgt]; [done|exfalso].
    assert (5 * p >= (5 * - d + 1) * 18014398509481985) by nia.
    assert (p < (q + 1) * B) by nia.
    destruct (Z.eq_dec q' q) as [->|]; nia.
Qed.

Lemma of_int_exact n : 0 < n < 2 ^ 53 → Float.of_int n = (n, 0).
Proof.
  intros Hn. unfold Float.of_int, Float.round, Float.PRECISION.
  assert (Z.log2 n < 53) by (apply Z.log2_lt_pow2; lia).
  destruct (Z.log2 n - (53 - 1) <=? 0) eqn:E; [done|].
  apply Z.leb_gt in E. lia.
Qed.

Lemma ceil_020_spec n :
  0 < n < 2 ^ 52 → 5 * (ceil_020 n - 1) < n <= 5 * ceil_020 n.
Proof.
  intros Hn.
  assert (2 ^ 52 = 4503599627370496) as E52 by reflexivity.
  assert (2 ^ 53 = 9007199254740992) as E53 by reflexivity.
  unfold ceil_020. rewrite of_int_exact by lia.
  unfold Float.mul, Float.d_0_20, Float.round, Float.PRECISION.
  cbn [fst snd].
  set (p := 3602879701896397 * n).
  assert (0 < p) as Hp by lia.
  pose proof (Z.log2_spec p Hp) as [Hlo Hhi].
  pose proof (Z.log2_nonneg p) as Hl0.
  destruct (Z.log2 p - (53 - 1) <=? 0) eqn:Es.
  - (* the product is exact: n is 1 or 2 *)
    apply Z.leb_le in Es.
    assert (2 ^ Z.succ (Z.log2 p) <= 2 ^ 53) by (apply Z.pow_le_mono_r; lia).
    assert (n = 1 ∨ n = 2) as [->| ->] by lia; vm_compute; split; congruence.
  - apply Z.leb_gt in Es.
    set (s := Z.log2 p - (53 - 1)) in *.
    assert (Z.log2 p < 104) as Hl.
    { apply Z.log2_lt_pow2; [lia|]. change (2 ^ 104) with (2 ^ 52 * 2 ^ 52). nia. }
    assert (0 < s <= 51) as Hs by lia.
    assert (0 < 2 ^ s) as HB by (apply Z.pow_pos_nonneg; lia).
    assert (2 ^ s * 2 ^ (54 - s) = 2 ^ 54) as HBC.
    { rewrite <- Z.pow_add_r by lia. f_equal. lia. }
    assert (5 * 2 ^ s <= 2 ^ 54) as H5B.
    { assert (2 ^ s <= 2 ^ 51) by (apply Z.pow_le_mono_r; lia).
      change (2 ^ 54) with (8 * 2 ^ 51). lia. }
    assert (p < 2 ^ 53 * 2 ^ s) as Hub.
    { rewrite <- Z.pow_add_r by lia. replace (53 + s) with (Z.succ (Z.log2 p)) by lia. done. }
    pose proof (round_half_even_bounds p s HB) as [Hq Htie].
    unfold Float.ceil.
    destruct (0 <=? -54 + 0 + s) eqn:Ee; [apply Z.leb_le in Ee; lia|].
    replace (- (-54 + 0 + s)) with (54 - s) by lia.
    apply (ceil_core n p (2 ^ s) (2 ^ (54 - s))); try done; lia.
Qed.

(** *** Top 20% concentration *)

Lemma qsum_app (l1 l2 : list Qc) : qsum (l1 ++ l2) = (qsum l1 + qsum l2)%Qc.
Proof.
  induction l1 as [|x l1 IH]; simpl.
  - by rewrite Qcplus_0_l.
  - by rewrite IH, Qcplus_assoc.
Qed.

Lemma Qc_leb_le (x y : Qc) : Qc_leb x y = true ↔ (x <= y)%Qc.
Proof. unfold Qc_leb. apply Qle_bool_iff. Qed.

Global Instance hours_desc_trans : Transitive hours_desc.
Proof.
  intros a b c. unfold hours_desc. rewrite !Qc_leb_le.
  intros H1 H2. by eapply Qcle_trans.
Qed.

Global Instance hours_desc_total : Total hours_desc.
Proof.
  intros a b. unfold hours_desc. rewrite !Qc_leb_le.
  destruct (Qclt_le_dec (snd a) (snd b)) as [H|H]; [right; by apply Qclt_le_weak|by left].
Qed.

Lemma sort_values_desc_Permutation (l : list (Z * Qc)) : sort_values_desc l ≡ₚ l.
Proof. apply merge_sort_Permutation. Qed.

Lemma sort_values_desc_sorted (l : list (Z * Qc)) :
  StronglySorted hours_desc (sort_values_desc l).
Proof. apply StronglySorted_merge_sort; apply _. Qed.

Lemma length_totals_of_year (df : list ShiftRecord) (yr : Z) :
  length (totals_of_year df yr) = nunique (map VolunteerID (rows_of_year yr df)).
Proof.
  unfold totals_of_year. rewrite sort_values_desc_Permutation.
  unfold hours_by_volunteer. rewrite length_map. apply length_volunteers.
Qed.

Lemma has_volunteer_spec (df : list ShiftRecord) (yr : Z) :
  has_volunteer df yr = true ↔ ∃ r v, r ∈ df ∧ Year r = yr ∧ VolunteerID r = Some v.
Proof.
  unfold has_volunteer. rewrite existsb_exists. split.
  - intros (r & Hr & H). apply andb_true_iff in H as [Hy Hv].
    apply Z.eqb_eq in Hy. apply bool_decide_eq_true in Hv as [v Hv].
    exists r, v. by rewrite list_elem_of_In.
  - intros (r & v & Hr & Hy & Hv). exists r. rewrite <- list_elem_of_In.
    split; [done|]. apply andb_true_iff. rewrite Z.eqb_eq, bool_decide_eq_true. eauto.
Qed.

Lemma totals_of_year_nil (df : list ShiftRecord) (yr : Z) :
  totals_of_year df yr = [] ↔ has_volunteer df yr = false.
Proof.
  rewrite <- not_true_iff_false, has_volunteer_spec.
  rewrite <- length_zero_iff_nil, length_totals_of_year, <- length_volunteers,
    length_zero_iff_nil.
  split.
  - intros H (r & v & Hr & Hy & Hv).
    assert (v ∈ volunteers (rows_of_year yr df)) as Hin.
    { apply elem_of_volunteers. exists r. by rewrite elem_of_rows_of_year. }
    rewrite H in Hin. inversion Hin.
  - intros H. destruct (volunteers (rows_of_year yr df)) as [|v l] eqn:E; [done|].
    exfalso. apply H.
    assert (v ∈ volunteers (rows_of_year yr df)) as Hin by (rewrite E; left).
    apply elem_of_volunteers in Hin as (r & Hr & Hv).
    apply elem_of_rows_of_year in Hr as [Hr Hy]. eauto.
Qed.

Lemma top20_of_year_Year (df : list ShiftRecord) (yr : Z) (row : top20_row) :
  top20_of_year df yr = Some row → t_Year row = yr.
Proof.
  unfold top20_of_year. destruct (totals_of_year df yr); [done|]. by intros [= <-].
Qed.

Lemma top20_of_year_is_Some (df : list ShiftRecord) (yr : Z) :
  bool_decide (is_Some (top20_of_year df yr)) = has_volunteer df yr.
Proof.
  destruct (has_volunteer df yr) eqn:E.
  - apply bool_decide_eq_true. unfold top20_of_year.
    destruct (totals_of_year df yr) eqn:Et; [|eauto].
    apply totals_of_year_nil in Et. congruence.
  - apply bool_decide_eq_false. apply totals_of_year_nil in E.
    unfold top20_of_year. rewrite E. by intros [? ?].
Qed.



Lemma sorted_take_drop (l : list (Z * Qc)) (k : nat) (a b : Z * Qc) :
  StronglySorted hours_desc l → a ∈ take k l → b ∈ drop k l → (snd b <= snd a)%Qc.
Proof.
  intros HS Ha Hb. rewrite <- (take_drop k l) in HS.
  apply Qc_leb_le. by apply (StronglySorted_app_1_elem_of hours_desc _ _ a b HS).
Qed.

Lemma hours_by_volunteer_keys (df_y : list ShiftRecord) :
  fst <$> hours_by_volunteer df_y = volunteers df_y.
Proof.
  unfold hours_by_volunteer. change (fst <$> ?l) with (map fst l).
  rewrite map_map. cbn [fst]. apply map_id.
Qed.

(** The per-volunteer totals of a year: one entry for each volunteer id
    of the year, with the hours of that volunteer's rows of the year. *)
Lemma elem_of_hours_by_volunteer (df : list ShiftRecord) (yr v : Z) (h : Qc) :
  (v, h) ∈ hours_by_volunteer (rows_of_year yr df) ↔
  (∃ r, r ∈ df ∧ Year r = yr ∧ VolunteerID r = Some v) ∧
  h = hsum (map Hours (List.filter (fun r => (Year r =? yr)
                                             && bool_decide (VolunteerID r = Some v))
                                   df)).
Proof.
  assert (rows_of_volunteer v (rows_of_year yr df)
          = List.filter (fun r => (Year r =? yr) && bool_decide (VolunteerID r = Some v)) df)
    as Hrows.
  { unfold rows_of_volunteer, rows_of_year. induction df as [|r df IH]; [done|].
    cbn [List.filter]. destruct (Year r =? yr); cbn [andb List.filter]; [|done].
    destruct (bool_decide _); by rewrite IH. }
  unfold hours_by_volunteer. rewrite list_elem_of_fmap. split.
  - intros (v' & [= <- ->] & Hv). apply elem_of_volunteers in Hv as (r & Hr & Hv).
    apply elem_of_rows_of_year in Hr as [Hr Hy]. split; [by exists r|].
    by rewrite Hrows.
  - intros [(r & Hr & Hy & Hv) ->]. exists v. split; [by rewrite Hrows|].
    apply elem_of_volunteers. exists r. by rewrite elem_of_rows_of_year.
Qed.

(** C2.  For every row of the table: the volunteer count is the number
    of distinct volunteer ids of the year; [top_n] is
    [math.ceil(0.20 * count)] as the doubles compute it, which is the
    ceiling of a fifth of the count (for fewer than 2^52 volunteers);
    the ranked totals have one entry for each volunteer id of the year,
    which carries the sum of the hours of that volunteer's rows of the
    year, and they are in descending order of hours; they are split
    into the first [top_n] and the rest, every total of the first part
    being at least every total of the rest; the hours of the two parts
    add up to the total hours; and the mean of an empty remainder is
    0. *)
Theorem top20_concentration (df : list ShiftRecord) (row : top20_row) :
  row ∈ compute_top20_engagement df →
  let yr := t_Year row in
  let totals := totals_of_year df yr in
  let n_vol := t_TotalVolunteers row in
  let top_n := t_Top20Volunteers row in
  n_vol = Z.of_nat (nunique (map VolunteerID (rows_of_year yr df))) ∧
  top_n = ceil_020 n_vol ∧
  (n_vol < 2 ^ 52 → 5 * (top_n - 1) < n_vol <= 5 * top_n) ∧
  totals ≡ₚ hours_by_volunteer (rows_of_year yr df) ∧
  (top20_segment totals ++ other80_segment totals)%list = totals ∧
  (n_vol < 2 ^ 52 → Z.of_nat (length (top20_segment totals)) = top_n) ∧
  (∀ a b, a ∈ top20_segment totals → b ∈ other80_segment totals →
          (snd b <= snd a)%Qc) ∧
  t_TotalHours row = qsum (map snd totals) ∧
  t_Top20Hours row = qsum (map snd (top20_segment totals)) ∧
  (t_Top20Hours row + qsum (map snd (other80_segment totals)))%Qc = t_TotalHours row ∧
  (other80_segment totals = [] → t_MeanOther80 row = Fin 0%Qc) ∧
  (other80_segment totals ≠ [] →
   t_MeanOther80 row = fmean (map snd (other80_segment totals))) ∧
  n_vol = Z.of_nat (length totals) ∧
  NoDup (map fst totals) ∧
  (∀ v h, (v, h) ∈ totals ↔
     (∃ r, r ∈ df ∧ Year r = yr ∧ VolunteerID r = Some v) ∧
     h = hsum (map Hours (List.filter (fun r => (Year r =? yr)
                                                && bool_decide (VolunteerID r = Some v))
                                      df))) ∧
  (∀ i j a b, totals !! i = Some a → totals !! j = Some b → (i <= j)%nat →
              (snd b <= snd a)%Qc).
Proof.
  unfold compute_top20_engagement. rewrite list_elem_of_omap.
  intros (yr & _ & Hrow).
  pose proof (top20_of_year_Year _ _ _ Hrow) as Hyr.
  cbv zeta. rewrite Hyr. clear Hyr.
  unfold top20_of_year in Hrow.
  pose proof (length_totals_of_year df yr) as Hlen.
  destruct (totals_of_year df yr) as [|t0 ts] eqn:Et; [done|].
  rewrite <- Et in *. injection Hrow as <-. cbn [t_TotalVolunteers t_Top20Volunteers
    t_TotalHours t_Top20Hours t_MeanOther80].
  set (totals := totals_of_year df yr) in *.
  assert (0 < Z.of_nat (length totals)) as Hpos by (rewrite Et; simpl; lia).
  assert (Z.of_nat (length totals) < 2 ^ 52 →
          5 * (ceil_020 (Z.of_nat (length totals)) - 1) < Z.of_nat (length totals)
          <= 5 * ceil_020 (Z.of_nat (length totals))) as Hceil.
  { intros Hlt. apply ceil_020_spec. lia. }
  split; [by rewrite Hlen|]. split; [done|]. split; [done|].
  split; [apply sort_values_desc_Permutation|].
  split; [apply take_drop|].
  split.
  { intros Hlt. specialize (Hceil Hlt). unfold top20_segment.
    rewrite length_take. lia. }
  split.
  { intros a b. unfold top20_segment, other80_segment.
    apply sorted_take_drop, sort_values_desc_sorted. }
  split; [done|]. split; [done|].
  split.
  { rewrite <- qsum_app, <- map_app. unfold top20_segment, other80_segment.
    by rewrite take_drop. }
  split; [by intros ->|].
  split; [intros Hne; by destruct (other80_segment totals)|].
  assert (totals ≡ₚ hours_by_volunteer (rows_of_year yr df)) as Hperm
    by apply sort_values_desc_Permutation.
  split; [done|]. split; [|split].
  - change (map fst ?l) with (fst <$> l). rewrite Hperm.
    rewrite hours_by_volunteer_keys. apply NoDup_volunteers.
  - intros v h. rewrite Hperm. apply elem_of_hours_by_volunteer.
  - intros i j a b Ha Hb Hij.
    pose proof (sort_values_desc_sorted (hours_by_volunteer (rows_of_year yr df))) as HS.
    fold (totals_of_year df yr) in HS. fold totals in HS.
    destruct (decide (i = j)) as [->|Hne].
    { assert (a = b) as -> by congruence. apply Qcle_refl. }
    rewrite <- (take_drop (S i) totals) in HS. apply Qc_leb_le.
    apply (StronglySorted_app_1_elem_of hours_desc _ _ a b HS).
    + apply list_elem_of_lookup. exists i. by rewrite lookup_take_lt by lia.
    + apply list_elem_of_lookup. exists (j - S i)%nat. rewrite lookup_drop.
      by replace (S i + (j - S i))%nat with j by lia.
Qed.

(** *** Rolling inactivity *)

Lemma foldl_max_spec (d : Z) (ds : list Z) :
  foldl Z.max d ds ∈ d :: ds ∧ ∀ x, x ∈ d :: ds → x <= foldl Z.max d ds.
Proof.
  revert d. induction ds as [|e ds IH]; intros d; simpl.
  - split; [left|]. intros x Hx. apply list_elem_of_singleton in Hx. lia.
  - destruct (IH (Z.max d e)) as [Hin Hub]. split.
    + apply elem_of_cons in Hin as [Hin|Hin]; [|by do 2 right].
      rewrite Hin. destruct (Z.max_spec d e) as [[_ ->]|[_ ->]]; [right; left|left].
    + intros x Hx.
      assert (Z.max d e <= foldl Z.max (Z.max d e) ds) by (apply Hub; left).
      apply elem_of_cons in Hx as [->|Hx]; [lia|].
      apply elem_of_cons in Hx as [->|Hx]; [lia|].
      apply Hub. by right.
Qed.

Lemma date_max_spec (l : list Z) (m : Z) :
  date_max l = Some m ↔ m ∈ l ∧ ∀ x, x ∈ l → x <= m.
Proof.
  destruct l as [|d ds]; simpl.
  - split; [done|]. intros [H _]. inversion H.
  - destruct (foldl_max_spec d ds) as [Hin Hub]. split.
    + by intros [= <-].
    + intros [Hm Hle]. f_equal. apply Z.le_antisymm; [by apply Hle|by apply Hub].
Qed.

Lemma latest_shift_date_max (df_y : list ShiftRecord) (v d : Z) :
  date_max (map DateVolunteered (rows_of_volunteer v df_y)) = Some d
  ↔ latest_shift_date df_y v d.
Proof.
  rewrite date_max_spec. unfold latest_shift_date.
  setoid_rewrite list_elem_of_fmap. setoid_rewrite elem_of_rows_of_volunteer.
  split.
  - intros [(r & -> & Hr & Hv) Hle]. split; [by exists r|].
    intros r' Hr' Hv'. apply Hle. by exists r'.
  - intros [(r & Hr & Hv & <-) Hle]. split; [by exists r|].
    intros x (r' & -> & Hr' & Hv'). by apply Hle.
Qed.

Lemma elem_of_last_shift (df_y : list ShiftRecord) (v d : Z) :
  (v, d) ∈ last_shift df_y ↔ latest_shift_date df_y v d.
Proof.
  unfold last_shift. rewrite list_elem_of_omap. split.
  - intros (v' & _ & H).
    destruct (date_max _) as [d'|] eqn:E; simpl in H; [|done].
    injection H as -> ->. by apply latest_shift_date_max.
  - intros H. exists v. split.
    + apply elem_of_volunteers. destruct H as [(r & Hr & Hv & _) _]. eauto.
    + apply latest_shift_date_max in H. by rewrite H.
Qed.

Lemma latest_shift_date_unique (df_y : list ShiftRecord) (v d d' : Z) :
  latest_shift_date df_y v d → latest_shift_date df_y v d' → d = d'.
Proof.
  intros [(r & Hr & Hv & <-) Hle] [(r' & Hr' & Hv' & <-) Hle'].
  apply Z.le_antisymm; auto.
Qed.

Lemma elem_of_inactive_flags (yr : Z) (df_y : list ShiftRecord) (v : Z) (b : bool) :
  (v, b) ∈ inactive_flags yr df_y ↔
  ∃ d, latest_shift_date df_y v d ∧
       b = (threshold_days <? Calendar.timedelta_days (year_end yr - d)).
Proof.
  unfold inactive_flags, inactivity_days. rewrite list_elem_of_fmap.
  setoid_rewrite list_elem_of_fmap. split.
  - intros (x & [= -> ->] & [v' d] & -> & H). exists d.
    by rewrite <- elem_of_last_shift.
  - intros (d & H & ->). eexists. split; [|exists (v, d); split; [done|]].
    + done.
    + by rewrite elem_of_last_shift.
Qed.

Lemma count_true_false (flags : list (Z * bool)) :
  count_false flags + count_true flags = Z.of_nat (length flags).
Proof.
  unfold count_true, count_false.
  induction flags as [|[v b] l IH]; simpl; [done|].
  destruct b; simpl; lia.
Qed.

Lemma length_inactive_flags (yr : Z) (df_y : list ShiftRecord) :
  length (inactive_flags yr df_y) = length (last_shift df_y).
Proof. unfold inactive_flags, inactivity_days. by rewrite !length_map. Qed.

Lemma length_omap_total {A B : Type} (f : A -> option B) (l : list A) :
  (∀ x, x ∈ l → is_Some (f x)) → length (omap f l) = length l.
Proof.
  induction l as [|x l IH]; intros H; [done|].
  cbn [omap list_omap]. destruct (H x) as [y ->]; [left|].
  simpl. f_equal. apply IH. intros z Hz. apply H. by right.
Qed.

Lemma length_last_shift (df_y : list ShiftRecord) :
  length (last_shift df_y) = length (volunteers df_y).
Proof.
  unfold last_shift. apply length_omap_total. intros v Hv.
  apply elem_of_volunteers in Hv as (r & Hr & Hv).
  destruct (rows_of_volunteer v df_y) as [|r' l] eqn:E.
  - assert (r ∈ rows_of_volunteer v df_y) as Hin by by apply elem_of_rows_of_volunteer.
    rewrite E in Hin. inversion Hin.
  - simpl. eauto.
Qed.

Lemma retention_of_year_Year (df_nt : list ShiftRecord) (yr : Z) (row : retention_row) :
  retention_of_year df_nt yr = Some row → r_Year row = yr.
Proof.
  unfold retention_of_year. destruct (rows_of_year yr df_nt); [done|]. by intros [= <-].
Qed.

Lemma qualifying_not_training (df : list ShiftRecord) (r : ShiftRecord) :
  r ∈ not_training df ↔ qualifying_record df r.
Proof.
  rewrite elem_of_not_training. unfold qualifying_record. done.
Qed.

Lemma latest_qualifying_shift_spec (df : list ShiftRecord) (yr v d : Z) :
  latest_shift_date (rows_of_year yr (not_training df)) v d
  ↔ latest_qualifying_shift df yr v d.
Proof.
  unfold latest_shift_date, latest_qualifying_shift.
  setoid_rewrite elem_of_rows_of_year. setoid_rewrite qualifying_not_training.
  split.
  - intros [(r & [Hq Hy] & Hv & Hd) Hle]. split; [by exists r|].
    intros r' Hq' Hy' Hv'. by apply Hle.
  - intros [(r & Hq & Hy & Hv & Hd) Hle]. split; [by exists r|].
    intros r' [Hq' Hy'] Hv'. by apply Hle.
Qed.

Lemma last_shift_keys (df_y : list ShiftRecord) :
  map fst (last_shift df_y) = volunteers df_y.
Proof.
  unfold last_shift.
  assert (∀ l : list Z, (∀ v, v ∈ l → v ∈ volunteers df_y) →
            map fst (omap (fun v => pair v <$> date_max
                                      (map DateVolunteered (rows_of_volunteer v df_y))) l)
            = l) as H.
  { induction l as [|v l IH]; intros Hl; [done|]. cbn [omap list_omap].
    assert (v ∈ volunteers df_y) as Hv by (apply Hl; left).
    apply elem_of_volunteers in Hv as (r & Hr & Hv).
    destruct (rows_of_volunteer v df_y) as [|r' rs] eqn:E.
    { assert (r ∈ rows_of_volunteer v df_y) as Hin by by apply elem_of_rows_of_volunteer.
      rewrite E in Hin. inversion Hin. }
    cbn [map date_max fmap option_fmap option_map fst]. f_equal.
    apply IH. intros w Hw. apply Hl. by right. }
  by apply H.
Qed.

Lemma inactive_flags_keys (yr : Z) (df_y : list ShiftRecord) :
  map fst (inactive_flags yr df_y) = volunteers df_y.
Proof.
  unfold inactive_flags, inactivity_days. rewrite !map_map. cbn [fst].
  apply last_shift_keys.
Qed.

(** C1.  The table is computed from the qualifying records alone, the
    rows whose category is not "Training".  Every row of the table has
    active + inactive = total and is the row of a year that has a
    qualifying record.  Every year that has a qualifying record has a
    row, whose counts count the entries of a series [flags]: one entry
    for each volunteer with a qualifying record in that year, which says
    inactive exactly when the whole days of (31 December of the year,
    00:00) minus the volunteer's latest qualifying shift of that year
    exceed 180, and active exactly when they do not.  A Training row
    changes neither the years, nor the counts, nor a latest shift. *)
Theorem rolling_retention (df : list ShiftRecord) :
  (∀ row, row ∈ compute_retention_rolling_6mo df →
     r_ActiveVolunteers row + r_InactiveVolunteers row = r_TotalVolunteers row ∧
     ∃ r, qualifying_record df r ∧ Year r = r_Year row) ∧
  (∀ yr, (∃ r, qualifying_record df r ∧ Year r = yr) →
     ∃ row flags, row ∈ compute_retention_rolling_6mo df ∧ r_Year row = yr ∧
       r_TotalVolunteers row = Z.of_nat (length flags) ∧
       r_InactiveVolunteers row = count_true flags ∧
       r_ActiveVolunteers row = count_false flags ∧
       NoDup (map fst flags) ∧
       (∀ v inactive, (v, inactive) ∈ flags ↔
          ∃ d, latest_qualifying_shift df yr v d ∧
               inactive = (180 <? Calendar.timedelta_days (Calendar.Timestamp yr 12 31 - d))) ∧
       (∀ v d, latest_qualifying_shift df yr v d →
          ((v, true) ∈ flags
           ↔ 180 < Calendar.timedelta_days (Calendar.Timestamp yr 12 31 - d)) ∧
          ((v, false) ∈ flags
           ↔ ¬ 180 < Calendar.timedelta_days (Calendar.Timestamp yr 12 31 - d)))).
Proof.
  unfold compute_retention_rolling_6mo. split.
  - intros row. rewrite list_elem_of_omap. intros (yr & Hyr & Hrow).
    pose proof (retention_of_year_Year _ _ _ Hrow) as ->.
    unfold retention_of_year in Hrow.
    destruct (rows_of_year yr (not_training df)) as [|r0 rs] eqn:E; [done|].
    rewrite <- E in *. injection Hrow as <-. cbn [r_ActiveVolunteers r_InactiveVolunteers
      r_TotalVolunteers]. split.
    + by rewrite count_true_false, length_inactive_flags.
    + apply elem_of_unique_sorted, list_elem_of_fmap in Hyr as (r & -> & Hr).
      exists r. split; [|done]. by apply qualifying_not_training.
  - intros yr (r & Hq & Hy).
    assert (r ∈ rows_of_year yr (not_training df)) as Hin.
    { apply elem_of_rows_of_year. split; [|done]. by apply qualifying_not_training. }
    destruct (retention_of_year (not_training df) yr) as [row|] eqn:Hrow.
    2:{ unfold retention_of_year in Hrow.
        destruct (rows_of_year yr (not_training df)); [inversion Hin|done]. }
    exists row, (inactive_flags yr (rows_of_year yr (not_training df))). split.
    { apply list_elem_of_omap. exists yr. split; [|done].
      apply elem_of_unique_sorted, list_elem_of_fmap. exists r.
      split; [done|]. by apply qualifying_not_training. }
    split; [by eapply retention_of_year_Year|].
    unfold retention_of_year in Hrow.
    destruct (rows_of_year yr (not_training df)) as [|r0 rs] eqn:E; [done|].
    rewrite <- E in *. injection Hrow as <-.
    cbn [r_ActiveVolunteers r_InactiveVolunteers r_TotalVolunteers].
    split; [by rewrite length_inactive_flags|].
    split; [done|]. split; [done|].
    split; [rewrite inactive_flags_keys; apply NoDup_volunteers|].
    assert (∀ v inactive,
              (v, inactive) ∈ inactive_flags yr (rows_of_year yr (not_training df)) ↔
              ∃ d, latest_qualifying_shift df yr v d ∧
                   inactive = (180 <? Calendar.timedelta_days
                                        (Calendar.Timestamp yr 12 31 - d))) as Hflags.
    { intros v b. rewrite elem_of_inactive_flags.
      by setoid_rewrite latest_qualifying_shift_spec. }
    split; [exact Hflags|].
    intros v d Hd.
    assert (∀ d', latest_qualifying_shift df yr v d' → d' = d) as Huniq.
    { intros d' Hd'. apply latest_qualifying_shift_spec in Hd, Hd'.
      by eapply latest_shift_date_unique. }
    rewrite !Hflags. split; split.
    + intros (d' & Hd' & Hb). rewrite (Huniq d' Hd') in Hb.
      symmetry in Hb. by apply Z.ltb_lt in Hb.
    + intros Hlt. exists d. split; [done|]. symmetry. by apply Z.ltb_lt.
    + intros (d' & Hd' & Hb). rewrite (Huniq d' Hd') in Hb.
      symmetry in Hb. apply Z.ltb_ge in Hb. lia.
    + intros Hlt. exists d. split; [done|]. symmetry. apply Z.ltb_ge. lia.
Qed.

(** *** New and returning volunteers *)

Lemma foldl_min_spec (d : Z) (ds : list Z) :
  foldl Z.min d ds ∈ d :: ds ∧ ∀ x, x ∈ d :: ds → foldl Z.min d ds <= x.
Proof.
  revert d. induction ds as [|e ds IH]; intros d; simpl.
  - split; [left|]. intros x Hx. apply list_elem_of_singleton in Hx. lia.
  - destruct (IH (Z.min d e)) as [Hin Hlb]. split.
    + apply elem_of_cons in Hin as [Hin|Hin]; [|by do 2 right].
      rewrite Hin. destruct (Z.min_spec d e) as [[_ ->]|[_ ->]]; [left|right; left].
    + intros x Hx.
      assert (foldl Z.min (Z.min d e) ds <= Z.min d e) by (apply Hlb; left).
      apply elem_of_cons in Hx as [->|Hx]; [lia|].
      apply elem_of_cons in Hx as [->|Hx]; [lia|].
      apply Hlb. by right.
Qed.

Lemma year_min_spec (l : list Z) (m : Z) :
  year_min l = Some m ↔ m ∈ l ∧ ∀ x, x ∈ l → m <= x.
Proof.
  destruct l as [|d ds]; simpl.
  - split; [done|]. intros [H _]. inversion H.
  - destruct (foldl_min_spec d ds) as [Hin Hlb]. split.
    + by intros [= <-].
    + intros [Hm Hle]. f_equal. apply Z.le_antisymm; [by apply Hlb|by apply Hle].
Qed.

Lemma first_year_of_spec (df_nt : list ShiftRecord) (v y : Z) :
  first_year_of df_nt v = Some y ↔ is_first_year df_nt v y.
Proof.
  unfold first_year_of, is_first_year. rewrite year_min_spec.
  setoid_rewrite list_elem_of_fmap. setoid_rewrite elem_of_rows_of_volunteer.
  split.
  - intros [(r & -> & Hr & Hv) Hle]. split; [by exists r|].
    intros r' Hr' Hv'. apply Hle. by exists r'.
  - intros [(r & Hr & Hv & <-) Hle]. split; [by exists r|].
    intros x (r' & -> & Hr' & Hv'). by apply Hle.
Qed.

Lemma first_year_of_is_Some (df_nt : list ShiftRecord) (v : Z) :
  v ∈ volunteers df_nt → is_Some (first_year_of df_nt v).
Proof.
  intros Hv. apply elem_of_volunteers in Hv as (r & Hr & Hv).
  unfold first_year_of.
  destruct (rows_of_volunteer v df_nt) as [|r' l] eqn:E.
  - assert (r ∈ rows_of_volunteer v df_nt) as Hin by by apply elem_of_rows_of_volunteer.
    rewrite E in Hin. inversion Hin.
  - simpl. eauto.
Qed.

(** An entry of [value_counts] is the number of occurrences; a value
    that does not occur has no entry. *)
Lemma value_counts_lookup (l : list Z) (y : Z) :
  value_counts l !! y
  = if decide (y ∈ l) then Some (Z.of_nat (length (List.filter (fun x => x =? y) l)))
    else None.
Proof.
  induction l as [|x l IH]; [done|].
  cbn [value_counts foldr List.filter]. fold (value_counts l).
  rewrite lookup_insert. destruct (decide (x = y)) as [->|Hne].
  - rewrite Z.eqb_refl, IH.
    destruct (decide (y ∈ y :: l)) as [_|Hn]; [|by destruct Hn; left].
    cbn [length].
    destruct (decide (y ∈ l)) as [Hin|Hnin]; simpl; f_equal; [lia|].
    assert (List.filter (fun x => x =? y) l = []) as ->; [|done].
    apply filter_nil_iff. intros z Hz. apply Z.eqb_neq. by intros ->.
  - rewrite IH. apply Z.eqb_neq in Hne as Hne'. rewrite Hne'.
    destruct (decide (y ∈ l)) as [Hin|Hnin].
    + destruct (decide (y ∈ x :: l)) as [_|Hn]; [done|]. destruct Hn. by right.
    + destruct (decide (y ∈ x :: l)) as [Hin|_]; [|done].
      apply elem_of_cons in Hin as [->|?]; done.
Qed.

Lemma value_counts_default (l : list Z) (y : Z) :
  default 0 (value_counts l !! y) = Z.of_nat (length (List.filter (fun x => x =? y) l)).
Proof.
  rewrite value_counts_lookup. destruct (decide (y ∈ l)) as [|Hnin]; [done|].
  simpl. assert (List.filter (fun x => x =? y) l = []) as ->; [|done].
  apply filter_nil_iff. intros z Hz. apply Z.eqb_neq. by intros ->.
Qed.

(** The occurrences of [y] in the series [first_year] are the
    volunteers whose first year is [y]. *)
Lemma count_first_year (df_nt : list ShiftRecord) (vs : list Z) (y : Z) :
  length (List.filter (fun x => x =? y)
            (map snd (omap (fun v => pair v <$> first_year_of df_nt v) vs)))
  = length (List.filter (fun v => bool_decide (first_year_of df_nt v = Some y)) vs).
Proof.
  induction vs as [|v vs IH]; [done|].
  cbn [omap list_omap List.filter]. destruct (first_year_of df_nt v) as [y'|] eqn:E.
  - cbn [fmap option_fmap option_map map snd List.filter].
    destruct (Z.eqb_spec y' y) as [->|Hne].
    + rewrite bool_decide_eq_true_2 by done. simpl. by rewrite IH.
    + rewrite bool_decide_eq_false_2 by congruence. done.
  - cbn [fmap option_fmap option_map]. rewrite bool_decide_eq_false_2 by done. done.
Qed.

Lemma new_by_year_default (df_nt : list ShiftRecord) (y : Z) :
  default 0 (new_by_year df_nt !! y)
  = Z.of_nat (length (List.filter (fun v => bool_decide (first_year_of df_nt v = Some y))
                                  (volunteers df_nt))).
Proof.
  unfold new_by_year. rewrite value_counts_default. f_equal.
  apply count_first_year.
Qed.

(** The new volunteers of a year are among its active volunteers. *)
Lemma new_le_active (df_nt : list ShiftRecord) (y : Z) :
  (length (List.filter (fun v => bool_decide (first_year_of df_nt v = Some y))
                       (volunteers df_nt))
   <= nunique (map VolunteerID (rows_of_year y df_nt)))%nat.
Proof.
  rewrite <- length_volunteers. apply submseteq_length, NoDup_submseteq.
  - apply NoDup_filter_bool, NoDup_volunteers.
  - intros v. rewrite filter_elem_of, bool_decide_eq_true, first_year_of_spec.
    intros [_ [(r & Hr & Hv & Hy) _]].
    apply elem_of_volunteers. exists r. by rewrite elem_of_rows_of_year.
Qed.

Lemma zip_with_map_same {A B C D : Type} (f : B -> C -> D) (g : A -> B) (h : A -> C)
    (l : list A) :
  zip_with f (map g l) (map h l) = map (fun x => f (g x) (h x)) l.
Proof. induction l as [|x l IH]; simpl; by f_equal. Qed.

(** The table of [compute_trends], one row per year of the index. *)
Lemma growth_explainer_rows (df : list ShiftRecord) :
  growth_explainer df
  = map (fun y =>
           let a := Z.of_nat (nunique (map VolunteerID (rows_of_year y (not_training df)))) in
           let n := default 0 (new_by_year (not_training df) !! y) in
           {| g_Year := y;
              g_ActiveVolunteers := a;
              g_NewVolunteers := n;
              g_ReturningVolunteers := a - n;
              g_PctNew := fscale (zdiv n a) (Qc_of_Z 100);
              g_PctReturning := fscale (zdiv (a - n) a) (Qc_of_Z 100) |})
        (unique_sorted (map Year (not_training df))).
Proof.
  unfold growth_explainer, active_by_year, reindex, new_by_year.
  set (years := unique_sorted (map Year (not_training df))).
  rewrite (map_map _ fst). cbn [fst]. rewrite map_id.
  rewrite !zip_with_map_same. cbn [fst snd].
  reflexivity.
Qed.

Lemma first_active_year_spec (df : list ShiftRecord) (v y : Z) :
  first_year_of (not_training df) v = Some y ↔ first_active_year df v y.
Proof.
  rewrite first_year_of_spec. unfold is_first_year, first_active_year.
  by setoid_rewrite qualifying_not_training.
Qed.

(** C3.  The table is computed from the qualifying records alone, the
    rows whose category is not "Training": it has one row for each year
    with a qualifying record, in ascending order; in every row the
    active count is the number of volunteers with a qualifying record
    in that year, the new count is the number of volunteers whose first
    year with a qualifying record is that year (0, not a null, when the
    series of new volunteers has no entry for the year),
    returning = active - new as integers, new + returning = active, and
    returning is not negative; and the first active year of every
    volunteer with a qualifying record is the year of exactly one
    row. *)
Theorem growth_decomposition (df : list ShiftRecord) :
  map g_Year (growth_explainer df) = unique_sorted (map Year (not_training df)) ∧
  NoDup (map g_Year (growth_explainer df)) ∧
  (∀ y, y ∈ map g_Year (growth_explainer df) ↔ ∃ r, qualifying_record df r ∧ Year r = y) ∧
  (∀ row, row ∈ growth_explainer df →
     ∃ active new : list Z,
       NoDup active ∧
       (∀ v, v ∈ active ↔ ∃ r, qualifying_record df r ∧ Year r = g_Year row ∧
                                VolunteerID r = Some v) ∧
       g_ActiveVolunteers row = Z.of_nat (length active) ∧
       NoDup new ∧
       (∀ v, v ∈ new ↔ first_active_year df v (g_Year row)) ∧
       g_NewVolunteers row = Z.of_nat (length new) ∧
       (new_by_year (not_training df) !! g_Year row = None → g_NewVolunteers row = 0) ∧
       g_ReturningVolunteers row = g_ActiveVolunteers row - g_NewVolunteers row ∧
       g_NewVolunteers row + g_ReturningVolunteers row = g_ActiveVolunteers row ∧
       0 <= g_ReturningVolunteers row) ∧
  (∀ v, (∃ r, qualifying_record df r ∧ VolunteerID r = Some v) →
     ∃ row, row ∈ growth_explainer df ∧
            first_active_year df v (g_Year row) ∧
            ∀ row', row' ∈ growth_explainer df →
                    first_active_year df v (g_Year row') → row' = row).
Proof.
  rewrite growth_explainer_rows.
  set (df_nt := not_training df).
  assert (map g_Year
            (map (fun y =>
               let a := Z.of_nat (nunique (map VolunteerID (rows_of_year y df_nt))) in
               let n := default 0 (new_by_year df_nt !! y) in
               {| g_Year := y; g_ActiveVolunteers := a; g_NewVolunteers := n;
                  g_ReturningVolunteers := a - n;
                  g_PctNew := fscale (zdiv n a) (Qc_of_Z 100);
                  g_PctReturning := fscale (zdiv (a - n) a) (Qc_of_Z 100) |})
               (unique_sorted (map Year df_nt)))
          = unique_sorted (map Year df_nt)) as Hyears.
  { rewrite map_map. cbn [g_Year]. apply map_id. }
  split; [exact Hyears|]. split; [rewrite Hyears; apply NoDup_unique_sorted|].
  split; [|split].
  - intros y. rewrite Hyears, elem_of_unique_sorted, list_elem_of_fmap. split.
    + intros (r & -> & Hr). exists r. split; [|done]. by apply qualifying_not_training.
    + intros (r & Hq & <-). exists r. split; [done|]. by apply qualifying_not_training.
  - intros row. rewrite list_elem_of_fmap. intros (y & -> & _).
    cbn [g_Year g_ActiveVolunteers g_NewVolunteers g_ReturningVolunteers].
    pose proof (new_le_active df_nt y) as Hle.
    rewrite new_by_year_default.
    exists (volunteers (rows_of_year y df_nt)),
           (List.filter (fun v => bool_decide (first_year_of df_nt v = Some y))
                        (volunteers df_nt)).
    split; [apply NoDup_volunteers|]. split.
    { intros v. rewrite elem_of_volunteers. setoid_rewrite elem_of_rows_of_year.
      unfold df_nt. setoid_rewrite qualifying_not_training. split.
      - intros (r & [Hq Hy] & Hv). by exists r.
      - intros (r & Hq & Hy & Hv). by exists r. }
    split; [by rewrite length_volunteers|].
    split; [apply NoDup_filter_bool, NoDup_volunteers|]. split.
    { intros v. rewrite filter_elem_of, bool_decide_eq_true. unfold df_nt.
      rewrite first_active_year_spec. split; [by intros [_ H]|].
      intros H. split; [|done]. apply elem_of_volunteers.
      destruct H as [(r & Hq & Hv & _) _]. exists r. split; [|done].
      by apply qualifying_not_training. }
    split; [done|]. split.
    { intros Hnone. rewrite <- new_by_year_default. by rewrite Hnone. }
    split; [done|]. split; lia.
  - intros v (r0 & Hq0 & Hv0).
    assert (v ∈ volunteers df_nt) as Hv.
    { apply elem_of_volunteers. exists r0. split; [|done]. by apply qualifying_not_training. }
    destruct (first_year_of_is_Some df_nt v Hv) as [y Hy].
    apply first_active_year_spec in Hy as Hfy.
    eexists. split; [|split].
    + apply list_elem_of_fmap. exists y. split; [reflexivity|].
      apply elem_of_unique_sorted, list_elem_of_fmap.
      destruct Hfy as [(r & Hr & _ & <-) _]. exists r. split; [done|].
      by apply qualifying_not_training.
    + done.
    + intros row'. rewrite list_elem_of_fmap. intros (y' & -> & _). cbn [g_Year].
      intros Hfy'. apply first_active_year_spec in Hfy'. fold df_nt in Hfy'.
      assert (y' = y) as -> by congruence. done.
Qed.

(** *** Profiles *)

Lemma getitem_has_column (df : columns_t) (c : string) :
  has_column df c = false → getitem df c = KeyError c.
Proof.
  induction df as [|[n col] df IH]; simpl; [done|].
  destruct (String.eqb n c); simpl; [done|exact IH].
Qed.


Lemma columns_named_nil (df : columns_t) (c : string) :
  columns_named df c = [] ↔ has_column df c = false.
Proof.
  unfold columns_named, has_column. split.
  - intros E. pose proof (proj1 (filter_nil_iff _ _) E) as H.
    apply not_true_iff_false. rewrite existsb_exists.
    intros (nc & Hin & Hc). apply list_elem_of_In in Hin. rewrite (H nc Hin) in Hc. done.
  - intros H. apply filter_nil_iff. intros nc Hin. apply not_true_iff_false. intros Hc.
    apply not_true_iff_false in H. apply H. apply existsb_exists. exists nc.
    by rewrite <- list_elem_of_In.
Qed.


(** Selecting names that the table has never fails, and returns, for
    each name in turn, the columns of that name. *)
Lemma getitem_list_present (df : columns_t) (cs : list string) :
  (∀ c, c ∈ cs → has_column df c = true) →
  getitem_list df cs = Ok (flat_map (columns_named df) cs).
Proof.
  induction cs as [|c cs IH]; intros H; [done|]. cbn [getitem_list flat_map].
  destruct (columns_named df c) as [|nc l] eqn:E.
  { apply columns_named_nil in E. rewrite H in E; [done|left]. }
  rewrite IH by (intros c' Hc'; apply H; by right). done.
Qed.

Lemma has_column_fst (df : columns_t) (c : string) :
  has_column df c = true ↔ c ∈ map fst df.
Proof.
  unfold has_column. rewrite existsb_exists, list_elem_of_fmap. split.
  - intros (nc & Hin & Heq). apply String.eqb_eq in Heq.
    exists nc. by rewrite list_elem_of_In.
  - intros (nc & -> & Hin). exists nc. rewrite <- list_elem_of_In.
    by rewrite String.eqb_refl.
Qed.

Lemma has_column_flat_map (df : columns_t) (cs : list string) (c : string) :
  has_column (flat_map (columns_named df) cs) c = true ↔ c ∈ cs ∧ has_column df c = true.
Proof.
  rewrite !has_column_fst, !list_elem_of_fmap. split.
  - intros (nc & -> & Hin). apply list_elem_of_In, in_flat_map in Hin as (c' & Hc' & Hin).
    apply list_elem_of_In, filter_elem_of in Hin as [Hin Heq]. apply String.eqb_eq in Heq.
    subst c'. split; [by apply list_elem_of_In|]. by exists nc.
  - intros [Hc (nc & -> & Hin)]. exists nc. split; [done|].
    apply list_elem_of_In, in_flat_map. exists (fst nc). split; [by apply list_elem_of_In|].
    apply list_elem_of_In, filter_elem_of. split; [done|]. apply String.eqb_refl.
Qed.

(** The projection of [merge_volunteer_data] tolerates any missing
    column, but the next line reads [City] unconditionally. *)
Lemma normalize_profiles_needs_City (df_vol : profiles) :
  has_column (rename PROFILE_RENAMES (pf_columns df_vol)) "City" = false →
  normalize_profiles df_vol = KeyError "City".
Proof.
  intros Hno. unfold normalize_profiles.
  set (cols := rename PROFILE_RENAMES (pf_columns df_vol)) in *.
  rewrite getitem_list_present
    by (intros c Hc; by apply filter_elem_of in Hc as [_ Hc]).
  cbn [mbind result_bind].
  rewrite getitem_has_column; [done|].
  apply not_true_iff_false. rewrite has_column_flat_map. intros [_ H]. congruence.
Qed.

(** C4, evaluated: a profile table with the id column and every
    recognised column except [City] is not normalised; the merge stops
    with the key error of [df_vol["City"]], whatever the shift table. *)
Theorem merge_without_city_fails (df_hours : list ShiftRecord) :
  merge_volunteer_data df_hours profiles_without_city = KeyError "City".
Proof.
  unfold merge_volunteer_data.
  rewrite normalize_profiles_needs_City; [done|].
  vm_compute. reflexivity.
Qed.

(** *** Language *)

(** What [classify_language] returns on a text that is not blank:
    "Multilingual" exactly when the lower-cased text contains "english" and
    one of the separators, "English only" exactly when it contains
    "english" and no separator, "Other/Unknown" exactly when it does not
    contain "english". *)
Lemma classify_language_rule (text : string) :
  let t := PyStr.lower text in
  let has_english := PyStr.contains "english" t in
  let is_multi := existsb (fun sep => PyStr.contains sep t) language_separators in
  PyStr.strip text ≠ "" →
  (classify_language text = "Multilingual" ↔ has_english = true ∧ is_multi = true) ∧
  (classify_language text = "English only" ↔ has_english = true ∧ is_multi = false) ∧
  (classify_language text = "Other/Unknown" ↔ has_english = false).
Proof.
  intros t has_english is_multi Hne. unfold classify_language.
  destruct (String.eqb_spec (PyStr.strip text) ""); [done|].
  fold t. fold has_english. fold is_multi.
  destruct has_english, is_multi; simpl; repeat split; intros; try done;
    try (destruct_and?; done).
Qed.

Lemma classify_language_empty (text : string) :
  PyStr.strip text = "" → classify_language text = "Other/Unknown".
Proof. intros H. unfold classify_language. by rewrite H. Qed.

(** C5, evaluated: the merged table carries the language text of the
    profile as it was read.  The city and the status of the same profile
    are normalised, but [classify_language] is applied nowhere on the
    way, although it classifies this text as "Multilingual". *)
Theorem merged_language_is_raw_text :
  ∃ rows, merge_volunteer_data sample_table sample_profiles = Ok rows ∧
    map (fun row => merged_cell row "Language") rows
    = [Some (Some "English, French"); Some (Some "English, French"); Some None] ∧
    map (fun row => merged_cell row "City") rows
    = [Some (Some "Mississauga"); Some (Some "Mississauga"); Some None] ∧
    classify_language "English, French" = "Multilingual".
Proof.
  eexists. split; [vm_compute; reflexivity|].
  split; [|split]; vm_compute; reflexivity.
Qed.

(** *** City names *)

(** The three final rules of [clean_city], on the value left by the
    stripping steps. *)
Lemma clean_city_rules (c : string) :
  clean_city (Some c)
  = Some (if PyStr.startswith "mis" (city_key c) then "Mississauga"
          else default (PyStr.title (city_key c)) (CITY_CANONICAL_MAP !! city_key c)).
Proof.
  unfold clean_city. destruct (PyStr.startswith "mis" (city_key c)); [done|].
  by destruct (CITY_CANONICAL_MAP !! city_key c).
Qed.

(** C9, evaluated: the two examples of the specification hold, but a
    city whose name contains a province suffix elsewhere than at its end
    loses every occurrence of it, because the suffix loop calls
    [replace]; stripping the trailing suffix only gives another name. *)
Theorem clean_city_replaces_every_occurrence :
  clean_city (Some "  Missisauga, ON") = Some "Mississauga" ∧
  clean_city (Some "MIS-Town") = Some "Mississauga" ∧
  clean_city (Some "Niagara on the Lake ON") = Some "Niagara The Lake" ∧
  clean_city_spec (Some "Niagara on the Lake ON") = Some "Niagara On The Lake".
Proof. repeat split; vm_compute; reflexivity. Qed.

(** *** Seasonal and monthly averages *)

Lemma month_avg_columns (df : list ShiftRecord) : p_columns (month_avg df) = MONTH_ORDER.
Proof. reflexivity. Qed.

(** C8, evaluated: a shift row without volunteer id survives the
    cleaning; its month and its season then have hours but no distinct
    volunteer, and the cells are infinite: [fillna(0)] replaces NaN
    only. *)
Theorem average_of_rows_without_id_is_infinite :
  let df := load_and_clean_hours to_datetime_sample null_id_log in
  length df = 1%nat ∧
  nunique (map VolunteerID (rows_of_cell (fun r => Some (Month r)) 2023 "January" df))
  = 0%nat ∧
  pivot_cell (month_avg df) 2023 "January" = Some PosInf ∧
  nunique (map VolunteerID (rows_of_cell Season 2023 "Winter" df)) = 0%nat ∧
  pivot_cell (season_avg df) 2023 "Winter" = Some PosInf.
Proof. repeat split; vm_compute; reflexivity. Qed.


(** *** Cells of the pivot tables *)









Lemma fdiv_nonzero (a b : Qc) : b ≠ 0%Qc → fdiv a b = Fin (a / b)%Qc.
Proof.
  intros Hb. unfold fdiv, Qc_eqb.
  destruct (Qeq_bool b 0%Qc) eqn:E; [|done].
  apply Qeq_bool_iff, Qc_is_canon in E. done.
Qed.


Lemma Qc_of_Z_nonzero (z : Z) : z ≠ 0 → Qc_of_Z z ≠ 0%Qc.
Proof. intros Hz H. apply (f_equal this) in H. by injection H. Qed.






(** *** The calendar *)

(** The month of a day number is a month. *)
Lemma month_range (z : Z) : 1 <= snd (fst (Calendar.civil_from_days z)) <= 12.
Proof.
  unfold Calendar.civil_from_days. cbv zeta.
  set (z' := z + 719468).
  set (era := z' / 146097).
  set (doe := z' - era * 146097).
  assert (0 <= doe <= 146096) as Hdoe.
  { unfold doe, era. pose proof (Z.div_mod z' 146097 ltac:(lia)).
    pose proof (Z.mod_pos_bound z' 146097 ltac:(lia)). lia. }
  clearbody doe.
  set (yoe := (doe - doe / 1460 + doe / 36524 - doe / 146096) / 365).
  set (doy := doe - (365 * yoe + yoe / 4 - yoe / 100)).
  assert (0 <= doy <= 365) as Hdoy.
  { unfold doy, yoe. Z.div_mod_to_equations; lia. }
  clearbody doy.
  set (mp := (5 * doy + 2) / 153).
  assert (0 <= mp <= 11) by (unfold mp; Z.div_mod_to_equations; lia).
  cbn [fst snd]. destruct (mp <? 10) eqn:E; [apply Z.ltb_lt in E|apply Z.ltb_ge in E]; lia.
Qed.

(** The day number of the date of a day number is that day number. *)
Lemma civil_roundtrip (z : Z) :
  Calendar.days_from_civil (fst (fst (Calendar.civil_from_days z)))
                           (snd (fst (Calendar.civil_from_days z)))
                           (snd (Calendar.civil_from_days z)) = z.
Proof.
  unfold Calendar.civil_from_days. cbv zeta.
  set (z' := z + 719468).
  set (era := z' / 146097).
  set (doe := z' - era * 146097).
  assert (0 <= doe <= 146096) as Hdoe.
  { unfold doe, era. pose proof (Z.div_mod z' 146097 ltac:(lia)).
    pose proof (Z.mod_pos_bound z' 146097 ltac:(lia)). lia. }
  assert (z = era * 146097 + doe - 719468) as Hz by (unfold doe, z'; lia).
  clearbody doe. clearbody era. clear z'. subst z.
  set (yoe := (doe - doe / 1460 + doe / 36524 - doe / 146096) / 365).
  assert (0 <= yoe <= 399) as Hyoe by (unfold yoe; Z.div_mod_to_equations; lia).
  set (doy := doe - (365 * yoe + yoe / 4 - yoe / 100)).
  assert (0 <= doy <= 365) as Hdoy.
  { unfold doy, yoe. Z.div_mod_to_equations; lia. }
  assert (doe = yoe * 365 + yoe / 4 - yoe / 100 + doy) as Hdoe' by (unfold doy; lia).
  clearbody doy. clearbody yoe. subst doe.
  set (mp := (5 * doy + 2) / 153).
  assert (0 <= mp <= 11) as Hmp by (unfold mp; Z.div_mod_to_equations; lia).
  set (d := doy - (153 * mp + 2) / 5 + 1).
  assert (doy = (153 * mp + 2) / 5 + d - 1) as Hd by (unfold d; lia).
  clearbody d. clearbody mp.
  cbn [fst snd]. unfold Calendar.days_from_civil.
  destruct (mp <? 10) eqn:E; [apply Z.ltb_lt in E|apply Z.ltb_ge in E].
  - replace (mp + 3 <=? 2) with false by (symmetry; apply Z.leb_gt; lia).
    replace (2 <? mp + 3) with true by (symmetry; apply Z.ltb_lt; lia).
    replace (mp + 3 - 3) with mp by lia.
    replace ((yoe + era * 400) / 400) with era by (Z.div_mod_to_equations; lia).
    replace (yoe + era * 400 - era * 400) with yoe by lia. lia.
  - replace (mp - 9 <=? 2) with true by (symmetry; apply Z.leb_le; lia).
    replace (2 <? mp - 9) with false by (symmetry; apply Z.ltb_ge; lia).
    replace (mp - 9 + 9) with mp by lia.
    replace (yoe + era * 400 + 1 - 1) with (yoe + era * 400) by lia.
    replace ((yoe + era * 400) / 400) with era by (Z.div_mod_to_equations; lia).
    replace (yoe + era * 400 - era * 400) with yoe by lia. lia.
Qed.

Lemma quarter_range (ts : Z) : 1 <= Calendar.quarter ts <= 4.
Proof.
  unfold Calendar.quarter, Calendar.month.
  pose proof (month_range (Calendar.day_number ts)).
  Z.div_mod_to_equations; lia.
Qed.

Section SeasonFacts.
Variable to_datetime : string -> option Z.

Lemma elem_of_load_and_clean_hours (df : list raw_shift) (r : ShiftRecord) :
  r ∈ load_and_clean_hours to_datetime df ↔ ∃ raw, raw ∈ df ∧ clean_row to_datetime raw = Some r.
Proof.
  induction df as [|raw df IH].
  - split; [intros H; inversion H|]. intros (raw & H & _). inversion H.
  - rewrite load_and_clean_hours_cons, elem_of_app, IH. split.
    + intros [H|(raw' & Hin & Hc)].
      * exists raw. split; [left|].
        destruct (clean_row to_datetime raw) as [r'|]; simpl in H; [|inversion H].
        apply list_elem_of_singleton in H. by subst.
      * exists raw'. split; [by right|done].
    + intros (raw' & Hin & Hc). apply elem_of_cons in Hin as [->|Hin].
      * left. rewrite Hc. simpl. left.
      * right. eauto.
Qed.

(** X5.  The season of a cleaned row is the entry of [SEASONS] for the
    quarter of its date, and the quarter is one of 1, 2, 3, 4: the season
    is never null, and is Winter, Spring, Summer or Autumn in that order
    of quarters. *)
Theorem season_of_quarter (df : list raw_shift) (r : ShiftRecord) :
  r ∈ load_and_clean_hours to_datetime df →
  1 <= Calendar.quarter (DateVolunteered r) <= 4 ∧
  Season r = SEASONS !! Calendar.quarter (DateVolunteered r) ∧
  Season r = Some (nth (Z.to_nat (Calendar.quarter (DateVolunteered r) - 1))
                       ["Winter"; "Spring"; "Summer"; "Autumn"] "").
Proof.
  rewrite elem_of_load_and_clean_hours. intros (raw & _ & Hc).
  unfold clean_row in Hc. destruct (parse_date to_datetime raw) as [ts|]; [|done].
  destruct (_ && _); [|done]. injection Hc as <-.
  cbn [DateVolunteered Season derive].
  pose proof (quarter_range ts) as Hq. split; [done|]. split; [done|].
  assert (Calendar.quarter ts = 1 ∨ Calendar.quarter ts = 2 ∨
          Calendar.quarter ts = 3 ∨ Calendar.quarter ts = 4) as [->|[->|[->| ->]]] by lia;
    reflexivity.
Qed.

End SeasonFacts.

(** *** More on the metrics and the helpers *)

(** X1.  [math.ceil(0.20 * n)], computed on doubles, is the ceiling of [n/5]
    for every count below 2^52. *)
Theorem ceil_020_is_ceiling (n : Z) : 0 < n < 2 ^ 52 → ceil_020 n = (n + 4) / 5.
Proof.
  intros Hn. pose proof (ceil_020_spec n Hn). Z.div_mod_to_equations; lia.
Qed.

Global Instance Qc_ge_antisymm : AntiSymm (=) (flip Qcle).
Proof. intros x y H1 H2. by apply Qcle_antisym. Qed.

Lemma ranked_totals_unique (l1 l2 : list (Z * Qc)) :
  l1 ≡ₚ l2 → StronglySorted hours_desc l1 → StronglySorted hours_desc l2 →
  map snd l1 = map snd l2.
Proof.
  intros Hp H1 H2.
  assert (∀ a b : Z * Qc, hours_desc a b → flip Qcle (snd a) (snd b)) as Hrel.
  { intros a b Hab. by apply Qc_leb_le. }
  apply (StronglySorted_unique (flip Qcle)).
  - exact (StronglySorted_fmap snd hours_desc (flip Qcle) l1 Hrel H1).
  - exact (StronglySorted_fmap snd hours_desc (flip Qcle) l2 Hrel H2).
  - change (map snd l1) with (snd <$> l1). change (map snd l2) with (snd <$> l2).
    by rewrite Hp.
Qed.

(** X2.  The order that [sort_values] gives to volunteers with equal
    totals does not matter: every descending ranking of the per-volunteer totals
    of a year has the same totals at the same ranks, hence the same
    hours in the top segment and in the remainder. *)
Theorem ranking_independent_of_ties (df : list ShiftRecord) (yr : Z)
    (ranking : list (Z * Qc)) :
  ranking ≡ₚ hours_by_volunteer (rows_of_year yr df) →
  StronglySorted hours_desc ranking →
  map snd ranking = map snd (totals_of_year df yr) ∧
  map snd (top20_segment ranking) = map snd (top20_segment (totals_of_year df yr)) ∧
  map snd (other80_segment ranking) = map snd (other80_segment (totals_of_year df yr)).
Proof.
  intros Hp Hs.
  assert (map snd ranking = map snd (totals_of_year df yr)) as E.
  { apply ranked_totals_unique; [|done|apply sort_values_desc_sorted].
    unfold totals_of_year. by rewrite sort_values_desc_Permutation. }
  assert (length ranking = length (totals_of_year df yr)) as El.
  { by rewrite <- (length_map snd ranking), E, length_map. }
  split; [done|]. unfold top20_segment, other80_segment. rewrite El.
  change (map snd) with (fmap (M:=list) (@snd Z Qc)).
  rewrite !fmap_take, !fmap_drop.
  change (fmap (M:=list) (@snd Z Qc)) with (map (@snd Z Qc)). by rewrite E.
Qed.

(** X6.  The status of a profile is one of the seven values. *)
Theorem clean_volunteer_status_values (status : option string) :
  clean_volunteer_status status
    ∈ ["Applicant"; "In Process"; "Accepted"; "Inactive"; "Archived"; "Other"; "Unknown"].
Proof.
  destruct status as [st|]; simpl; [|set_solver].
  repeat (match goal with |- context [if ?b then _ else _] => destruct b end);
    set_solver.
Qed.

Lemma day_range (z : Z) : 1 <= snd (Calendar.civil_from_days z) <= 31.
Proof.
  unfold Calendar.civil_from_days. cbv zeta.
  set (z' := z + 719468).
  set (era := z' / 146097).
  set (doe := z' - era * 146097).
  assert (0 <= doe <= 146096) as Hdoe.
  { unfold doe, era. pose proof (Z.div_mod z' 146097 ltac:(lia)).
    pose proof (Z.mod_pos_bound z' 146097 ltac:(lia)). lia. }
  clearbody doe.
  set (yoe := (doe - doe / 1460 + doe / 36524 - doe / 146096) / 365).
  set (doy := doe - (365 * yoe + yoe / 4 - yoe / 100)).
  assert (0 <= doy <= 365) as Hdoy.
  { unfold doy, yoe. Z.div_mod_to_equations; lia. }
  clearbody doy.
  cbn [fst snd]. Z.div_mod_to_equations; lia.
Qed.

Lemma days_from_civil_within_year (y m d : Z) :
  1 <= m <= 12 → 1 <= d <= 31 →
  Calendar.days_from_civil y 1 1 <= Calendar.days_from_civil y m d
  <= Calendar.days_from_civil y 12 31.
Proof.
  intros Hm Hd. unfold Calendar.days_from_civil.
  assert (m = 1 ∨ m = 2 ∨ m = 3 ∨ m = 4 ∨ m = 5 ∨ m = 6 ∨ m = 7 ∨ m = 8 ∨ m = 9 ∨
          m = 10 ∨ m = 11 ∨ m = 12) as Hcases by lia.
  destruct Hcases as [->|[->|[->|[->|[->|[->|[->|[->|[->|[->|[->| ->]]]]]]]]]]];
    cbn [Z.leb Z.ltb Z.compare Pos.compare Pos.compare_cont];
    cbv zeta; Z.div_mod_to_equations; lia.
Qed.

Lemma year_length (y : Z) :
  Calendar.days_from_civil y 12 31 - Calendar.days_from_civil y 1 1 <= 365.
Proof.
  unfold Calendar.days_from_civil.
  cbn [Z.leb Z.ltb Z.compare Pos.compare Pos.compare_cont]. cbv zeta.
  Z.div_mod_to_equations; lia.
Qed.

(** X9.  The whole days from a timestamp to 31 December of its own year lie
    between -1 (a shift on 31 December, after midnight) and 365. *)
Theorem inactivity_days_range (ts : Z) :
  -1 <= Calendar.timedelta_days (year_end (Calendar.year ts) - ts) <= 365.
Proof.
  unfold year_end, Calendar.Timestamp, Calendar.timedelta_days, Calendar.year.
  pose proof (civil_roundtrip (Calendar.day_number ts)) as Hrt.
  pose proof (month_range (Calendar.day_number ts)) as Hm.
  pose proof (day_range (Calendar.day_number ts)) as Hd.
  destruct (Calendar.civil_from_days (Calendar.day_number ts)) as [[y m] d].
  cbn [fst snd] in *.
  pose proof (days_from_civil_within_year y m d Hm Hd) as Hw.
  pose proof (year_length y) as Hy.
  rewrite Hrt in Hw. unfold Calendar.day_number, Calendar.SECONDS_PER_DAY in *.
  Z.div_mod_to_equations; lia.
Qed.

(** *** Profiles with the three columns that are read *)








(** *** The theorems at the sample tables *)

Lemma sample_log_cleaned :
  map (fun r => (VolunteerID r, Category r)) (load_and_clean_hours to_datetime_sample sample_log)
  = [(Some 1, Some "Food Sort"); (Some 6, Some FIXED_CATEGORY)].
Proof. vm_compute. reflexivity. Qed.

Lemma cleaning_invariant_witness :
  derive (sample_raw (Some 1) 4) 1673341200
    ∈ load_and_clean_hours to_datetime_sample sample_log ∧
  Year (derive (sample_raw (Some 1) 4) 1673341200) ≠ 2016.
Proof.
  assert (derive (sample_raw (Some 1) 4) 1673341200
            ∈ load_and_clean_hours to_datetime_sample sample_log) as Hin.
  { vm_compute. apply list_elem_of_here. }
  split; [exact Hin|].
  exact (proj1 (proj2 (proj2 (cleaning_invariant to_datetime_sample _ _ Hin)))).
Defined.

Lemma cleaning_steps_commute_witness :
  finalize (run_steps [DropExcludedSubcategory; DropHoursOver16; DropYear2016;
                       RenameCategory; DropNullDates]
                      (with_dates to_datetime_sample sample_log))
  = load_and_clean_hours to_datetime_sample sample_log.
Proof.
  apply cleaning_steps_commute. symmetry. apply (Permutation_rev implemented_order).
Defined.

Lemma top20_concentration_witness :
  ∃ row, row ∈ compute_top20_engagement sample_table ∧
         t_TotalVolunteers row = 2 ∧
         t_Top20Volunteers row = 1 ∧
         this (t_Top20Hours row) = (10 # 1)%Q ∧
         this (t_TotalHours row) = (13 # 1)%Q ∧
         (t_Top20Hours row + qsum (map snd (other80_segment
                                              (totals_of_year sample_table (t_Year row)))))%Qc
         = t_TotalHours row ∧
         ∀ v h, (v, h) ∈ totals_of_year sample_table (t_Year row) ↔
           (∃ r, r ∈ sample_table ∧ Year r = t_Year row ∧ VolunteerID r = Some v) ∧
           h = hsum (map Hours (List.filter
                                  (fun r => (Year r =? t_Year row)
                                            && bool_decide (VolunteerID r = Some v))
                                  sample_table)).
Proof.
  assert (∃ row, row ∈ compute_top20_engagement sample_table ∧
                 t_TotalVolunteers row = 2 ∧ t_Top20Volunteers row = 1 ∧
                 this (t_Top20Hours row) = (10 # 1)%Q ∧
                 this (t_TotalHours row) = (13 # 1)%Q)
    as (row & Hin & H1 & H2 & H3 & H4).
  { eexists. split; [vm_compute; apply list_elem_of_here|]. repeat split; reflexivity. }
  destruct (top20_concentration sample_table row Hin)
    as (_ & _ & _ & _ & _ & _ & _ & _ & _ & Hsum & _ & _ & _ & _ & Htotals & _).
  exists row. do 5 (split; [assumption|]). split; [exact Hsum|exact Htotals].
Defined.

Lemma rolling_retention_witness :
  map r_Year (compute_retention_rolling_6mo sample_training_table) = [2023] ∧
  ∃ row flags, row ∈ compute_retention_rolling_6mo sample_training_table ∧
    r_Year row = 2023 ∧
    r_TotalVolunteers row = Z.of_nat (length flags) ∧
    r_InactiveVolunteers row = count_true flags ∧
    r_ActiveVolunteers row = count_false flags ∧
    (1, true) ∈ flags ∧ (2, false) ∈ flags ∧
    ∀ b, (3, b) ∉ flags.
Proof.
  split; [vm_compute; reflexivity|].
  destruct (proj2 (rolling_retention sample_training_table) 2023)
    as (row & flags & Hin & Hy & Ht & Hi & Ha & _ & Hflags & _).
  { exists (sample_shift_of "Food Sort" (Some 1) (Calendar.Timestamp 2023 1 10) 4).
    split; [split; [right; left|discriminate]|reflexivity]. }
  exists row, flags. do 5 (split; [assumption|]).
  assert (∀ P : ShiftRecord → Prop,
            P (sample_shift_of "Food Sort" (Some 1) (Calendar.Timestamp 2023 1 10) 4) →
            P (sample_shift_of "Food Sort" (Some 2) (Calendar.Timestamp 2023 11 15) 3) →
            ∀ r, qualifying_record sample_training_table r → Year r = 2023 → P r) as Hcases.
  { intros P H1 H2 r [Hr Hc] Hyr. unfold sample_training_table in Hr.
    repeat (apply elem_of_cons in Hr as [->|Hr]); try done.
    inversion Hr. }
  split; [|split].
  - apply Hflags. exists (Calendar.Timestamp 2023 1 10). split; [|reflexivity]. split.
    + eexists. split; [split; [right; left|discriminate]|]. repeat split.
    + apply (Hcases (fun r => VolunteerID r = Some 1 →
                              DateVolunteered r <= Calendar.Timestamp 2023 1 10));
        [intros _; vm_compute; discriminate|discriminate].
  - apply Hflags. exists (Calendar.Timestamp 2023 11 15). split; [|reflexivity]. split.
    + eexists. split; [split; [do 3 right; left|discriminate]|]. repeat split.
    + apply (Hcases (fun r => VolunteerID r = Some 2 →
                              DateVolunteered r <= Calendar.Timestamp 2023 11 15));
        [discriminate|intros _; vm_compute; discriminate].
  - intros b Hb. apply Hflags in Hb as (d & [(r & Hq & Hyr & Hv & _) _] & _).
    revert Hv. by apply (Hcases (fun r => VolunteerID r = Some 3 → False)).
Defined.

Lemma growth_decomposition_witness :
  map (fun row => (g_Year row, g_ActiveVolunteers row, g_NewVolunteers row,
                   g_ReturningVolunteers row))
      (growth_explainer sample_training_table)
  = [(2023, 2, 2, 0)] ∧
  ∃ row, row ∈ growth_explainer sample_training_table ∧
         first_active_year sample_training_table 1 (g_Year row).
Proof.
  split; [vm_compute; reflexivity|].
  destruct (proj2 (proj2 (proj2 (proj2 (growth_decomposition sample_training_table)))) 1)
    as (row & Hin & Hfy & _).
  { exists (sample_shift_of "Food Sort" (Some 1) (Calendar.Timestamp 2023 1 10) 4).
    split; [split; [right; left|discriminate]|reflexivity]. }
  exists row. split; [exact Hin|exact Hfy].
Defined.

(** The whole days of C1, at the boundary: a latest shift on 3 July 2023
    is 181 days before 31 December when it is at midnight, and 180
    whole days before it when it is at 8 in the morning; the first
    volunteer is inactive, the second active. *)
Lemma retention_counts_whole_days :
  Calendar.timedelta_days (Calendar.Timestamp 2023 12 31 - Calendar.Timestamp 2023 7 3) = 181 ∧
  Calendar.timedelta_days
    (Calendar.Timestamp 2023 12 31 - (Calendar.Timestamp 2023 7 3 + 8 * 3600)) = 180 ∧
  map r_InactiveVolunteers
    (compute_retention_rolling_6mo [sample_shift (Some 1) (Calendar.Timestamp 2023 7 3) 4])
  = [1] ∧
  map r_InactiveVolunteers
    (compute_retention_rolling_6mo
       [sample_shift (Some 1) (Calendar.Timestamp 2023 7 3 + 8 * 3600) 4])
  = [0].
Proof. repeat split; vm_compute; reflexivity. Qed.

(** The example of the specification: two volunteers with 10 and 3
    hours in 2023. *)
Lemma top20_sample :
  map (fun r => (t_Year r, t_TotalVolunteers r, t_Top20Volunteers r,
                 this (t_TotalHours r), this (t_Top20Hours r)))
      (compute_top20_engagement sample_table)
  = [(2023, 2, 1, (13 # 1)%Q, (10 # 1)%Q)].
Proof. vm_compute. reflexivity. Qed.

Lemma ceil_020_is_ceiling_witness : ceil_020 7 = (7 + 4) / 5.
Proof. apply ceil_020_is_ceiling. lia. Defined.




Lemma season_of_quarter_witness :
  Season (derive (sample_raw (Some 1) 4) 1673341200) = Some "Winter".
Proof.
  refine (proj2 (proj2 (season_of_quarter to_datetime_sample sample_log _ _))).
  vm_compute. apply list_elem_of_here.
Defined.

Lemma ranking_independent_of_ties_witness :
  map snd (hours_by_volunteer (rows_of_year 2023 sample_table))
  = map snd (totals_of_year sample_table 2023).
Proof.
  refine (proj1 (ranking_independent_of_ties sample_table 2023 _ _ _)).
  - reflexivity.
  - vm_compute. repeat constructor.
Defined.

(** *** Sums over groups *)

Lemma qsum_Permutation (l1 l2 : list Qc) : l1 ≡ₚ l2 → qsum l1 = qsum l2.
Proof.
  induction 1 as [|x l l' _ IH|x y l|l l' l'' _ IH1 _ IH2]; simpl.
  - done.
  - by rewrite IH.
  - ring.
  - by rewrite IH1.
Qed.

Lemma hsum_qsum (col : list (option Qc)) : hsum col = qsum (map (default 0%Qc) col).
Proof. induction col as [|h col IH]; simpl; [done|]. by rewrite IH. Qed.

Section GroupSums.
Context {A K : Type} `{EqDecision K}.
Variable key : A -> option K.
Variable val : A -> Qc.

Lemma group_sum_cons_other (ks : list K) (r : A) (l : list A) :
  (∀ v, v ∈ ks → key r ≠ Some v) →
  map (fun v => group_sum key val v (r :: l)) ks = map (fun v => group_sum key val v l) ks.
Proof.
  intros H. apply map_ext_in. intros v Hv. apply list_elem_of_In in Hv.
  unfold group_sum. cbn [List.filter].
  by rewrite bool_decide_eq_false_2 by by apply H.
Qed.

Lemma group_sum_cons_key (ks : list K) (r : A) (l : list A) (v0 : K) :
  NoDup ks → v0 ∈ ks → key r = Some v0 →
  qsum (map (fun v => group_sum key val v (r :: l)) ks)
  = (val r + qsum (map (fun v => group_sum key val v l) ks))%Qc.
Proof.
  intros Hnd Hin Hk. induction Hnd as [|v ks Hv Hnd IH]; [inversion Hin|].
  cbn [map qsum foldr]. fold (qsum (map (fun v => group_sum key val v (r :: l)) ks)).
  fold (qsum (map (fun v => group_sum key val v l) ks)).
  destruct (decide (v = v0)) as [->|Hne].
  - rewrite group_sum_cons_other.
    2:{ intros v Hv' Hk'. rewrite Hk in Hk'. injection Hk' as <-. done. }
    unfold group_sum at 1. cbn [List.filter].
    rewrite bool_decide_eq_true_2 by done. cbn [map qsum foldr].
    fold (qsum (map val (List.filter (fun r0 => bool_decide (key r0 = Some v0)) l))).
    fold (group_sum key val v0 l). ring.
  - rewrite IH by (apply elem_of_cons in Hin as [?|?]; [congruence|done]).
    unfold group_sum at 1. cbn [List.filter].
    rewrite bool_decide_eq_false_2 by (rewrite Hk; congruence).
    fold (group_sum key val v l). ring.
Qed.

(** The sums of the groups add up to the sum of the rows that have a
    key. *)
Lemma sum_of_group_sums (ks : list K) (l : list A) :
  NoDup ks → (∀ r v, r ∈ l → key r = Some v → v ∈ ks) →
  qsum (map (fun v => group_sum key val v l) ks)
  = qsum (map val (List.filter (fun r => bool_decide (is_Some (key r))) l)).
Proof.
  intros Hnd. induction l as [|r l IH]; intros Hcov.
  - clear. induction ks as [|v ks IHk]; [done|].
    cbn [map qsum foldr]. unfold group_sum at 1. cbn [List.filter map qsum foldr].
    rewrite Qcplus_0_l. exact IHk.
  - cbn [List.filter]. destruct (key r) as [v0|] eqn:Hk.
    + rewrite bool_decide_eq_true_2 by eauto. cbn [map qsum foldr].
      rewrite (group_sum_cons_key ks r l v0 Hnd); [|by eapply Hcov; [left|]|done].
      f_equal. apply IH. intros r' v Hr'. apply Hcov. by right.
    + rewrite bool_decide_eq_false_2 by (by intros [? ?]).
      rewrite group_sum_cons_other by (intros v _; congruence).
      apply IH. intros r' v Hr'. apply Hcov. by right.
Qed.

End GroupSums.

(** *** More on the top 20% table *)

Lemma hours_by_volunteer_sum (df_y : list ShiftRecord) :
  qsum (map snd (hours_by_volunteer df_y))
  = hsum (map Hours (List.filter (fun r => bool_decide (is_Some (VolunteerID r))) df_y)).
Proof.
  unfold hours_by_volunteer. rewrite map_map. cbn [snd].
  rewrite hsum_qsum, map_map.
  rewrite <- (sum_of_group_sums VolunteerID (fun r => default 0%Qc (Hours r)) (volunteers df_y)).
  - f_equal. apply map_ext. intros v. unfold group_sum, rows_of_volunteer.
    by rewrite hsum_qsum, map_map.
  - apply NoDup_volunteers.
  - intros r v Hr Hv. apply elem_of_volunteers. eauto.
Qed.

(** X11.  The "Total Hours" of a row of the top 20% table are the hours
    of the rows of its year that carry a volunteer id: the rows without
    an id belong to no group and are not counted. *)
Theorem top20_total_hours (df : list ShiftRecord) (row : top20_row) :
  row ∈ compute_top20_engagement df →
  t_TotalHours row
  = hsum (map Hours (List.filter (fun r => bool_decide (is_Some (VolunteerID r)))
                                 (rows_of_year (t_Year row) df))).
Proof.
  unfold compute_top20_engagement. rewrite list_elem_of_omap.
  intros (yr & _ & Hrow).
  pose proof (top20_of_year_Year _ _ _ Hrow) as ->.
  unfold top20_of_year in Hrow.
  destruct (totals_of_year df yr) as [|t0 ts] eqn:Et; [done|].
  rewrite <- Et in *. injection Hrow as <-. cbn [t_TotalHours].
  rewrite <- hours_by_volunteer_sum. apply qsum_Permutation.
  change (map snd ?l) with (snd <$> l). f_equiv.
  apply sort_values_desc_Permutation.
Qed.


Lemma length_pos_Qc {A : Type} (l : list A) : l ≠ [] → (0 < Qc_of_Z (Z.of_nat (length l)))%Qc.
Proof.
  intros H. rewrite <- Z2Qc_inj_0.
  apply (proj1 (Z2Qc_inj_lt 0 (Z.of_nat (length l)))).
  destruct l; [done|]. cbn [length]. lia.
Qed.

Lemma fmean_nonempty (l : list Qc) :
  l ≠ [] → fmean l = Fin (qsum l / Qc_of_Z (Z.of_nat (length l)))%Qc.
Proof.
  intros H. unfold fmean. apply fdiv_nonzero.
  apply not_symmetry, Qclt_not_eq, length_pos_Qc. done.
Qed.

Lemma Qcdiv_mul_cancel (a n : Qc) : n ≠ 0%Qc → (a / n * n)%Qc = a.
Proof. intros Hn. field. done. Qed.

Lemma Qcdiv_le_upper (a c n : Qc) : (0 < n)%Qc → (a <= c * n)%Qc → (a / n <= c)%Qc.
Proof.
  intros Hn H. apply (Qcmult_le_mono_pos_r _ _ n Hn).
  rewrite Qcdiv_mul_cancel; [done|]. by apply not_symmetry, Qclt_not_eq.
Qed.

Lemma Qcdiv_le_lower (a c n : Qc) : (0 < n)%Qc → (c * n <= a)%Qc → (c <= a / n)%Qc.
Proof.
  intros Hn H. apply (Qcmult_le_mono_pos_r _ _ n Hn).
  rewrite Qcdiv_mul_cancel; [done|]. by apply not_symmetry, Qclt_not_eq.
Qed.

(** X12.  In a row of the top 20% table (fewer than 2^52 volunteers) the
    top segment has at least one volunteer and at most all of them, and
    its mean is its hours divided by its size; the remainder is empty
    exactly when the year has one volunteer; when it is not empty, its
    mean is its hours divided by the number of the other volunteers. *)
Theorem top20_means (df : list ShiftRecord) (row : top20_row) :
  row ∈ compute_top20_engagement df →
  t_TotalVolunteers row < 2 ^ 52 →
  let totals := totals_of_year df (t_Year row) in
  let top20 := map snd (top20_segment totals) in
  let other80 := map snd (other80_segment totals) in
  1 <= t_Top20Volunteers row <= t_TotalVolunteers row ∧
  t_MeanTop20 row = Fin (t_Top20Hours row / Qc_of_Z (t_Top20Volunteers row))%Qc ∧
  (other80 = [] ↔ t_TotalVolunteers row = 1) ∧
  (other80 ≠ [] →
   t_MeanOther80 row
   = Fin (qsum other80 / Qc_of_Z (t_TotalVolunteers row - t_Top20Volunteers row))%Qc).
Proof.
  unfold compute_top20_engagement. rewrite list_elem_of_omap.
  intros (yr & _ & Hrow).
  pose proof (top20_of_year_Year _ _ _ Hrow) as Hyr.
  cbv zeta. rewrite Hyr. clear Hyr.
  unfold top20_of_year in Hrow.
  destruct (totals_of_year df yr) as [|t0 ts] eqn:Et; [done|].
  rewrite <- Et in *. injection Hrow as <-.
  cbn [t_TotalVolunteers t_Top20Volunteers t_TotalHours t_Top20Hours t_MeanOther80 t_MeanTop20].
  set (totals := totals_of_year df yr) in *.
  intros Hlt.
  assert (0 < Z.of_nat (length totals)) as Hpos by (rewrite Et; cbn [length]; lia).
  pose proof (ceil_020_spec (Z.of_nat (length totals)) ltac:(lia)) as Hceil.
  set (k := ceil_020 (Z.of_nat (length totals))) in *.
  assert (length (top20_segment totals) = Z.to_nat k) as Hlt20.
  { unfold top20_segment. fold k. rewrite length_take. lia. }
  assert (length (other80_segment totals) = (length totals - Z.to_nat k)%nat) as Hlo80.
  { unfold other80_segment. fold k. by rewrite length_drop. }
  assert (top20_segment totals ≠ []) as Hne20.
  { intros E. rewrite E in Hlt20. cbn [length] in Hlt20. lia. }
  split; [lia|]. split.
  { rewrite fmean_nonempty by (by destruct (top20_segment totals)).
    rewrite length_map, Hlt20, Z2Nat.id by lia. done. }
  split.
  { rewrite <- length_zero_iff_nil, length_map, Hlo80. lia. }
  intros Hne. destruct (map snd (other80_segment totals)) as [|o os] eqn:Eo; [done|].
  rewrite <- Eo in *. rewrite fmean_nonempty by done.
  assert (Z.of_nat (length (map snd (other80_segment totals)))
          = Z.of_nat (length totals) - k) as Hlen.
  { assert (length (other80_segment totals) ≠ 0%nat) as Hl0.
    { intros E. apply Hne. apply length_zero_iff_nil in E. by rewrite E. }
    rewrite length_map, Hlo80. rewrite Hlo80 in Hl0. lia. }
  by rewrite Hlen.
Qed.

(** *** Percentages *)

Lemma percent_nonzero (k total : Z) :
  total ≠ 0 → percent k total = (Qc_of_Z k / Qc_of_Z total * Qc_of_Z 100)%Qc.
Proof. intros H. unfold percent. by rewrite (proj2 (Z.eqb_neq total 0) H). Qed.

Lemma Qc_of_Z_pos (z : Z) : 0 < z → (0 < Qc_of_Z z)%Qc.
Proof. intros H. rewrite <- Z2Qc_inj_0. exact (proj1 (Z2Qc_inj_lt 0 z) H). Qed.

Lemma Qc_of_Z_nonneg (z : Z) : 0 <= z → (0 <= Qc_of_Z z)%Qc.
Proof. intros H. rewrite <- Z2Qc_inj_0. exact (proj1 (Z2Qc_inj_le 0 z) H). Qed.

Lemma Qc_of_Z_le (a b : Z) : a <= b → (Qc_of_Z a <= Qc_of_Z b)%Qc.
Proof. exact (proj1 (Z2Qc_inj_le a b)). Qed.

Lemma percent_range (a total : Z) :
  0 <= a <= total → 0 < total →
  (0 <= Qc_of_Z a / Qc_of_Z total * Qc_of_Z 100 <= Qc_of_Z 100)%Qc.
Proof.
  intros Ha Ht.
  assert (0 < Qc_of_Z total)%Qc as Hpos by by apply Qc_of_Z_pos.
  assert (0 <= Qc_of_Z 100)%Qc as H100 by (apply Qc_of_Z_nonneg; lia).
  assert (0 <= Qc_of_Z a / Qc_of_Z total <= 1)%Qc as [Hlo Hhi].
  { split.
    - apply Qcdiv_le_lower; [done|]. rewrite Qcmult_0_l. apply Qc_of_Z_nonneg. lia.
    - apply Qcdiv_le_upper; [done|]. rewrite Qcmult_1_l. apply Qc_of_Z_le. lia. }
  split.
  - by apply Qcmult_nonneg_nonneg.
  - rewrite <- (Qcmult_1_l (Qc_of_Z 100)) at 2. by apply Qcmult_le_mono_nonneg_r.
Qed.

(** X13.  In a row of the inactivity table the two counts are not
    negative; with no volunteer both percentages are 0; otherwise each
    is its count divided by the total, times 100, and lies between 0
    and 100. *)
Theorem retention_percentages (df : list ShiftRecord) (row : retention_row) :
  row ∈ compute_retention_rolling_6mo df →
  0 <= r_ActiveVolunteers row ∧ 0 <= r_InactiveVolunteers row ∧
  (r_TotalVolunteers row = 0 →
   r_ActivePct row = 0%Qc ∧ r_InactivePct row = 0%Qc) ∧
  (r_TotalVolunteers row ≠ 0 →
   r_ActivePct row
   = (Qc_of_Z (r_ActiveVolunteers row) / Qc_of_Z (r_TotalVolunteers row) * Qc_of_Z 100)%Qc ∧
   r_InactivePct row
   = (Qc_of_Z (r_InactiveVolunteers row) / Qc_of_Z (r_TotalVolunteers row) * Qc_of_Z 100)%Qc ∧
   (0 <= r_ActivePct row <= Qc_of_Z 100)%Qc ∧
   (0 <= r_InactivePct row <= Qc_of_Z 100)%Qc).
Proof.
  unfold compute_retention_rolling_6mo. rewrite list_elem_of_omap.
  intros (yr & _ & Hrow). unfold retention_of_year in Hrow.
  destruct (rows_of_year yr (not_training df)) as [|r0 rs] eqn:E; [done|].
  rewrite <- E in *. injection Hrow as <-.
  cbn [r_TotalVolunteers r_ActiveVolunteers r_InactiveVolunteers r_ActivePct r_InactivePct].
  pose proof (count_true_false (inactive_flags yr (rows_of_year yr (not_training df)))) as Hsum.
  rewrite length_inactive_flags in Hsum.
  set (flags := inactive_flags yr _) in *. set (total := Z.of_nat (length (last_shift _))) in *.
  assert (0 <= count_false flags ∧ 0 <= count_true flags) as [Hf Ht].
  { unfold count_false, count_true. lia. }
  split; [done|]. split; [done|]. split.
  - intros ->. done.
  - intros Hne. rewrite !percent_nonzero by done.
    split; [done|]. split; [done|].
    split; apply percent_range; lia.
Qed.

Lemma zdiv_pos (n a : Z) : a ≠ 0 → zdiv n a = Fin (Qc_of_Z n / Qc_of_Z a)%Qc.
Proof. intros H. unfold zdiv. apply fdiv_nonzero. by apply Qc_of_Z_nonzero. Qed.

(** X14.  In a row of the table of new and returning volunteers the new
    volunteers are at most the active ones; the active count is 0
    exactly when no row of the year outside Training carries a volunteer
    id, and then both percentages are NaN ([0/0]); otherwise each is
    finite, is its count divided by the active count, times 100, and
    lies between 0 and 100. *)
Theorem growth_percentages (df : list ShiftRecord) (row : growth_row) :
  row ∈ growth_explainer df →
  0 <= g_NewVolunteers row <= g_ActiveVolunteers row ∧
  (g_ActiveVolunteers row = 0 ↔
   ∀ r, r ∈ df → Category r ≠ Some TRAINING → Year r = g_Year row → VolunteerID r = None) ∧
  (g_ActiveVolunteers row = 0 → g_PctNew row = NaN ∧ g_PctReturning row = NaN) ∧
  (g_ActiveVolunteers row ≠ 0 →
   ∃ pct_new pct_returning,
     g_PctNew row = Fin pct_new ∧ g_PctReturning row = Fin pct_returning ∧
     pct_new
     = (Qc_of_Z (g_NewVolunteers row) / Qc_of_Z (g_ActiveVolunteers row) * Qc_of_Z 100)%Qc ∧
     pct_returning
     = (Qc_of_Z (g_ReturningVolunteers row) / Qc_of_Z (g_ActiveVolunteers row)
        * Qc_of_Z 100)%Qc ∧
     (0 <= pct_new <= Qc_of_Z 100)%Qc ∧ (0 <= pct_returning <= Qc_of_Z 100)%Qc).
Proof.
  rewrite growth_explainer_rows, list_elem_of_fmap. intros (y & -> & _).
  cbn [g_Year g_ActiveVolunteers g_NewVolunteers g_ReturningVolunteers g_PctNew g_PctReturning].
  pose proof (new_le_active (not_training df) y) as Hle.
  rewrite new_by_year_default.
  set (n := Z.of_nat (length _)) in *.
  pose proof (length_volunteers (rows_of_year y (not_training df))) as Hlv.
  set (a := nunique _) in *.
  assert (0 <= n <= Z.of_nat a) as Hn by (unfold n; lia).
  split; [done|]. split; [|split].
  - split.
    + intros Ha r Hr Hc Hy. destruct (VolunteerID r) as [v|] eqn:Hv; [|done].
      assert (v ∈ volunteers (rows_of_year y (not_training df))) as Hin.
      { apply elem_of_volunteers. exists r. split; [|done].
        by rewrite elem_of_rows_of_year, elem_of_not_training. }
      destruct (volunteers (rows_of_year y (not_training df))); [inversion Hin|].
      cbn [length] in Hlv. lia.
    + intros Hall. destruct (volunteers (rows_of_year y (not_training df))) as [|v l] eqn:E.
      { cbn [length] in Hlv. lia. }
      assert (v ∈ volunteers (rows_of_year y (not_training df))) as Hin by (rewrite E; left).
      apply elem_of_volunteers in Hin as (r & Hr & Hv).
      apply elem_of_rows_of_year in Hr as [Hr Hy]. apply elem_of_not_training in Hr as [Hr Hc].
      rewrite (Hall r Hr Hc Hy) in Hv. done.
  - intros Ha. assert (n = 0) as -> by lia. rewrite Ha. done.
  - intros Ha. rewrite !zdiv_pos by done. cbn [fscale].
    eexists _, _. split; [done|]. split; [done|]. split; [done|]. split; [done|].
    split; apply percent_range; lia.
Qed.

(** *** What the cleaning leaves untouched *)

Lemma replace_value_never_old (old new : string) (c : option string) :
  old ≠ new → replace_value old new c ≠ Some old.
Proof.
  intros Hne. destruct c as [s|]; simpl; [|done].
  destruct (String.eqb_spec s old); congruence.
Qed.

Section CleaningFrame.
Variable to_datetime : string -> option Z.

(** X15.  The cleaning changes nothing but the misspelt category: every
    cleaned row comes from a raw row with the same volunteer id, hours
    and subcategory, whose date is the parsed date; its category is
    never the misspelt one, is the corrected one when the raw category
    was misspelt, and is the raw category otherwise. *)
Theorem cleaning_changes_only_category (df : list raw_shift) (r : ShiftRecord) :
  r ∈ load_and_clean_hours to_datetime df →
  ∃ raw, raw ∈ df ∧
    VolunteerID r = DatabaseUserId raw ∧
    Hours r = HoursWorked raw ∧
    SubCategory r = EventSubcategory raw ∧
    parse_date to_datetime raw = Some (DateVolunteered r) ∧
    Category r ≠ Some TYPO_CATEGORY ∧
    (FinalCategory raw = Some TYPO_CATEGORY → Category r = Some FIXED_CATEGORY) ∧
    (FinalCategory raw ≠ Some TYPO_CATEGORY → Category r = FinalCategory raw).
Proof.
  rewrite elem_of_load_and_clean_hours. intros (raw & Hin & Hc).
  exists raw. split; [done|]. unfold clean_row in Hc.
  destruct (parse_date to_datetime raw) as [ts|]; [|done].
  destruct (_ && _); [|done]. injection Hc as <-.
  cbn [VolunteerID Hours SubCategory DateVolunteered Category derive rename_raw_category
       DatabaseUserId HoursWorked EventSubcategory FinalCategory].
  repeat (split; [done|]). split; [|split].
  - by apply replace_value_never_old.
  - by intros ->.
  - intros Hne. destruct (FinalCategory raw) as [s|]; simpl; [|done].
    destruct (String.eqb_spec s TYPO_CATEGORY); congruence.
Qed.

Lemma length_load_and_clean_hours (df : list raw_shift) :
  (length (load_and_clean_hours to_datetime df) <= length df)%nat.
Proof.
  induction df as [|raw df IH]; [done|].
  rewrite load_and_clean_hours_cons, length_app. cbn [length].
  destruct (clean_row to_datetime raw); simpl; lia.
Qed.

End CleaningFrame.

(** *** The derived columns *)

Lemma weekday_range (ts : Z) : 0 <= Calendar.weekday ts <= 6.
Proof. unfold Calendar.weekday. Z.div_mod_to_equations; lia. Qed.

Lemma month_name_in_order (ts : Z) : month_name ts ∈ MONTH_ORDER.
Proof.
  unfold month_name, Calendar.month.
  pose proof (month_range (Calendar.day_number ts)) as Hm.
  set (m := snd (fst (Calendar.civil_from_days (Calendar.day_number ts)))) in *.
  assert (m = 1 ∨ m = 2 ∨ m = 3 ∨ m = 4 ∨ m = 5 ∨ m = 6 ∨ m = 7 ∨ m = 8 ∨ m = 9 ∨
          m = 10 ∨ m = 11 ∨ m = 12) as Hc by lia.
  destruct Hc as [->|[->|[->|[->|[->|[->|[->|[->|[->|[->|[->| ->]]]]]]]]]]];
    apply list_elem_of_In; cbn; tauto.
Qed.

Lemma day_name_in_order (ts : Z) : day_name ts ∈ DAY_ORDER.
Proof.
  unfold day_name. pose proof (weekday_range ts) as Hw.
  set (w := Calendar.weekday ts) in *.
  assert (w = 0 ∨ w = 1 ∨ w = 2 ∨ w = 3 ∨ w = 4 ∨ w = 5 ∨ w = 6) as Hc by lia.
  destruct Hc as [->|[->|[->|[->|[->|[->| ->]]]]]]; apply list_elem_of_In; cbn; tauto.
Qed.

Lemma weeks_in_year_range (y : Z) : 52 <= Calendar.weeks_in_year y <= 53.
Proof. unfold Calendar.weeks_in_year. destruct (_ || _); lia. Qed.

Lemma day_of_year_range (ts : Z) :
  0 <= Calendar.day_number ts - Calendar.days_from_civil (Calendar.year ts) 1 1 <= 365.
Proof.
  unfold Calendar.year.
  pose proof (civil_roundtrip (Calendar.day_number ts)) as Hrt.
  pose proof (month_range (Calendar.day_number ts)) as Hm.
  pose proof (day_range (Calendar.day_number ts)) as Hd.
  destruct (Calendar.civil_from_days (Calendar.day_number ts)) as [[y m] d].
  cbn [fst snd] in *.
  pose proof (days_from_civil_within_year y m d Hm Hd) as Hw.
  pose proof (year_length y) as Hy. lia.
Qed.

Lemma iso_week_range (ts : Z) : 1 <= Calendar.iso_week ts <= 53.
Proof.
  unfold Calendar.iso_week. cbv zeta.
  pose proof (day_of_year_range ts) as Hd. pose proof (weekday_range ts) as Hw.
  pose proof (weeks_in_year_range (Calendar.year ts)) as H1.
  pose proof (weeks_in_year_range (Calendar.year ts - 1)) as H2.
  set (w := (_ - _ + 1 - (Calendar.weekday ts + 1) + 10) / 7).
  assert (0 <= w <= 53) as Hwk by (unfold w; Z.div_mod_to_equations; lia).
  clearbody w.
  destruct (w <? 1) eqn:E1; [lia|]. apply Z.ltb_ge in E1.
  destruct (Calendar.weeks_in_year (Calendar.year ts) <? w) eqn:E2; [lia|].
  apply Z.ltb_ge in E2. lia.
Qed.

Section DerivedColumns.
Variable to_datetime : string -> option Z.

(** X16.  The derived columns of a cleaned row are those of its date: the
    month name is one of [MONTH_ORDER], the day name one of [DAY_ORDER],
    and the ISO week lies between 1 and 53. *)
Theorem derived_columns (df : list raw_shift) (r : ShiftRecord) :
  r ∈ load_and_clean_hours to_datetime df →
  Year r = Calendar.year (DateVolunteered r) ∧
  Month r = month_name (DateVolunteered r) ∧ Month r ∈ MONTH_ORDER ∧
  DayName r = day_name (DateVolunteered r) ∧ DayName r ∈ DAY_ORDER ∧
  Week r = Calendar.iso_week (DateVolunteered r) ∧ 1 <= Week r <= 53.
Proof.
  rewrite elem_of_load_and_clean_hours. intros (raw & _ & Hc).
  unfold clean_row in Hc. destruct (parse_date to_datetime raw) as [ts|]; [|done].
  destruct (_ && _); [|done]. injection Hc as <-.
  cbn [Year Month DayName Week DateVolunteered derive].
  split; [done|]. split; [done|]. split; [apply month_name_in_order|].
  split; [done|]. split; [apply day_name_in_order|]. split; [done|].
  apply iso_week_range.
Qed.

End DerivedColumns.

(** *** The city table *)

(** X17.  The table of canonical city names never changes the result of
    [clean_city]: on every text the result is "Mississauga" when the key
    starts with "mis", and the title-cased key otherwise; every entry of
    the table is either caught by the prefix rule or equal to its own
    title case. *)
Theorem clean_city_table_is_redundant (c : string) :
  clean_city (Some c)
  = Some (if PyStr.startswith "mis" (city_key c) then "Mississauga"
          else PyStr.title (city_key c)).
Proof.
  unfold clean_city. cbv zeta. generalize (city_key c) as s. intros s.
  destruct (PyStr.startswith "mis" s) eqn:Hs; [done|].
  destruct (CITY_CANONICAL_MAP !! s) as [v|] eqn:Hv; [|done].
  f_equal. unfold CITY_CANONICAL_MAP in Hv.
  repeat (apply lookup_insert_Some in Hv as [[<- <-]|[_ Hv]];
          [first [discriminate Hs | reflexivity]|]).
  by rewrite lookup_empty in Hv.
Qed.

(** *** Forward sortation areas *)

Lemma upper_char_idem (c : ascii) : PyStr.upper_char (PyStr.upper_char c) = PyStr.upper_char c.
Proof. destruct c as [[] [] [] [] [] [] [] []]; reflexivity. Qed.

Lemma upper_char_not_space (c : ascii) :
  Ascii.eqb c " " = false → Ascii.eqb (PyStr.upper_char c) " " = false.
Proof. destruct c as [[] [] [] [] [] [] [] []]; intros H; first [exact H | reflexivity]. Qed.

Lemma upper_remove_spaces_chars (p : string) :
  string_forall fsa_char (PyStr.upper (remove_spaces p)).
Proof.
  induction p as [|c p IH]; simpl; [done|].
  destruct (Ascii.eqb c " ") eqn:E; [done|]. simpl. split; [|done].
  split; [by apply upper_char_not_space|apply upper_char_idem].
Qed.

Lemma fsa_chars_fixed (s : string) :
  string_forall fsa_char s → PyStr.upper (remove_spaces s) = s.
Proof.
  induction s as [|c s IH]; simpl; [done|]. intros [[Hsp Hup] Hs].
  rewrite Hsp. simpl. by rewrite Hup, IH.
Qed.

Lemma length_upper (s : string) : String.length (PyStr.upper s) = String.length s.
Proof. induction s as [|c s IH]; simpl; [done|]. by rewrite IH. Qed.

(** X18.  [extract_fsa] on an ASCII text returns nothing exactly when
    the text has fewer than three characters other than spaces; a
    result has three characters, none of them a space or a lower-case
    letter, is the beginning of the upper-cased text without its
    spaces, and is left unchanged by [extract_fsa]. *)
Theorem extract_fsa_spec (p : string) :
  ascii_text p →
  (extract_fsa (Some p) = None ↔ (String.length (remove_spaces p) < 3)%nat) ∧
  ∀ f, extract_fsa (Some p) = Some f →
    String.length f = 3%nat ∧
    string_forall (fun c => c ≠ " "%char ∧ PyStr.islower c = false) f ∧
    PyStr.startswith f (PyStr.upper (remove_spaces p)) = true ∧
    extract_fsa (Some f) = Some f.
Proof.
  intros _. unfold extract_fsa at 1 2. cbv zeta.
  pose proof (upper_remove_spaces_chars p) as Hall.
  pose proof (length_upper (remove_spaces p)) as Hlen.
  set (s := PyStr.upper (remove_spaces p)) in *. rewrite <- Hlen. clearbody s. clear Hlen.
  destruct (3 <=? String.length s)%nat eqn:E.
  - apply Nat.leb_le in E. split; [split; [done|lia]|].
    intros f [= <-].
    destruct s as [|a [|b [|c rest]]]; [simpl in E; lia..|].
    cbn [String.substring]. replace (substring 0 0 rest) with "" by by destruct rest.
    destruct Hall as ([Ha1 Ha2] & [Hb1 Hb2] & [Hc1 Hc2] & _).
    split; [done|]. split; [|split].
    + cbn [string_forall].
      assert (∀ x, Ascii.eqb x " " = false → PyStr.upper_char x = x →
                   x ≠ " "%char ∧ PyStr.islower x = false) as Hch.
      { intros x H1 H2. split; [by intros ->|].
        destruct x as [[] [] [] [] [] [] [] []]; first [reflexivity | discriminate H2]. }
      auto.
    + cbn [PyStr.startswith]. by rewrite !Ascii.eqb_refl.
    + unfold extract_fsa. cbv zeta.
      rewrite fsa_chars_fixed by (cbn [string_forall]; unfold fsa_char; auto).
      done.
  - apply Nat.leb_gt in E. split; [done|]. intros f [=].
Qed.

(** *** Volunteer status *)

(** X19.  [clean_volunteer_status] leaves its own labels unchanged: on a
    status that is not null, cleaning the result again gives the same
    label.  The label "Unknown" of a null status is cleaned to "Other". *)
Theorem clean_volunteer_status_stable (status : option string) :
  clean_volunteer_status (Some (clean_volunteer_status status))
  = match status with
    | Some _ => clean_volunteer_status status
    | None => "Other"
    end.
Proof.
  destruct status as [st|]; [|reflexivity].
  unfold clean_volunteer_status at 2 3. cbv zeta.
  repeat (match goal with |- context [if ?b then _ else _] => destruct b end;
          [reflexivity|]).
  reflexivity.
Qed.

(** *** Case *)

Lemma isspace_upper_char (c : ascii) : PyStr.isspace (PyStr.upper_char c) = PyStr.isspace c.
Proof. destruct c as [[] [] [] [] [] [] [] []]; reflexivity. Qed.

Lemma isspace_lower_char (c : ascii) : PyStr.isspace (PyStr.lower_char c) = PyStr.isspace c.
Proof. destruct c as [[] [] [] [] [] [] [] []]; reflexivity. Qed.

Lemma lower_upper_char (c : ascii) : PyStr.lower_char (PyStr.upper_char c) = PyStr.lower_char c.
Proof. destruct c as [[] [] [] [] [] [] [] []]; reflexivity. Qed.

Lemma lower_lower_char (c : ascii) : PyStr.lower_char (PyStr.lower_char c) = PyStr.lower_char c.
Proof. destruct c as [[] [] [] [] [] [] [] []]; reflexivity. Qed.

Lemma lower_upper (s : string) : PyStr.lower (PyStr.upper s) = PyStr.lower s.
Proof.
  induction s as [|c s IH]; [done|]. cbn [PyStr.upper PyStr.lower].
  by rewrite lower_upper_char, IH.
Qed.

Lemma lower_lower (s : string) : PyStr.lower (PyStr.lower s) = PyStr.lower s.
Proof.
  induction s as [|c s IH]; [done|]. cbn [PyStr.lower].
  by rewrite lower_lower_char, IH.
Qed.

(** Whether a text is blank does not depend on case. *)
Section Blank.
Variable f : ascii -> ascii.
Variable F : string -> string.
Hypothesis f_space : ∀ c, PyStr.isspace (f c) = PyStr.isspace c.
Hypothesis F_nil : F EmptyString = EmptyString.
Hypothesis F_cons : ∀ c s, F (String c s) = String (f c) (F s).

Lemma lstrip_case (s : string) : PyStr.lstrip (F s) = F (PyStr.lstrip s).
Proof.
  induction s as [|c s IH]; [by rewrite F_nil|].
  rewrite F_cons. cbn [PyStr.lstrip]. rewrite f_space.
  destruct (PyStr.isspace c); [exact IH|by rewrite F_cons].
Qed.

Lemma rev_onto_case (s acc : string) :
  PyStr.rev_onto (F s) (F acc) = F (PyStr.rev_onto s acc).
Proof.
  revert acc. induction s as [|c s IH]; intros acc; [by rewrite F_nil|].
  rewrite F_cons. cbn [PyStr.rev_onto]. rewrite <- F_cons. apply IH.
Qed.

Lemma rev_case (s : string) : PyStr.rev (F s) = F (PyStr.rev s).
Proof. unfold PyStr.rev. rewrite <- rev_onto_case. by rewrite F_nil. Qed.

Lemma strip_case (s : string) : PyStr.strip (F s) = F (PyStr.strip s).
Proof.
  unfold PyStr.strip, PyStr.rstrip.
  by rewrite lstrip_case, rev_case, lstrip_case, rev_case.
Qed.

Lemma blank_case (s : string) :
  String.eqb (PyStr.strip (F s)) "" = String.eqb (PyStr.strip s) "".
Proof.
  rewrite strip_case. destruct (PyStr.strip s); [by rewrite F_nil|by rewrite F_cons].
Qed.

End Blank.

(** Substrings. *)

Lemma startswith_spec (p s : string) :
  PyStr.startswith p s = true ↔ ∃ post, s = String.append p post.
Proof.
  revert s. induction p as [|a p IH]; intros s; cbn [PyStr.startswith String.append].
  - split; [by exists s|done].
  - destruct s as [|b s].
    + split; [done|]. by intros [post ?].
    + rewrite andb_true_iff, IH. split.
      * intros [Hab [post ->]]. apply Ascii.eqb_eq in Hab as ->. by exists post.
      * intros [post [= -> ->]]. split; [apply Ascii.eqb_refl|by exists post].
Qed.

Lemma contains_spec (sub s : string) :
  PyStr.contains sub s = true ↔ occurs_in sub s.
Proof.
  unfold occurs_in. induction s as [|c s IH]; cbn [PyStr.contains].
  - rewrite orb_false_r, startswith_spec. split.
    + intros [post ->]. by exists EmptyString, post.
    + intros ([|? pre] & post & H); [by exists post|done].
  - rewrite orb_true_iff, startswith_spec, IH. split.
    + intros [[post ->]|(pre & post & ->)].
      * by exists EmptyString, post.
      * by exists (String c pre), post.
    + intros ([|c' pre] & post & H).
      * left. by exists post.
      * right. cbn [String.append] in H. injection H as -> ->. by exists pre, post.
Qed.

Lemma string_forall_rev_onto (P : ascii -> Prop) (s acc : string) :
  string_forall P (PyStr.rev_onto s acc) ↔ string_forall P s ∧ string_forall P acc.
Proof.
  revert acc. induction s as [|c s IH]; intros acc; cbn [PyStr.rev_onto string_forall].
  - tauto.
  - rewrite IH. cbn [string_forall]. tauto.
Qed.

Lemma string_forall_rev (P : ascii -> Prop) (s : string) :
  string_forall P (PyStr.rev s) ↔ string_forall P s.
Proof. unfold PyStr.rev. rewrite string_forall_rev_onto. cbn [string_forall]. tauto. Qed.

Lemma rev_onto_empty (s acc : string) : PyStr.rev_onto s acc = "" → s = "" ∧ acc = "".
Proof.
  revert acc. induction s as [|c s IH]; intros acc; cbn [PyStr.rev_onto]; [done|].
  intros H. by destruct (IH _ H).
Qed.

Lemma lstrip_empty (s : string) :
  PyStr.lstrip s = "" → string_forall (fun c => PyStr.isspace c = true) s.
Proof.
  induction s as [|c s IH]; cbn [PyStr.lstrip string_forall]; [done|].
  destruct (PyStr.isspace c); [by split; [|apply IH]|done].
Qed.

Lemma lstrip_blank (s : string) :
  string_forall (fun c => PyStr.isspace c = true) s → PyStr.lstrip s = "".
Proof.
  induction s as [|c s IH]; cbn [PyStr.lstrip string_forall]; [done|].
  intros [-> H]. by apply IH.
Qed.

Lemma lstrip_spaces (s : string) :
  string_forall (fun c => PyStr.isspace c = true) (PyStr.lstrip s) →
  PyStr.lstrip s = "".
Proof.
  induction s as [|c s IH]; cbn [PyStr.lstrip]; [done|].
  destruct (PyStr.isspace c) eqn:E; [exact IH|].
  cbn [string_forall]. intros [? _]. congruence.
Qed.

(** A text is blank exactly when each of its characters is a space. *)
Lemma strip_empty (s : string) :
  PyStr.strip s = "" ↔ string_forall (fun c => PyStr.isspace c = true) s.
Proof.
  unfold PyStr.strip, PyStr.rstrip. split.
  - intros H. apply lstrip_empty.
    apply rev_onto_empty in H as [H _].
    apply lstrip_empty in H. apply (proj1 (string_forall_rev _ _)) in H.
    by apply lstrip_spaces.
  - intros H. by rewrite (lstrip_blank s H).
Qed.

Lemma string_forall_occurs (P : ascii -> Prop) (sub s : string) :
  string_forall P s → occurs_in sub s → string_forall P sub.
Proof.
  intros H (pre & post & ->). revert H.
  induction pre as [|c pre IH]; cbn [String.append string_forall].
  - clear. induction sub as [|c sub IH]; cbn [String.append string_forall]; [done|].
    intros [? ?]. split; [done|by apply IH].
  - intros [_ ?]. by apply IH.
Qed.

Lemma string_forall_lower (s : string) :
  string_forall (fun c => PyStr.isspace c = true) s →
  string_forall (fun c => PyStr.isspace c = true) (PyStr.lower s).
Proof.
  induction s as [|c s IH]; cbn [PyStr.lower string_forall]; [done|].
  intros [? ?]. split; [by rewrite isspace_lower_char|by apply IH].
Qed.

(** X10.  [classify_language] on an ASCII text: the label is
    "Multilingual" exactly when "english" occurs in the lower-cased text
    together with one of ",", ";", " and " and "/"; it is "English only"
    exactly when "english" occurs and none of the four does; it is
    "Other/Unknown" exactly when "english" does not occur, which covers
    the blank texts.  The label does not depend on the case of the
    text. *)
Theorem classify_language_spec (text : string) :
  let t := PyStr.lower text in
  let is_multi := occurs_in "," t ∨ occurs_in ";" t ∨ occurs_in " and " t ∨ occurs_in "/" t in
  ascii_text text →
  (classify_language text = "Multilingual" ↔ occurs_in "english" t ∧ is_multi) ∧
  (classify_language text = "English only" ↔ occurs_in "english" t ∧ ¬ is_multi) ∧
  (classify_language text = "Other/Unknown" ↔ ¬ occurs_in "english" t) ∧
  classify_language (PyStr.upper text) = classify_language text ∧
  classify_language (PyStr.lower text) = classify_language text.
Proof.
  intros t is_multi _.
  assert (existsb (fun sep => PyStr.contains sep t) language_separators = true ↔ is_multi)
    as Hmulti.
  { unfold language_separators, is_multi. cbn [existsb].
    rewrite orb_false_r, !orb_true_iff, !contains_spec. tauto. }
  assert (String.eqb (PyStr.strip text) "" = true → ¬ occurs_in "english" t) as Hblank.
  { intros Hb Ho. apply String.eqb_eq, strip_empty, string_forall_lower in Hb.
    pose proof (string_forall_occurs _ _ _ Hb Ho) as [He _]. done. }
  split; [|split; [|split; [|split]]].
  - unfold classify_language. fold t.
    destruct (String.eqb (PyStr.strip text) "") eqn:Eb.
    { split; [done|]. intros [Ho _]. by destruct (Hblank eq_refl). }
    rewrite <- Hmulti, <- contains_spec.
    destruct (PyStr.contains "english" t), (existsb _ _); cbn; split; try done;
      intros [? ?]; done.
  - unfold classify_language. fold t.
    destruct (String.eqb (PyStr.strip text) "") eqn:Eb.
    { split; [done|]. intros [Ho _]. by destruct (Hblank eq_refl). }
    rewrite <- Hmulti, <- contains_spec.
    destruct (PyStr.contains "english" t), (existsb _ _); cbn; split; try done;
      intros [? ?]; done.
  - unfold classify_language. fold t.
    destruct (String.eqb (PyStr.strip text) "") eqn:Eb.
    { split; [by intros _; apply Hblank|done]. }
    rewrite <- contains_spec.
    destruct (PyStr.contains "english" t), (existsb _ _); cbn; split; try done;
      intros H; by destruct H.
  - unfold classify_language. rewrite lower_upper.
    by rewrite (blank_case PyStr.upper_char PyStr.upper isspace_upper_char).
  - unfold classify_language. rewrite lower_lower.
    by rewrite (blank_case PyStr.lower_char PyStr.lower isspace_lower_char).
Qed.

(** *** Hours by category *)

Section StableSort.
Context {A : Type} (R : relation A) `{!RelDecision R}.

Lemma insert_stable_Permutation (x : A) (l : list A) : insert_stable R x l ≡ₚ x :: l.
Proof.
  induction l as [|y l IH]; [done|]. cbn [insert_stable].
  destruct (decide (R x y)); [done|]. rewrite IH. apply perm_swap.
Qed.

Lemma stable_sort_Permutation (l : list A) : stable_sort R l ≡ₚ l.
Proof.
  unfold stable_sort. induction l as [|x l IH]; [done|]. cbn [foldr].
  by rewrite insert_stable_Permutation, IH.
Qed.

Lemma insert_stable_sorted `{!Transitive R, !Total R} (x : A) (l : list A) :
  StronglySorted R l → StronglySorted R (insert_stable R x l).
Proof.
  induction 1 as [|y l HS IH Hy]; cbn [insert_stable]; [by repeat constructor|].
  destruct (decide (R x y)) as [Hxy|Hxy].
  - constructor; [by constructor|]. constructor; [done|].
    eapply Forall_impl; [exact Hy|]. intros z Hz. by etrans.
  - assert (R y x) as Hyx by (destruct (total R x y); done).
    constructor; [done|]. rewrite insert_stable_Permutation. by constructor.
Qed.

Lemma stable_sort_sorted `{!Transitive R, !Total R} (l : list A) :
  StronglySorted R (stable_sort R l).
Proof.
  unfold stable_sort. induction l as [|x l IH]; [constructor|]. cbn [foldr].
  by apply insert_stable_sorted.
Qed.

End StableSort.

Lemma filter_Permutation' {A : Type} (f : A -> bool) (l1 l2 : list A) :
  l1 ≡ₚ l2 → List.filter f l1 ≡ₚ List.filter f l2.
Proof.
  induction 1 as [|x l l' _ IH|x y l|l l' l'' _ IH1 _ IH2]; cbn [List.filter].
  - done.
  - destruct (f x); [by constructor|done].
  - destruct (f x), (f y); try done. apply perm_swap.
  - by etrans.
Qed.

Section FilteredGroupSums.
Context {A K : Type} `{EqDecision K}.
Variable key : A -> option K.
Variable val : A -> Qc.
Variable P : K -> bool.

(** The sums of the groups whose key satisfies [P] add up to the sum of
    the rows whose key satisfies [P]. *)
Lemma sum_of_selected_group_sums (ks : list K) (l : list A) :
  NoDup ks → (∀ r v, r ∈ l → key r = Some v → v ∈ ks) →
  qsum (map (fun v => group_sum key val v l) (List.filter P ks))
  = qsum (map val (List.filter (fun r => match key r with
                                         | Some v => P v
                                         | None => false
                                         end) l)).
Proof.
  intros Hnd Hcov.
  set (key' := fun r => match key r with
                        | Some v => if P v then Some v else None
                        | None => None
                        end).
  transitivity (qsum (map (fun v => group_sum key' val v l) (List.filter P ks))).
  { f_equal. apply map_ext_in. intros v Hv. apply filter_In in Hv as [_ Hv].
    unfold group_sum. do 2 f_equal. apply filter_ext. intros r. unfold key'.
    destruct (key r) as [w|]; [|done].
    destruct (P w) eqn:Hw; [done|].
    rewrite !bool_decide_eq_false_2; [done|done|]. intros [= ->]. congruence. }
  rewrite (sum_of_group_sums key' val).
  - do 2 f_equal. apply filter_ext. intros r. unfold key'.
    destruct (key r) as [w|]; [|by rewrite bool_decide_eq_false_2 by by intros [? ?]].
    destruct (P w); [by rewrite bool_decide_eq_true_2 by eauto|].
    by rewrite bool_decide_eq_false_2 by by intros [? ?].
  - by apply NoDup_filter_bool.
  - intros r v Hr Hk. unfold key' in Hk. destruct (key r) as [w|] eqn:Hw; [|done].
    destruct (P w) eqn:HP; [|done]. injection Hk as <-.
    apply filter_elem_of. split; [|done]. by eapply Hcov.
Qed.

End FilteredGroupSums.

Lemma elem_of_unique_sorted_str (l : list string) (x : string) :
  x ∈ unique_sorted_str l ↔ x ∈ l.
Proof. unfold unique_sorted_str. by rewrite merge_sort_Permutation, elem_of_remove_dups. Qed.

Lemma NoDup_unique_sorted_str (l : list string) : NoDup (unique_sorted_str l).
Proof. unfold unique_sorted_str. rewrite merge_sort_Permutation. apply NoDup_remove_dups. Qed.

Lemma elem_of_categories (df : list ShiftRecord) (c : string) :
  c ∈ categories df ↔ ∃ r, r ∈ df ∧ Category r = Some c.
Proof. unfold categories. by rewrite elem_of_unique_sorted_str, list_elem_of_omap. Qed.

Lemma category_group_sum (df : list ShiftRecord) (c : string) :
  hsum (map Hours (rows_of_category c df))
  = group_sum Category (fun r => default 0%Qc (Hours r)) c df.
Proof. unfold group_sum, rows_of_category. by rewrite hsum_qsum, map_map. Qed.

Global Instance total_desc_trans : Transitive total_desc.
Proof.
  intros a b c. unfold total_desc. rewrite !Qc_leb_le.
  intros H1 H2. by eapply Qcle_trans.
Qed.

Global Instance total_desc_total : Total total_desc.
Proof.
  intros a b. unfold total_desc. rewrite !Qc_leb_le.
  destruct (Qclt_le_dec (c_TotalHours a) (c_TotalHours b)) as [H|H];
    [right; by apply Qclt_le_weak|by left].
Qed.

(** X20.  The table of totals by category has one row for each category
    that occurs, with the hours of the rows of that category, in
    descending order of hours; its totals add up to the hours of the
    rows that have a category. *)
Theorem category_totals_spec (df : list ShiftRecord) :
  NoDup (map c_Category (category_totals df)) ∧
  (∀ c, c ∈ map c_Category (category_totals df) ↔ ∃ r, r ∈ df ∧ Category r = Some c) ∧
  (∀ row, row ∈ category_totals df →
          c_TotalHours row = hsum (map Hours (rows_of_category (c_Category row) df))) ∧
  StronglySorted total_desc (category_totals df) ∧
  qsum (map c_TotalHours (category_totals df))
  = hsum (map Hours (List.filter (fun r => bool_decide (is_Some (Category r))) df)).
Proof.
  assert (category_totals df ≡ₚ hours_by_category df) as Hp
    by apply stable_sort_Permutation.
  assert (map c_Category (hours_by_category df) = categories df) as Hkeys.
  { unfold hours_by_category. rewrite map_map. cbn [c_Category]. apply map_id. }
  split; [|split; [|split; [|split]]].
  - change (map c_Category ?l) with (c_Category <$> l). rewrite Hp.
    change (c_Category <$> ?l) with (map c_Category l). rewrite Hkeys.
    apply NoDup_unique_sorted_str.
  - intros c. change (map c_Category ?l) with (c_Category <$> l). rewrite Hp.
    change (c_Category <$> ?l) with (map c_Category l). rewrite Hkeys.
    apply elem_of_categories.
  - intros row. rewrite Hp. unfold hours_by_category. rewrite list_elem_of_fmap.
    by intros (c & -> & _).
  - apply stable_sort_sorted; apply _.
  - rewrite (qsum_Permutation _ (map c_TotalHours (hours_by_category df)))
      by (change (map c_TotalHours ?l) with (c_TotalHours <$> l); by f_equiv).
    unfold hours_by_category. rewrite map_map. cbn [c_TotalHours].
    rewrite hsum_qsum, map_map.
    rewrite <- (sum_of_group_sums Category (fun r => default 0%Qc (Hours r)) (categories df)).
    + f_equal. apply map_ext. intros c. apply category_group_sum.
    + apply NoDup_unique_sorted_str.
    + intros r c Hr Hc. apply elem_of_categories. eauto.
Qed.

Lemma elem_of_year_categories (df : list ShiftRecord) (k : Z * string) :
  k ∈ year_categories df ↔ ∃ r, r ∈ df ∧ Year r = fst k ∧ Category r = Some (snd k).
Proof.
  unfold year_categories.
  rewrite merge_sort_Permutation, elem_of_remove_dups, list_elem_of_omap.
  unfold year_category. split.
  - intros (r & Hr & Hk). exists r. destruct (Category r); [|done].
    injection Hk as <-. done.
  - intros (r & Hr & Hy & Hc). exists r. rewrite Hc, Hy. by destruct k.
Qed.

Lemma NoDup_year_categories (df : list ShiftRecord) : NoDup (year_categories df).
Proof. unfold year_categories. rewrite merge_sort_Permutation. apply NoDup_remove_dups. Qed.

Lemma year_category_group_sum (df : list ShiftRecord) (k : Z * string) :
  hsum (map Hours (rows_of_cell Category (fst k) (snd k) df))
  = group_sum year_category (fun r => default 0%Qc (Hours r)) k df.
Proof.
  unfold group_sum, rows_of_cell. rewrite hsum_qsum, map_map. do 2 f_equal.
  apply filter_ext. intros r. unfold year_category. destruct k as [y c]. cbn [fst snd].
  destruct (Category r) as [c'|].
  - destruct (Z.eqb_spec (Year r) y) as [->|Hne]; cbn [andb].
    + destruct (decide (c' = c)) as [->|Hc].
      * by rewrite !bool_decide_eq_true_2.
      * rewrite !bool_decide_eq_false_2; [done|congruence|congruence].
    + rewrite bool_decide_eq_false_2; [done|congruence].
  - rewrite andb_comm. rewrite !bool_decide_eq_false_2; done.
Qed.

Global Instance year_total_order_trans : Transitive year_total_order.
Proof.
  intros a b c. unfold year_total_order. rewrite !Qc_leb_le.
  intros [H1|[H1 H1']] [H2|[H2 H2']]; [left; lia..|].
  right. split; [lia|]. by eapply Qcle_trans.
Qed.

Global Instance year_total_order_total : Total year_total_order.
Proof.
  intros a b. unfold year_total_order. rewrite !Qc_leb_le.
  destruct (Z.lt_trichotomy (cy_Year a) (cy_Year b)) as [H|[H|H]]; [by left; left| |by right; left].
  destruct (Qclt_le_dec (cy_TotalHours a) (cy_TotalHours b)) as [Hq|Hq].
  - right. right. split; [done|]. by apply Qclt_le_weak.
  - left. right. done.
Qed.

(** X21.  The table of totals by year and category has one row for each
    pair of a year and a category that occurs together, with the hours
    of the rows of that pair; it is ordered by year, and by descending
    hours within a year; its totals add up to the hours of the rows that
    have a category. *)
Theorem category_yearly_spec (df : list ShiftRecord) :
  NoDup (map (fun row => (cy_Year row, cy_Category row)) (category_yearly df)) ∧
  (∀ y c, (y, c) ∈ map (fun row => (cy_Year row, cy_Category row)) (category_yearly df)
          ↔ ∃ r, r ∈ df ∧ Year r = y ∧ Category r = Some c) ∧
  (∀ row, row ∈ category_yearly df →
          cy_TotalHours row
          = hsum (map Hours (rows_of_cell Category (cy_Year row) (cy_Category row) df))) ∧
  StronglySorted year_total_order (category_yearly df) ∧
  qsum (map cy_TotalHours (category_yearly df))
  = hsum (map Hours (List.filter (fun r => bool_decide (is_Some (Category r))) df)).
Proof.
  assert (category_yearly df ≡ₚ hours_by_year_category df) as Hp
    by apply stable_sort_Permutation.
  assert (map (fun row => (cy_Year row, cy_Category row)) (hours_by_year_category df)
          = year_categories df) as Hkeys.
  { unfold hours_by_year_category. rewrite map_map. cbn [cy_Year cy_Category].
    rewrite <- (map_id (year_categories df)) at 2. apply map_ext. by intros []. }
  split; [|split; [|split; [|split]]].
  - change (map ?f ?l) with (f <$> l). rewrite Hp.
    change (?f <$> ?l) with (map f l). rewrite Hkeys. apply NoDup_year_categories.
  - intros y c. change (map ?f ?l) with (f <$> l). rewrite Hp.
    change (?f <$> ?l) with (map f l). rewrite Hkeys.
    apply (elem_of_year_categories df (y, c)).
  - intros row. rewrite Hp. unfold hours_by_year_category. rewrite list_elem_of_fmap.
    by intros (k & -> & _).
  - apply stable_sort_sorted; apply _.
  - rewrite (qsum_Permutation _ (map cy_TotalHours (hours_by_year_category df)))
      by (change (map cy_TotalHours ?l) with (cy_TotalHours <$> l); by f_equiv).
    unfold hours_by_year_category. rewrite map_map. cbn [cy_TotalHours].
    rewrite hsum_qsum, map_map.
    rewrite (filter_ext _ (fun r => bool_decide (is_Some (year_category r)))).
    2:{ intros r. unfold year_category.
        destruct (Category r); [by rewrite !bool_decide_eq_true_2 by eauto|].
        by rewrite !bool_decide_eq_false_2 by by intros [? ?]. }
    rewrite <- (sum_of_group_sums year_category (fun r => default 0%Qc (Hours r))
                                  (year_categories df)).
    + f_equal. apply map_ext. intros k. apply year_category_group_sum.
    + apply NoDup_year_categories.
    + intros r k Hr Hk. apply elem_of_year_categories. exists r. split; [done|].
      unfold year_category in Hk. destruct (Category r); [|done]. by injection Hk as <-.
Qed.

(** X22.  The two tables of [compute_category_hours] agree: the total of
    a category is the sum of its totals over the years. *)
Theorem category_tables_agree (df : list ShiftRecord) (row : category_row) :
  row ∈ category_totals df →
  c_TotalHours row
  = qsum (map cy_TotalHours
              (List.filter (fun yrow => String.eqb (cy_Category yrow) (c_Category row))
                           (category_yearly df))).
Proof.
  intros Hrow.
  assert (c_TotalHours row = hsum (map Hours (rows_of_category (c_Category row) df))) as ->.
  { revert Hrow. unfold category_totals. rewrite stable_sort_Permutation.
    unfold hours_by_category. rewrite list_elem_of_fmap. by intros (c & -> & _). }
  set (c := c_Category row). clearbody c. clear row Hrow.
  rewrite (qsum_Permutation _
             (map cy_TotalHours
                  (List.filter (fun yrow => String.eqb (cy_Category yrow) c)
                               (hours_by_year_category df)))).
  2:{ change (map cy_TotalHours ?l) with (cy_TotalHours <$> l). f_equiv.
      apply filter_Permutation', stable_sort_Permutation. }
  unfold hours_by_year_category.
  assert (∀ ks : list (Z * string),
    map cy_TotalHours
      (List.filter (fun yrow => String.eqb (cy_Category yrow) c)
         (map (fun k => {| cy_Year := fst k; cy_Category := snd k;
                           cy_TotalHours :=
                             hsum (map Hours (rows_of_cell Category (fst k) (snd k) df)) |})
              ks))
    = map (fun k => group_sum year_category (fun r => default 0%Qc (Hours r)) k df)
          (List.filter (fun k => String.eqb (snd k) c) ks)) as ->.
  { induction ks as [|k ks IH]; [done|]. cbn [map List.filter cy_Category].
    destruct (String.eqb (snd k) c); cbn [map cy_TotalHours]; rewrite IH; [|done].
    by rewrite year_category_group_sum. }
  rewrite (sum_of_selected_group_sums year_category _ (fun k => String.eqb (snd k) c)).
  - unfold rows_of_category. rewrite hsum_qsum, map_map. do 2 f_equal.
    apply filter_ext. intros r. unfold year_category.
    destruct (Category r) as [c'|]; cbn [snd].
    + destruct (String.eqb_spec c' c) as [->|Hne].
      * by rewrite bool_decide_eq_true_2.
      * rewrite bool_decide_eq_false_2; [done|congruence].
    + by rewrite bool_decide_eq_false_2.
  - apply NoDup_year_categories.
  - intros r k Hr Hk. apply elem_of_year_categories. exists r. split; [done|].
    unfold year_category in Hk. destruct (Category r); [|done]. by injection Hk as <-.
Qed.

(** *** Yearly engagement *)

Lemma StronglySorted_filter_bool {A : Type} (R : relation A) (f : A -> bool) (l : list A) :
  StronglySorted R l → StronglySorted R (List.filter f l).
Proof.
  induction 1 as [|x l Hl IH Hx]; cbn [List.filter]; [constructor|].
  destruct (f x); [|done]. constructor; [done|].
  rewrite Forall_forall in Hx |- *. intros y Hy. apply filter_elem_of in Hy as [Hy _]. auto.
Qed.

Global Instance year_volunteer_le_trans : Transitive year_volunteer_le.
Proof. intros a b c. unfold year_volunteer_le. lia. Qed.

Global Instance year_volunteer_le_total : Total year_volunteer_le.
Proof. intros a b. unfold year_volunteer_le. lia. Qed.

Lemma unique_sorted_sorted (l : list Z) : StronglySorted Z.le (unique_sorted l).
Proof. apply StronglySorted_merge_sort; apply _. Qed.

Lemma elem_of_year_volunteers (df : list ShiftRecord) (k : Z * Z) :
  k ∈ year_volunteers df ↔ ∃ r, r ∈ df ∧ Year r = fst k ∧ VolunteerID r = Some (snd k).
Proof.
  unfold year_volunteers.
  rewrite merge_sort_Permutation, elem_of_remove_dups, list_elem_of_omap.
  unfold year_volunteer. split.
  - intros (r & Hr & Hk). exists r. destruct (VolunteerID r); [|done].
    injection Hk as <-. done.
  - intros (r & Hr & Hy & Hc). exists r. rewrite Hc, Hy. by destruct k.
Qed.

Lemma NoDup_year_volunteers (df : list ShiftRecord) : NoDup (year_volunteers df).
Proof. unfold year_volunteers. rewrite merge_sort_Permutation. apply NoDup_remove_dups. Qed.

(** The keys of one year are the volunteers of the rows of that year, in
    the same order. *)
Lemma year_volunteers_of_year (df : list ShiftRecord) (y : Z) :
  List.filter (fun k => fst k =? y) (year_volunteers df)
  = map (fun v => (y, v)) (volunteers (rows_of_year y df)).
Proof.
  set (ks := List.filter (fun k => fst k =? y) (year_volunteers df)).
  assert (∀ k, k ∈ ks → fst k = y) as Hfst.
  { intros k Hk. apply filter_elem_of in Hk as [_ Hk]. by apply Z.eqb_eq. }
  assert (ks = map (fun v => (y, v)) (map snd ks)) as ->.
  { rewrite map_map. clear -Hfst. induction ks as [|k ks IH]; [done|].
    cbn [map]. rewrite <- IH by (intros k' Hk'; apply Hfst; by right).
    f_equal. destruct k as [y' v]. cbn [snd]. f_equal. apply (Hfst (y', v)). left. }
  f_equal. apply (StronglySorted_unique Z.le).
  - assert (StronglySorted year_volunteer_le ks) as HS.
    { apply StronglySorted_filter_bool. unfold year_volunteers.
      apply StronglySorted_merge_sort; apply _. }
    clear -HS Hfst. induction HS as [|k ks HS IH Hk]; [constructor|].
    cbn [map]. constructor.
    + apply IH. intros k' Hk'. apply Hfst. by right.
    + rewrite Forall_forall in Hk. rewrite Forall_forall. intros v Hv.
      apply list_elem_of_fmap in Hv as (k' & -> & Hk').
      specialize (Hk k' Hk'). unfold year_volunteer_le in Hk.
      rewrite (Hfst k), (Hfst k') in Hk by (by left + by right). lia.
  - apply unique_sorted_sorted.
  - apply NoDup_Permutation.
    + apply (NoDup_fmap_2_strong snd).
      * intros k1 k2 Hk1 Hk2 Hs. destruct k1, k2. cbn [snd] in Hs.
        pose proof (Hfst _ Hk1) as H1. pose proof (Hfst _ Hk2) as H2.
        cbn [fst] in H1, H2. congruence.
      * apply NoDup_filter_bool, NoDup_year_volunteers.
    + apply NoDup_volunteers.
    + intros v. rewrite elem_of_volunteers. change (map snd ks) with (snd <$> ks).
      rewrite list_elem_of_fmap. split.
      * intros (k & -> & Hk). apply filter_elem_of in Hk as [Hk Hy].
        apply Z.eqb_eq in Hy. apply elem_of_year_volunteers in Hk as (r & Hr & Hyr & Hv).
        exists r. split; [|done]. apply elem_of_rows_of_year. split; [done|]. lia.
      * intros (r & Hr & Hv). apply elem_of_rows_of_year in Hr as [Hr Hy].
        exists (y, v). split; [done|]. apply filter_elem_of. split; [|by apply Z.eqb_eq].
        apply elem_of_year_volunteers. exists r. done.
Qed.

(** The totals of one year are the sums by volunteer of the rows of that
    year. *)
Lemma hours_by_year_volunteer_of_year (df : list ShiftRecord) (y : Z) :
  map snd (List.filter (fun t => fst (fst t) =? y) (hours_by_year_volunteer df))
  = map snd (hours_by_volunteer (rows_of_year y df)).
Proof.
  unfold hours_by_year_volunteer.
  rewrite (filter_map_comm _ _ (fun k => fst k =? y)) by done.
  rewrite year_volunteers_of_year. unfold hours_by_volunteer.
  rewrite !map_map. cbn [fst snd]. apply map_ext. intros v. do 2 f_equal.
  unfold rows_of_volunteer, rows_of_year.
  induction df as [|r df IH]; [done|]. cbn [List.filter].
  destruct (Year r =? y); cbn [andb List.filter]; [|done].
  destruct (bool_decide _); by rewrite IH.
Qed.

Lemma engagement_years (df : list ShiftRecord) :
  map fst (compute_yearly_engagement df)
  = List.filter (has_volunteer df) (unique_sorted (map Year df)).
Proof.
  unfold compute_yearly_engagement. cbv zeta. rewrite map_map. cbn [fst]. rewrite map_id.
  apply (StronglySorted_unique Z.le).
  - apply unique_sorted_sorted.
  - apply StronglySorted_filter_bool, unique_sorted_sorted.
  - apply NoDup_Permutation.
    + apply NoDup_unique_sorted.
    + apply NoDup_filter_bool, NoDup_unique_sorted.
    + intros y. rewrite elem_of_unique_sorted, filter_elem_of, elem_of_unique_sorted,
        has_volunteer_spec.
      unfold hours_by_year_volunteer. rewrite map_map. cbn [fst].
      change (map ?f ?l) with (f <$> l). rewrite !list_elem_of_fmap. split.
      * intros (k & -> & Hk). apply elem_of_year_volunteers in Hk as (r & Hr & Hy & Hv).
        split; [by exists r|]. exists r, (snd k). done.
      * intros [_ (r & v & Hr & Hy & Hv)]. exists (y, v). split; [done|].
        apply elem_of_year_volunteers. by exists r.
Qed.

Lemma top20_years (df : list ShiftRecord) :
  map t_Year (compute_top20_engagement df)
  = List.filter (has_volunteer df) (unique_sorted (map Year df)).
Proof.
  unfold compute_top20_engagement.
  rewrite (omap_keys _ t_Year) by apply top20_of_year_Year.
  apply List.filter_ext. intros y. apply top20_of_year_is_Some.
Qed.

(** X23.  The yearly engagement table and the top 20% table describe the
    same years, in the same order: the years in which some row carries a
    volunteer id; for each year the count of the first is the number of
    volunteers of the second, and it is at least 1. *)
Theorem yearly_engagement_matches_top20 (df : list ShiftRecord) :
  map fst (compute_yearly_engagement df) = map t_Year (compute_top20_engagement df) ∧
  (∀ y, y ∈ map fst (compute_yearly_engagement df)
        ↔ ∃ r v, r ∈ df ∧ Year r = y ∧ VolunteerID r = Some v) ∧
  ∀ y d, (y, d) ∈ compute_yearly_engagement df →
    ∃ row, row ∈ compute_top20_engagement df ∧ t_Year row = y ∧
      d_count d = t_TotalVolunteers row ∧
      1 <= d_count d.
Proof.
  split; [by rewrite engagement_years, top20_years|]. split.
  { intros y. rewrite engagement_years, filter_elem_of, elem_of_unique_sorted,
      has_volunteer_spec. split; [by intros [_ H]|].
    intros (r & v & Hr & Hy & Hv). split; [|eauto].
    apply list_elem_of_fmap. by exists r. }
  intros y d Hin.
  assert (y ∈ map fst (compute_yearly_engagement df)) as Hy.
  { change (map fst ?l) with (fst <$> l). apply list_elem_of_fmap. by exists (y, d). }
  rewrite engagement_years, <- top20_years in Hy.
  change (map t_Year ?l) with (t_Year <$> l) in Hy.
  apply list_elem_of_fmap in Hy as (row & -> & Hrow).
  exists row. split; [done|]. split; [done|].
  unfold compute_yearly_engagement in Hin. cbv zeta in Hin.
  apply list_elem_of_fmap in Hin as (y & [= Hy ->] & _).
  rewrite hours_by_year_volunteer_of_year. rewrite <- Hy. clear y Hy.
  unfold compute_top20_engagement in Hrow. apply list_elem_of_omap in Hrow as (yr & _ & Hrow).
  pose proof (top20_of_year_Year _ _ _ Hrow) as ->.
  unfold top20_of_year in Hrow.
  destruct (totals_of_year df yr) as [|t0 ts] eqn:Et; [done|].
  rewrite <- Et in *. injection Hrow as <-.
  cbn [t_TotalVolunteers d_count describe].
  assert (totals_of_year df yr ≡ₚ hours_by_volunteer (rows_of_year yr df)) as Hp
    by apply sort_values_desc_Permutation.
  assert (length (map snd (hours_by_volunteer (rows_of_year yr df)))
          = length (totals_of_year df yr)) as Hlen by by rewrite length_map, Hp.
  assert (length (totals_of_year df yr) ≠ 0%nat) as Hne by (rewrite Et; done).
  split; [by rewrite Hlen|]. lia.
Qed.

(** *** The statistics of [describe] *)

Global Instance hours_asc_trans : Transitive hours_asc.
Proof.
  intros a b c. unfold hours_asc. rewrite !Qc_leb_le. intros H1 H2. by eapply Qcle_trans.
Qed.

Global Instance hours_asc_total : Total hours_asc.
Proof.
  intros a b. unfold hours_asc. rewrite !Qc_leb_le.
  destruct (Qclt_le_dec a b) as [H|H]; [left; by apply Qclt_le_weak|by right].
Qed.

Lemma sort_values_asc_Permutation (l : list Qc) : sort_values_asc l ≡ₚ l.
Proof. apply merge_sort_Permutation. Qed.

Lemma sort_values_asc_sorted (l : list Qc) : StronglySorted hours_asc (sort_values_asc l).
Proof. apply StronglySorted_merge_sort; apply _. Qed.

Lemma sorted_nth (a : list Qc) (i j : nat) (d1 d2 : Qc) :
  StronglySorted hours_asc a → (i <= j < length a)%nat → (nth i a d1 <= nth j a d2)%Qc.
Proof.
  intros HS. revert i j. induction HS as [|x a HS IH Hx]; intros i j Hij.
  - cbn [length] in Hij. lia.
  - cbn [length] in Hij. destruct i as [|i], j as [|j]; cbn [nth]; [apply Qcle_refl| |lia|].
    + rewrite Forall_forall in Hx. apply Qc_leb_le, Hx, list_elem_of_In, nth_In. lia.
    + apply IH. lia.
Qed.

Lemma Qc_floor_le (x : Qc) : (Qc_of_Z (Qfloor x) <= x)%Qc.
Proof. unfold Qcle. cbn [this Qc_of_Z]. apply Qfloor_le. Qed.

Lemma Qc_lt_floor (x : Qc) : (x < Qc_of_Z (Qfloor x + 1))%Qc.
Proof. unfold Qclt. cbn [this Qc_of_Z]. apply Qlt_floor. Qed.

Lemma Qc_floor_mono (x y : Qc) : (x <= y)%Qc → Qfloor x <= Qfloor y.
Proof. apply Qfloor_resp_le. Qed.

Lemma Qc_floor_of_Z (z : Z) : Qfloor (Qc_of_Z z) = z.
Proof. cbn [this Qc_of_Z]. apply Qfloor_Z. Qed.

Lemma lerp_lower (a b t : Qc) : (a <= b)%Qc → (0 <= t)%Qc → (a <= a + (b - a) * t)%Qc.
Proof.
  intros Hab Ht. rewrite <- (Qcplus_0_r a) at 1. apply Qcplus_le_mono_l.
  apply Qcmult_nonneg_nonneg; [|done]. by apply Qcle_minus_iff in Hab.
Qed.

Lemma lerp_mono (a b t t' : Qc) :
  (a <= b)%Qc → (t <= t')%Qc → (a + (b - a) * t <= a + (b - a) * t')%Qc.
Proof.
  intros Hab Ht. apply Qcplus_le_mono_l.
  rewrite !(Qcmult_comm (b - a)). apply Qcmult_le_mono_nonneg_r; [|done].
  by apply Qcle_minus_iff in Hab.
Qed.

Lemma lerp_upper (a b t : Qc) : (a <= b)%Qc → (t <= 1)%Qc → (a + (b - a) * t <= b)%Qc.
Proof.
  intros Hab Ht. replace b with (a + (b - a) * 1)%Qc at 2 by ring.
  by apply lerp_mono.
Qed.

Section Interpolation.
Variable a : list Qc.
Hypothesis a_sorted : StronglySorted hours_asc a.

Lemma interpolate_lower (pos : Qc) :
  (0 <= pos <= Qc_of_Z (Z.of_nat (length a) - 1))%Qc →
  (nth (Z.to_nat (Qfloor pos)) a 0 <= interpolate a pos)%Qc ∧
  (Z.to_nat (Qfloor pos) < length a)%nat.
Proof.
  intros [H0 Hn]. unfold interpolate. cbv zeta.
  assert (0 <= Qfloor pos <= Z.of_nat (length a) - 1) as Hlo.
  { split.
    - rewrite <- (Qc_floor_of_Z 0). by apply Qc_floor_mono.
    - rewrite <- (Qc_floor_of_Z (Z.of_nat (length a) - 1)). by apply Qc_floor_mono. }
  split; [|lia].
  apply lerp_lower.
  - destruct (decide (Z.to_nat (Qfloor pos + 1) < length a)%nat) as [Hlt|Hge].
    + apply sorted_nth; [done|lia].
    + rewrite (nth_overflow a (n := Z.to_nat (Qfloor pos + 1))) by lia. apply Qcle_refl.
  - apply (proj1 (Qcle_minus_iff (Qc_of_Z (Qfloor pos)) pos)). apply Qc_floor_le.
Qed.

Lemma interpolate_upper (pos : Qc) (j : nat) :
  (0 <= pos <= Qc_of_Z (Z.of_nat (length a) - 1))%Qc →
  (Z.to_nat (Qfloor pos) < j < length a)%nat ∨ j = (length a - 1)%nat →
  (interpolate a pos <= nth j a 0)%Qc.
Proof.
  intros [H0 Hn] Hj. unfold interpolate. cbv zeta.
  assert (0 <= Qfloor pos <= Z.of_nat (length a) - 1) as Hlo.
  { split.
    - rewrite <- (Qc_floor_of_Z 0). by apply Qc_floor_mono.
    - rewrite <- (Qc_floor_of_Z (Z.of_nat (length a) - 1)). by apply Qc_floor_mono. }
  assert (pos - Qc_of_Z (Qfloor pos) <= 1)%Qc as Hfrac.
  { pose proof (Qc_lt_floor pos) as Hlt. rewrite Z2Qc_inj_add, Z2Qc_inj_1 in Hlt.
    apply Qclt_le_weak in Hlt. apply Qcle_minus_iff in Hlt. apply Qcle_minus_iff.
    replace (1 + - (pos - Qc_of_Z (Qfloor pos)))%Qc
      with (Qc_of_Z (Qfloor pos) + 1 + - pos)%Qc by ring. done. }
  destruct (decide (Z.to_nat (Qfloor pos + 1) < length a)%nat) as [Hlt|Hge].
  - eapply Qcle_trans.
    + apply lerp_upper; [|done]. apply sorted_nth; [done|lia].
    + apply sorted_nth; [done|lia].
  - rewrite (nth_overflow a (n := Z.to_nat (Qfloor pos + 1))) by lia.
    eapply Qcle_trans.
    + apply lerp_upper; [apply Qcle_refl|done].
    + apply sorted_nth; [done|lia].
Qed.

Lemma interpolate_mono (pos pos' : Qc) :
  (0 <= pos)%Qc → (pos <= pos')%Qc → (pos' <= Qc_of_Z (Z.of_nat (length a) - 1))%Qc →
  (interpolate a pos <= interpolate a pos')%Qc.
Proof.
  intros H0 Hle Hn.
  assert (0 <= pos')%Qc as H0' by by eapply Qcle_trans.
  assert (pos <= Qc_of_Z (Z.of_nat (length a) - 1))%Qc as Hn' by by eapply Qcle_trans.
  pose proof (Qc_floor_mono pos pos' Hle) as Hfl.
  assert (0 <= Qfloor pos) as Hlo0.
  { rewrite <- (Qc_floor_of_Z 0). by apply Qc_floor_mono. }
  destruct (decide (Qfloor pos = Qfloor pos')) as [Heq|Hne].
  - unfold interpolate. cbv zeta. rewrite <- Heq. apply lerp_mono.
    + destruct (decide (Z.to_nat (Qfloor pos + 1) < length a)%nat) as [Hlt|Hge].
      * apply sorted_nth; [done|lia].
      * rewrite (nth_overflow a (n := Z.to_nat (Qfloor pos + 1))) by lia. apply Qcle_refl.
    + by apply Qcplus_le_mono_r.
  - destruct (interpolate_lower pos' (conj H0' Hn)) as [Hlow Hlt].
    eapply Qcle_trans; [|exact Hlow].
    apply interpolate_upper; [done|]. left. lia.
Qed.

End Interpolation.

Lemma series_min_spec (l : list Qc) :
  l ≠ [] → ∃ m, series_min l = Fin m ∧ m ∈ l ∧ ∀ x, x ∈ l → (m <= x)%Qc.
Proof.
  destruct l as [|x0 l]; [done|]. intros _. cbn [series_min]. eexists. split; [done|].
  induction l as [|x l [IHin IHle]]; cbn [foldr].
  - split; [left|]. intros x Hx. apply list_elem_of_singleton in Hx as ->. apply Qcle_refl.
  - unfold qmin at 1 3. destruct (Qc_leb x (foldr qmin x0 l)) eqn:E.
    + apply Qc_leb_le in E. split; [right; left|].
      intros y Hy. apply elem_of_cons in Hy as [->|Hy].
      * eapply Qcle_trans; [exact E|]. apply IHle. left.
      * apply elem_of_cons in Hy as [->|Hy]; [apply Qcle_refl|].
        eapply Qcle_trans; [exact E|]. apply IHle. by right.
    + assert (foldr qmin x0 l <= x)%Qc as Hlt.
      { destruct (Qclt_le_dec (foldr qmin x0 l) x) as [H|H]; [by apply Qclt_le_weak|].
        apply Qc_leb_le in H. congruence. }
      split.
      * apply elem_of_cons in IHin as [->|IHin]; [left|right; by right].
      * intros y Hy. apply elem_of_cons in Hy as [->|Hy]; [apply IHle; left|].
        apply elem_of_cons in Hy as [->|Hy]; [done|]. apply IHle. by right.
Qed.

Lemma series_max_spec (l : list Qc) :
  l ≠ [] → ∃ m, series_max l = Fin m ∧ m ∈ l ∧ ∀ x, x ∈ l → (x <= m)%Qc.
Proof.
  destruct l as [|x0 l]; [done|]. intros _. cbn [series_max]. eexists. split; [done|].
  induction l as [|x l [IHin IHle]]; cbn [foldr].
  - split; [left|]. intros x Hx. apply list_elem_of_singleton in Hx as ->. apply Qcle_refl.
  - unfold qmax at 1 3. destruct (Qc_leb x (foldr qmax x0 l)) eqn:E.
    + apply Qc_leb_le in E. split.
      * apply elem_of_cons in IHin as [->|IHin]; [left|right; by right].
      * intros y Hy. apply elem_of_cons in Hy as [->|Hy]; [apply IHle; left|].
        apply elem_of_cons in Hy as [->|Hy]; [done|]. apply IHle. by right.
    + assert (foldr qmax x0 l <= x)%Qc as Hlt.
      { destruct (Qclt_le_dec (foldr qmax x0 l) x) as [H|H]; [by apply Qclt_le_weak|].
        apply Qc_leb_le in H. congruence. }
      split; [right; left|].
      intros y Hy. apply elem_of_cons in Hy as [->|Hy].
      * eapply Qcle_trans; [|exact Hlt]. apply IHle. left.
      * apply elem_of_cons in Hy as [->|Hy]; [apply Qcle_refl|].
        eapply Qcle_trans; [|exact Hlt]. apply IHle. by right.
Qed.

Lemma qsum_squares_nonneg (m : Qc) (l : list Qc) :
  (0 <= qsum (map (fun x => (x - m) * (x - m)) l))%Qc.
Proof.
  induction l as [|x l IH]; cbn [map qsum foldr]; [apply Qcle_refl|].
  fold (qsum (map (fun x => (x - m) * (x - m))%Qc l)).
  rewrite <- (Qcplus_0_r 0). apply Qcplus_le_compat; [|done].
  destruct (Qclt_le_dec (x - m) 0) as [H|H].
  - replace ((x - m) * (x - m))%Qc with ((- (x - m)) * (- (x - m)))%Qc by ring.
    assert (0 <= - (x - m))%Qc as Hn.
    { apply Qclt_le_weak in H. apply Qcle_minus_iff in H. by rewrite Qcplus_0_l in H. }
    by apply Qcmult_nonneg_nonneg.
  - by apply Qcmult_nonneg_nonneg.
Qed.

(** The statistics of a series that is not empty. *)
Lemma describe_nonempty (l : list Qc) :
  l ≠ [] →
  ∃ mn q1 q2 q3 mx mean,
    d_min (describe l) = Fin mn ∧ d_25 (describe l) = Fin q1 ∧
    d_50 (describe l) = Fin q2 ∧ d_75 (describe l) = Fin q3 ∧
    d_max (describe l) = Fin mx ∧ d_mean (describe l) = Fin mean ∧
    mn ∈ l ∧ mx ∈ l ∧
    (mn <= q1 <= q2)%Qc ∧ (q2 <= q3 <= mx)%Qc ∧
    mean = (qsum l / Qc_of_Z (Z.of_nat (length l)))%Qc ∧
    (d_count (describe l) = 1 → d_std (describe l) = StdNaN ∧ mn = mx) ∧
    (1 < d_count (describe l) →
     ∃ var, d_std (describe l) = StdSqrt var ∧ (0 <= var)%Qc).
Proof.
  intros Hne.
  destruct (series_min_spec l Hne) as (mn & Emn & Hmn_in & Hmn).
  destruct (series_max_spec l Hne) as (mx & Emx & Hmx_in & Hmx).
  cbn [describe d_min d_25 d_50 d_75 d_max d_mean d_count d_std].
  rewrite Emn, Emx. unfold quantile. destruct l as [|x0 l0] eqn:El; [done|].
  rewrite <- El in *. rewrite (fmean_nonempty l Hne).
  do 6 eexists. do 6 (split; [reflexivity|]). split; [done|]. split; [done|].
  set (a := sort_values_asc l).
  assert (length a = length l) as Hla by (unfold a; by rewrite sort_values_asc_Permutation).
  assert (StronglySorted hours_asc a) as HS by apply sort_values_asc_sorted.
  assert (∀ i, (i < length a)%nat → nth i a 0%Qc ∈ l) as Hnth.
  { intros i Hi. rewrite <- (sort_values_asc_Permutation l). fold a.
    by apply list_elem_of_In, nth_In. }
  assert (0 < length l)%nat as Hlen by (rewrite El; cbn [length]; lia).
  set (n1 := Qc_of_Z (Z.of_nat (length l) - 1)).
  assert (0 <= n1)%Qc as Hn1 by (apply Qc_of_Z_nonneg; lia).
  assert (∀ q : Qc, (0 <= q)%Qc → (q <= 1)%Qc →
            (0 <= n1 * q <= Qc_of_Z (Z.of_nat (length a) - 1))%Qc) as Hpos.
  { intros q H0 H1. rewrite Hla. fold n1. split.
    - by apply Qcmult_nonneg_nonneg.
    - rewrite <- (Qcmult_1_r n1) at 2. rewrite !(Qcmult_comm n1).
      by apply Qcmult_le_mono_nonneg_r. }
  assert (∀ q q' : Qc, (0 <= q)%Qc → (q <= q')%Qc → (q' <= 1)%Qc →
            (interpolate a (n1 * q) <= interpolate a (n1 * q'))%Qc) as Hmono.
  { intros q q' H0 Hqq H1. apply interpolate_mono; [done| | |].
    - by apply Qcmult_nonneg_nonneg.
    - rewrite !(Qcmult_comm n1). by apply Qcmult_le_mono_nonneg_r.
    - apply Hpos; [by eapply Qcle_trans|done]. }
  assert (∀ q : Qc, (0 <= q)%Qc → (q <= 1)%Qc → (mn <= interpolate a (n1 * q) <= mx)%Qc)
    as Hbounds.
  { intros q H0 H1. split.
    - destruct (interpolate_lower a HS (n1 * q)%Qc (Hpos q H0 H1)) as [Hlow Hlt].
      eapply Qcle_trans; [|exact Hlow]. by apply Hmn, Hnth.
    - eapply Qcle_trans.
      + apply (interpolate_upper a HS (n1 * q)%Qc (length a - 1)%nat (Hpos q H0 H1)).
        by right.
      + apply Hmx, Hnth. lia. }
  assert (0 <= Q2Qc (1 # 4))%Qc as H14 by done.
  assert (Q2Qc (1 # 4) <= Q2Qc (1 # 2))%Qc as H12 by done.
  assert (Q2Qc (1 # 2) <= Q2Qc (3 # 4))%Qc as H34 by done.
  assert (Q2Qc (3 # 4) <= 1)%Qc as H1 by done.
  assert (0 <= Q2Qc (1 # 2))%Qc as H012 by done.
  assert (Q2Qc (1 # 2) <= 1)%Qc as H121 by done.
  assert (Q2Qc (1 # 4) <= 1)%Qc as H141 by done.
  assert (0 <= Q2Qc (3 # 4))%Qc as H034 by done.
  split; [split; [by apply Hbounds|by apply Hmono]|].
  split; [split; [by apply Hmono|by apply Hbounds]|].
  split; [done|].
  - split.
    + intros Hc. unfold series_std. rewrite (fmean_nonempty l Hne).
      assert (length l = 1%nat) as Hl1 by lia. rewrite Hl1. cbn [Nat.leb]. split; [done|].
      destruct l as [|x [|? ?]]; [done| |done].
      apply list_elem_of_singleton in Hmn_in, Hmx_in. congruence.
    + intros Hc. unfold series_std. rewrite (fmean_nonempty l Hne).
      destruct (length l <=? 1)%nat eqn:E; [apply Nat.leb_le in E; lia|].
      eexists. split; [done|].
      apply Qcdiv_le_lower; [apply Qc_of_Z_pos; lia|].
      rewrite Qcmult_0_l. apply qsum_squares_nonneg.
Qed.

(** X24.  In a row of the yearly engagement table the statistics are
    finite; minimum, quartiles and maximum are in ascending order;
    minimum and maximum are the smallest and the largest total of a
    volunteer of the year; with one volunteer the standard deviation is
    NaN and minimum and maximum coincide; with more, it is the square
    root of a variance that is not negative. *)
Theorem yearly_engagement_statistics (df : list ShiftRecord) (y : Z) (d : describe_row) :
  (y, d) ∈ compute_yearly_engagement df →
  ∃ mn q1 q2 q3 mx mean,
    d_min d = Fin mn ∧ d_25 d = Fin q1 ∧ d_50 d = Fin q2 ∧ d_75 d = Fin q3 ∧
    d_max d = Fin mx ∧ d_mean d = Fin mean ∧
    (mn <= q1 <= q2)%Qc ∧ (q2 <= q3 <= mx)%Qc ∧
    (∃ v, (v, mn) ∈ hours_by_volunteer (rows_of_year y df)) ∧
    (∃ v, (v, mx) ∈ hours_by_volunteer (rows_of_year y df)) ∧
    (∀ v h, (v, h) ∈ hours_by_volunteer (rows_of_year y df) → (mn <= h <= mx)%Qc) ∧
    (d_count d = 1 → d_std d = StdNaN ∧ mn = mx) ∧
    (1 < d_count d → ∃ var, d_std d = StdSqrt var ∧ (0 <= var)%Qc).
Proof.
  intros Hin.
  unfold compute_yearly_engagement in Hin. cbv zeta in Hin.
  apply list_elem_of_fmap in Hin as (y' & [= Hy ->] & Hy'). subst y'.
  assert (map snd (List.filter (fun t => fst (fst t) =? y) (hours_by_year_volunteer df)) ≠ [])
    as Hne.
  { apply elem_of_unique_sorted, list_elem_of_fmap in Hy' as (t & -> & Ht).
    intros E. apply map_eq_nil in E.
    pose proof (proj1 (filter_nil_iff _ _) E t Ht) as Hf. cbv beta in Hf.
    by rewrite Z.eqb_refl in Hf. }
  rewrite hours_by_year_volunteer_of_year in *.
  set (l := map snd (hours_by_volunteer (rows_of_year y df))) in *.
  destruct (describe_nonempty l Hne)
    as (mn & q1 & q2 & q3 & mx & mean & H1 & H2 & H3 & H4 & H5 & H6 & Hmn & Hmx &
        H7 & H8 & H9 & H10 & H11).
  exists mn, q1, q2, q3, mx, mean. do 8 (split; [done|]).
  split; [|split; [|split; [|done]]].
  - apply list_elem_of_fmap in Hmn as ([v h] & -> & Hvh). by exists v.
  - apply list_elem_of_fmap in Hmx as ([v h] & -> & Hvh). by exists v.
  - intros v h Hvh.
    assert (h ∈ l) as Hh by (apply list_elem_of_fmap; by exists (v, h)).
    clear -Hh H1 H5 Hne. cbn [describe d_min d_max] in H1, H5.
    destruct (series_min_spec l Hne) as (mn' & E1 & _ & Hle1).
    destruct (series_max_spec l Hne) as (mx' & E2 & _ & Hle2).
    rewrite E1 in H1. rewrite E2 in H5. injection H1 as ->. injection H5 as ->. auto.
Qed.

(** *** Demand analysis: volatility labels *)



(** *** Demand analysis: shares by day of the week *)




Lemma filter_all {A : Type} (f : A -> bool) (l : list A) :
  (∀ x, f x = true) → List.filter f l = l.
Proof.
  intros H. induction l as [|x l IH]; [done|]. cbn [List.filter]. by rewrite H, IH.
Qed.





(** *** Demand analysis: the yearly table *)

Lemma length_pct_change (s : list Qc) : length (Demand.pct_change s) = length s.
Proof.
  destruct s as [|x rest]; [done|]. cbn [Demand.pct_change length]. f_equal.
  rewrite length_zip_with. cbn [length]. lia.
Qed.

Lemma pct_change_lookup_0 (s : list Qc) (g : fnum) :
  Demand.pct_change s !! 0%nat = Some g → g = NaN.
Proof. destruct s; [done|]. cbn. congruence. Qed.

Lemma pct_change_lookup_S (s : list Qc) (i : nat) (prev cur : Qc) :
  s !! i = Some prev → s !! S i = Some cur →
  Demand.pct_change s !! S i = Some (Demand.fsub1 (fdiv cur prev)).
Proof.
  intros Hp Hc. destruct s as [|x rest]; [done|].
  cbn [Demand.pct_change]. rewrite lookup_cons_ne_0 by done. cbn [Nat.pred].
  change ((x :: rest) !! S i) with (rest !! i) in Hc.
  by rewrite lookup_zip_with, Hp, Hc.
Qed.

Lemma yearly_sums_total (col : Demand.day_row -> option Qc) (df : list Demand.day_row) :
  qsum (map (fun y => hsum (map col (Demand.rows_of_year y df)))
            (unique_sorted (map Demand.Year df)))
  = hsum (map col df).
Proof.
  rewrite hsum_qsum, map_map.
  rewrite <- (filter_all (fun r => bool_decide (is_Some (Some (Demand.Year r)))) df)
    at 2 by (intros r; by rewrite bool_decide_eq_true_2 by eauto).
  rewrite <- (sum_of_group_sums (fun r => Some (Demand.Year r))
                (fun r => default 0%Qc (col r))
                (unique_sorted (map Demand.Year df))).
  - f_equal. apply map_ext. intros y. unfold group_sum, Demand.rows_of_year.
    rewrite hsum_qsum, map_map. do 2 f_equal. apply filter_ext. intros r.
    destruct (Z.eqb_spec (Demand.Year r) y) as [->|Hne].
    + by rewrite bool_decide_eq_true_2.
    + rewrite bool_decide_eq_false_2; [done|congruence].
  - apply NoDup_unique_sorted.
  - intros r y Hr [= <-]. apply elem_of_unique_sorted, list_elem_of_fmap. eauto.
Qed.

Lemma fsub1_fdiv (cur prev : Qc) :
  prev ≠ 0%Qc → Demand.fsub1 (fdiv cur prev) = Fin ((cur - prev) / prev)%Qc.
Proof.
  intros H. rewrite fdiv_nonzero by done. cbn [Demand.fsub1]. f_equal. by field.
Qed.

(** The row of the yearly table at a position. *)
Lemma yearly_summary_lookup (df : list Demand.day_row) (i : nat) (row : Demand.yearly_row) :
  Demand.yearly_summary df !! i = Some row →
  let trips := map (fun y => hsum (map Demand.ShoppingTrips (Demand.rows_of_year y df)))
                   (unique_sorted (map Demand.Year df)) in
  let lbs := map (fun y => hsum (map Demand.Quantity (Demand.rows_of_year y df)))
                 (unique_sorted (map Demand.Year df)) in
  unique_sorted (map Demand.Year df) !! i = Some (Demand.y_Year row) ∧
  trips !! i = Some (Demand.y_ShoppingTrips row) ∧
  lbs !! i = Some (Demand.y_Quantity row) ∧
  Demand.y_ShoppingTrips row
  = hsum (map Demand.ShoppingTrips (Demand.rows_of_year (Demand.y_Year row) df)) ∧
  Demand.y_Quantity row
  = hsum (map Demand.Quantity (Demand.rows_of_year (Demand.y_Year row) df)) ∧
  Demand.y_lbs_per_visit row = fdiv (Demand.y_Quantity row) (Demand.y_ShoppingTrips row) ∧
  Demand.pct_change trips !! i = Some (Demand.y_yoy_demand_growth row) ∧
  Demand.pct_change lbs !! i = Some (Demand.y_yoy_distribution_growth row).
Proof.
  unfold Demand.yearly_summary. cbv zeta. intros H.
  apply lookup_zip_with_Some in H as ([y [t q]] & [g1 g2] & -> & Hrow & Hg).
  apply lookup_zip_with_Some in Hrow as (y' & tq & [= <- <-] & Hy & Htq).
  apply lookup_zip_with_Some in Htq as (t' & q' & [= <- <-] & Ht & Hq).
  apply lookup_zip_with_Some in Hg as (a & b & [= <- <-] & Hg1 & Hg2).
  cbn [Demand.y_Year Demand.y_ShoppingTrips Demand.y_Quantity Demand.y_lbs_per_visit
       Demand.y_yoy_demand_growth Demand.y_yoy_distribution_growth fst snd].
  pose proof Ht as Ht'. pose proof Hq as Hq'.
  apply (list_lookup_fmap_Some_1 _ (unique_sorted (map Demand.Year df))) in Ht'
    as (y1 & -> & Hy1).
  apply (list_lookup_fmap_Some_1 _ (unique_sorted (map Demand.Year df))) in Hq'
    as (y2 & -> & Hy2).
  assert (y1 = y) as -> by congruence. assert (y2 = y) as -> by congruence.
  repeat (split; [done|]). done.
Qed.

(** X27.  The yearly table of [yearly_summary] has one row for each year
    that occurs, in ascending order, with the sums of the year and their
    quotient; the sums add up to the sums of the whole columns; the
    growth of the first row is NaN; the growth of any other row is
    taken from the row before it, which is an earlier year present in
    the data, and is [(cur - prev) / prev] when [prev] is not 0. *)
Theorem yearly_summary_spec (df : list Demand.day_row) :
  map Demand.y_Year (Demand.yearly_summary df) = unique_sorted (map Demand.Year df) ∧
  (∀ row, row ∈ Demand.yearly_summary df →
     Demand.y_ShoppingTrips row
     = hsum (map Demand.ShoppingTrips (Demand.rows_of_year (Demand.y_Year row) df)) ∧
     Demand.y_Quantity row
     = hsum (map Demand.Quantity (Demand.rows_of_year (Demand.y_Year row) df)) ∧
     Demand.y_lbs_per_visit row
     = fdiv (Demand.y_Quantity row) (Demand.y_ShoppingTrips row)) ∧
  qsum (map Demand.y_ShoppingTrips (Demand.yearly_summary df))
  = hsum (map Demand.ShoppingTrips df) ∧
  qsum (map Demand.y_Quantity (Demand.yearly_summary df))
  = hsum (map Demand.Quantity df) ∧
  (∀ row, Demand.yearly_summary df !! 0%nat = Some row →
     Demand.y_yoy_demand_growth row = NaN ∧ Demand.y_yoy_distribution_growth row = NaN) ∧
  (∀ i prev cur,
     Demand.yearly_summary df !! i = Some prev →
     Demand.yearly_summary df !! S i = Some cur →
     Demand.y_Year prev < Demand.y_Year cur ∧
     Demand.y_yoy_demand_growth cur
     = Demand.fsub1 (fdiv (Demand.y_ShoppingTrips cur) (Demand.y_ShoppingTrips prev)) ∧
     Demand.y_yoy_distribution_growth cur
     = Demand.fsub1 (fdiv (Demand.y_Quantity cur) (Demand.y_Quantity prev)) ∧
     (Demand.y_ShoppingTrips prev ≠ 0%Qc →
      Demand.y_yoy_demand_growth cur
      = Fin ((Demand.y_ShoppingTrips cur - Demand.y_ShoppingTrips prev)
             / Demand.y_ShoppingTrips prev)%Qc) ∧
     (Demand.y_Quantity prev ≠ 0%Qc →
      Demand.y_yoy_distribution_growth cur
      = Fin ((Demand.y_Quantity cur - Demand.y_Quantity prev) / Demand.y_Quantity prev)%Qc)).
Proof.
  set (years := unique_sorted (map Demand.Year df)).
  set (trips := map (fun y => hsum (map Demand.ShoppingTrips (Demand.rows_of_year y df))) years).
  set (lbs := map (fun y => hsum (map Demand.Quantity (Demand.rows_of_year y df))) years).
  assert (length (Demand.yearly_summary df) = length years) as Hlen.
  { unfold Demand.yearly_summary. cbv zeta. fold years. fold trips. fold lbs.
    rewrite !length_zip_with, !length_pct_change.
    unfold trips, lbs. rewrite !length_map. lia. }
  assert (∀ (f : Demand.yearly_row → Qc) (g : list Qc),
            length g = length years →
            (∀ i row, Demand.yearly_summary df !! i = Some row → g !! i = Some (f row)) →
            map f (Demand.yearly_summary df) = g) as Hcol.
  { intros f g Hg Hi. apply list_eq. intros i. change (map f ?l) with (f <$> l).
    rewrite list_lookup_fmap.
    destruct (Demand.yearly_summary df !! i) as [row|] eqn:E; cbn.
    - symmetry. by apply Hi.
    - symmetry. apply lookup_ge_None. apply lookup_ge_None in E. lia. }
  split; [|split; [|split; [|split; [|split]]]].
  - apply list_eq. intros i. change (map ?f ?l) with (f <$> l). rewrite list_lookup_fmap.
    destruct (Demand.yearly_summary df !! i) as [row|] eqn:E; cbn.
    + symmetry. by destruct (yearly_summary_lookup df i row E) as (? & _).
    + symmetry. apply lookup_ge_None. apply lookup_ge_None in E. fold years. lia.
  - intros row Hrow. apply list_elem_of_lookup in Hrow as [i Hi].
    destruct (yearly_summary_lookup df i row Hi) as (_ & _ & _ & ? & ? & ? & _). done.
  - rewrite (Hcol Demand.y_ShoppingTrips trips).
    + apply yearly_sums_total.
    + unfold trips. by rewrite length_map.
    + intros i row Hi. by destruct (yearly_summary_lookup df i row Hi) as (_ & ? & _).
  - rewrite (Hcol Demand.y_Quantity lbs).
    + apply yearly_sums_total.
    + unfold lbs. by rewrite length_map.
    + intros i row Hi. by destruct (yearly_summary_lookup df i row Hi) as (_ & _ & ? & _).
  - intros row Hi.
    destruct (yearly_summary_lookup df 0 row Hi) as (_ & _ & _ & _ & _ & _ & H1 & H2).
    split; by eapply pct_change_lookup_0.
  - intros i prev cur Hp Hc.
    destruct (yearly_summary_lookup df i prev Hp) as (Hy1 & Ht1 & Hq1 & _).
    destruct (yearly_summary_lookup df (S i) cur Hc)
      as (Hy2 & Ht2 & Hq2 & _ & _ & _ & Hg1 & Hg2).
    rewrite (pct_change_lookup_S _ i _ _ Ht1 Ht2) in Hg1.
    rewrite (pct_change_lookup_S _ i _ _ Hq1 Hq2) in Hg2.
    injection Hg1 as Hg1. injection Hg2 as Hg2.
    split; [|split; [done|split; [done|split]]].
    + pose proof (unique_sorted_sorted (map Demand.Year df)) as HS.
      pose proof (NoDup_unique_sorted (map Demand.Year df)) as Hnd.
      fold years in HS, Hnd, Hy1, Hy2.
      assert (Demand.y_Year prev <= Demand.y_Year cur) as Hle.
      { rewrite <- (take_drop (S i) years) in HS.
        apply (StronglySorted_app_1_elem_of Z.le _ _ _ _ HS).
        - apply list_elem_of_lookup. exists i. rewrite lookup_take_lt by lia. done.
        - apply list_elem_of_lookup. exists 0%nat. rewrite lookup_drop.
          by rewrite Nat.add_0_r. }
      assert (Demand.y_Year prev ≠ Demand.y_Year cur) as Hne.
      { intros E. rewrite E in Hy1.
        pose proof (NoDup_lookup _ _ _ _ Hnd Hy1 Hy2). lia. }
      lia.
    + intros Hne. rewrite <- Hg1. by apply fsub1_fdiv.
    + intros Hne. rewrite <- Hg2. by apply fsub1_fdiv.
Qed.

(** *** The further theorems at the sample tables *)

Lemma top20_total_hours_witness :
  ∃ row, row ∈ compute_top20_engagement sample_table ∧
         t_TotalHours row
         = hsum (map Hours (List.filter (fun r => bool_decide (is_Some (VolunteerID r)))
                                        (rows_of_year (t_Year row) sample_table))).
Proof.
  assert (∃ row, row ∈ compute_top20_engagement sample_table) as [row Hrow].
  { eexists. vm_compute. apply list_elem_of_here. }
  exists row. split; [exact Hrow|]. exact (top20_total_hours sample_table row Hrow).
Defined.

Lemma top20_means_witness :
  ∃ row, row ∈ compute_top20_engagement sample_table ∧
         1 <= t_Top20Volunteers row <= t_TotalVolunteers row.
Proof.
  eexists. split; [vm_compute; apply list_elem_of_here|].
  refine (proj1 (top20_means sample_table _ _ _)).
  - vm_compute. apply list_elem_of_here.
  - reflexivity.
Defined.

Lemma retention_percentages_witness :
  ∃ row, row ∈ compute_retention_rolling_6mo sample_table ∧
         0 <= r_ActiveVolunteers row ∧ 0 <= r_InactiveVolunteers row.
Proof.
  assert (∃ row, row ∈ compute_retention_rolling_6mo sample_table) as [row Hrow].
  { eexists. vm_compute. apply list_elem_of_here. }
  exists row. split; [exact Hrow|].
  destruct (retention_percentages sample_table row Hrow) as (H1 & H2 & _).
  split; [exact H1|exact H2].
Defined.

Lemma growth_percentages_witness :
  ∃ row, row ∈ growth_explainer sample_table ∧
         0 <= g_NewVolunteers row <= g_ActiveVolunteers row.
Proof.
  assert (∃ row, row ∈ growth_explainer sample_table) as [row Hrow].
  { eexists. vm_compute. apply list_elem_of_here. }
  exists row. split; [exact Hrow|].
  exact (proj1 (growth_percentages sample_table row Hrow)).
Defined.

Lemma cleaning_changes_only_category_witness :
  ∃ raw, raw ∈ sample_log ∧
    VolunteerID (derive (sample_raw (Some 1) 4) 1673341200) = DatabaseUserId raw ∧
    Hours (derive (sample_raw (Some 1) 4) 1673341200) = HoursWorked raw.
Proof.
  destruct (cleaning_changes_only_category to_datetime_sample sample_log
              (derive (sample_raw (Some 1) 4) 1673341200))
    as (raw & Hin & Hv & Hh & _).
  { vm_compute. apply list_elem_of_here. }
  exists raw. split; [exact Hin|]. split; [exact Hv|exact Hh].
Defined.

Lemma derived_columns_witness :
  Month (derive (sample_raw (Some 1) 4) 1673341200) ∈ MONTH_ORDER ∧
  1 <= Week (derive (sample_raw (Some 1) 4) 1673341200) <= 53.
Proof.
  destruct (derived_columns to_datetime_sample sample_log
              (derive (sample_raw (Some 1) 4) 1673341200))
    as (_ & _ & Hm & _ & _ & _ & Hw).
  { vm_compute. apply list_elem_of_here. }
  split; [exact Hm|exact Hw].
Defined.

Lemma category_tables_agree_witness :
  ∃ row, row ∈ category_totals sample_table ∧
         c_TotalHours row
         = qsum (map cy_TotalHours
                     (List.filter (fun yrow => String.eqb (cy_Category yrow) (c_Category row))
                                  (category_yearly sample_table))).
Proof.
  assert (∃ row, row ∈ category_totals sample_table) as [row Hrow].
  { eexists. vm_compute. apply list_elem_of_here. }
  exists row. split; [exact Hrow|]. exact (category_tables_agree sample_table row Hrow).
Defined.

Lemma yearly_engagement_statistics_witness :
  ∃ d mn mx, (2023, d) ∈ compute_yearly_engagement sample_table ∧
             d_min d = Fin mn ∧ d_max d = Fin mx ∧
             ∀ v h, (v, h) ∈ hours_by_volunteer (rows_of_year 2023 sample_table) →
                    (mn <= h <= mx)%Qc.
Proof.
  assert (∃ d, (2023, d) ∈ compute_yearly_engagement sample_table) as [d Hd].
  { eexists. vm_compute. apply list_elem_of_here. }
  destruct (yearly_engagement_statistics sample_table 2023 d Hd)
    as (mn & q1 & q2 & q3 & mx & mean & H1 & _ & _ & _ & H5 & _ & _ & _ & _ & _ & H & _).
  exists d, mn, mx. split; [exact Hd|]. split; [exact H1|]. split; [exact H5|exact H].
Defined.


Lemma describe_sample :
  let d := describe [Qc_of_Z 3; Qc_of_Z 10; Qc_of_Z 1; Qc_of_Z 4] in
  let show := fun x => match x with Fin q => Some (this q) | _ => None end in
  (d_count d, show (d_mean d),
   match d_std d with StdSqrt v => Some (this v) | StdNaN => None end,
   show (d_min d), show (d_25 d), show (d_50 d), show (d_75 d), show (d_max d))
  = (4, Some (9 # 2)%Q, Some (15 # 1)%Q, Some (1 # 1)%Q, Some (5 # 2)%Q,
     Some (7 # 2)%Q, Some (11 # 2)%Q, Some (10 # 1)%Q).
Proof. vm_compute. reflexivity. Qed.

Lemma classify_language_spec_witness :
  classify_language "English, French" = "Multilingual" ∧
  classify_language "ENGLISH, FRENCH" = "Multilingual" ∧
  classify_language "english, french" = "Multilingual".
Proof.
  destruct (classify_language_spec "English, French") as (H1 & _ & _ & H2 & H3).
  { vm_compute. repeat split; reflexivity. }
  assert (classify_language "English, French" = "Multilingual") as H.
  { apply H1. split; [by exists "", ", french"|]. left. by exists "english", " french". }
  split; [exact H|]. split.
  - exact (eq_trans H2 H).
  - exact (eq_trans H3 H).
Defined.

Lemma extract_fsa_spec_witness :
  extract_fsa (Some "l5b 1h7") = Some "L5B" ∧ extract_fsa (Some "L5B") = Some "L5B".
Proof.
  destruct (extract_fsa_spec "l5b 1h7") as [_ H].
  { vm_compute. repeat split; reflexivity. }
  destruct (H "L5B" eq_refl) as (_ & _ & _ & Hidem).
  split; [reflexivity|exact Hidem].
Defined.

(** The sample tables, evaluated. *)
Lemma category_sample :
  map (fun r => (c_Category r, this (c_TotalHours r))) (category_totals sample_table)
  = [("Food Sort", (13 # 1)%Q)].
Proof. vm_compute. reflexivity. Qed.

Lemma weekly_sample :
  map (fun r => (Demand.w_Day_of_week r,
                 match Demand.w_demand_share r with Fin q => Some (this q) | _ => None end))
      (Demand.weekly_summary sample_days)
  = [("Monday", Some (4 # 5)%Q); ("Tuesday", Some (1 # 5)%Q)].
Proof. vm_compute. reflexivity. Qed.
